(** * export_rag_jsonl: forum articles to overlapping text chunks

    A shallow embedding of [export_rag_jsonl.py] and the properties of its
    chunker, field normalisers, record builder and pipeline driver.

    Python strings are sequences of Unicode code points, so a string is a
    list of code points and [len] counts code points, as Python's [len]
    does.  Python integers are unbounded and are modelled by [Z]. *)

From Stdlib Require Import String Ascii.
From Stdlib Require Import ZArith NArith Bool Lia List.
Import ListNotations.

#[local] Open Scope Z_scope.

(** ** Strings *)

Definition char := N.
Definition pystr := list char.

Definition len (s : pystr) : Z := Z.of_nat (List.length s).

Fixpoint string_bytes (s : string) : list N :=
  match s with
  | EmptyString => []
  | String a r => N_of_ascii a :: string_bytes r
  end.

(** Literals of the source are written as UTF-8 text and decoded to code
    points. *)
Fixpoint utf8_decode (bs : list N) : pystr :=
  match bs with
  | [] => []
  | b0 :: r0 =>
    if (b0 <? 0x80)%N then b0 :: utf8_decode r0
    else
      match r0 with
      | [] => []
      | b1 :: r1 =>
        if (b0 <? 0xE0)%N
        then ((b0 mod 0x20) * 0x40 + b1 mod 0x40)%N :: utf8_decode r1
        else
          match r1 with
          | [] => []
          | b2 :: r2 =>
            if (b0 <? 0xF0)%N
            then ((b0 mod 0x10) * 0x1000 + (b1 mod 0x40) * 0x40
                  + b2 mod 0x40)%N :: utf8_decode r2
            else
              match r2 with
              | [] => []
              | b3 :: r3 =>
                ((b0 mod 0x08) * 0x40000 + (b1 mod 0x40) * 0x1000
                 + (b2 mod 0x40) * 0x40 + b3 mod 0x40)%N :: utf8_decode r3
              end
          end
      end
  end.

Definition u (s : string) : pystr := utf8_decode (string_bytes s).
Arguments u s%_string.

(** [content.encode("utf-8", errors="ignore")]: lone surrogates cannot be
    encoded and are dropped. *)
Definition is_surrogate (c : char) : bool :=
  ((0xD800 <=? c) && (c <=? 0xDFFF))%N.

Definition utf8_encode_char (c : char) : list N :=
  if (c <? 0x80)%N then [c]
  else if (c <? 0x800)%N then [0xC0 + c / 0x40; 0x80 + c mod 0x40]%N
  else if is_surrogate c then []
  else if (c <? 0x10000)%N
  then [0xE0 + c / 0x1000; 0x80 + (c / 0x40) mod 0x40; 0x80 + c mod 0x40]%N
  else [0xF0 + c / 0x40000; 0x80 + (c / 0x1000) mod 0x40;
        0x80 + (c / 0x40) mod 0x40; 0x80 + c mod 0x40]%N.

Definition utf8_encode (s : pystr) : list N := flat_map utf8_encode_char s.

Definition char_eqb (a b : char) : bool := (a =? b)%N.

Fixpoint str_eqb (a b : pystr) : bool :=
  match a, b with
  | [], [] => true
  | x :: a', y :: b' => char_eqb x y && str_eqb a' b'
  | _, _ => false
  end.

(** The characters [str.isspace], [str.strip()] and the regular expression
    class [\s] treat as whitespace. *)
Definition is_space (c : char) : bool :=
  (((0x09 <=? c) && (c <=? 0x0D)) || ((0x1C <=? c) && (c <=? 0x20))
   || (c =? 0x85) || (c =? 0xA0) || (c =? 0x1680)
   || ((0x2000 <=? c) && (c <=? 0x200A))
   || (c =? 0x2028) || (c =? 0x2029) || (c =? 0x202F) || (c =? 0x205F)
   || (c =? 0x3000))%N.

Fixpoint lstrip_by (p : char -> bool) (s : pystr) : pystr :=
  match s with
  | [] => []
  | c :: r => if p c then lstrip_by p r else s
  end.

Definition rstrip_by (p : char -> bool) (s : pystr) : pystr :=
  rev (lstrip_by p (rev s)).

Definition strip_by (p : char -> bool) (s : pystr) : pystr :=
  lstrip_by p (rstrip_by p s).

(** [s.strip()] *)
Definition strip (s : pystr) : pystr := strip_by is_space s.

(** [s.strip(chars)] *)
Definition strip_chars (chars s : pystr) : pystr :=
  strip_by (fun c => existsb (char_eqb c) chars) s.

(** [s[a:b]] with Python's treatment of negative and out-of-range bounds. *)
Definition clamp_index (n i : Z) : Z :=
  if i <? 0 then Z.max 0 (i + n) else Z.min i n.

Definition slice (s : pystr) (a b : Z) : pystr :=
  let a' := clamp_index (len s) a in
  let b' := clamp_index (len s) b in
  firstn (Z.to_nat (b' - a')) (skipn (Z.to_nat a') s).

(** [sep.join(parts)] *)
Fixpoint join (sep : pystr) (parts : list pystr) : pystr :=
  match parts with
  | [] => []
  | [p] => p
  | p :: rest => p ++ sep ++ join sep rest
  end.

(** ** The chunker *)

Definition window_end (text : pystr) (max_chars start : Z) : Z :=
  Z.min (start + max_chars) (len text).

Definition next_start (overlap end_ : Z) : Z := Z.max 0 (end_ - overlap).

(** The [while start < length] loop of [simple_chunk_text].  One unit of
    fuel pays for one evaluation of the loop condition; [None] means the
    fuel ran out before the loop was left. *)
Fixpoint chunk_loop (fuel : nat) (text : pystr) (max_chars overlap : Z)
    (start : Z) (chunks : list pystr) : option (list pystr) :=
  match fuel with
  | O => None
  | S fuel' =>
    if start <? len text then
      let end_ := window_end text max_chars start in
      let chunks' := chunks ++ [slice text start end_] in
      if end_ =? len text then Some chunks'
      else chunk_loop fuel' text max_chars overlap
             (next_start overlap end_) chunks'
    else Some chunks
  end.

Definition simple_chunk_text (fuel : nat) (text : pystr)
    (max_chars overlap : Z) : option (list pystr) :=
  let text := strip text in
  match text with
  | [] => Some []
  | _ =>
    if max_chars <=? 0 then Some [text]
    else chunk_loop fuel text max_chars overlap 0 []
  end.

Definition title_prefix (title : pystr) : pystr :=
  u "標題: " ++ title ++ u " | ".

Definition chunk_with_title_prefix (fuel : nat) (text title : pystr)
    (max_chars overlap : Z) : option (list pystr) :=
  match simple_chunk_text fuel text max_chars overlap with
  | None => None
  | Some chunks =>
    match title with
    | [] => Some chunks
    | _ =>
      let adjusted_max_chars := max_chars - len (title_prefix title) in
      match simple_chunk_text fuel text adjusted_max_chars overlap with
      | None => None
      | Some adjusted_chunks =>
        Some (map (fun chunk => title_prefix title ++ chunk) adjusted_chunks)
      end
    end
  end.

(** Putting the chunks back together: the first chunk, then every later
    chunk without its first [overlap] characters. *)
Definition reassemble (overlap : Z) (chunks : list pystr) : pystr :=
  match chunks with
  | [] => []
  | c :: rest => c ++ concat (map (skipn (Z.to_nat overlap)) rest)
  end.

(** The windows the loop of the chunker cuts when it is entered at
    [start]: the statement of what a finished run has appended. *)
Inductive windows (text : pystr) (max_chars overlap : Z)
  : Z -> list pystr -> Prop :=
| windows_done start :
    len text <= start -> windows text max_chars overlap start []
| windows_last start :
    start < len text -> len text <= start + max_chars ->
    windows text max_chars overlap start [slice text start (len text)]
| windows_step start ws :
    start < len text -> start + max_chars < len text ->
    windows text max_chars overlap
      (next_start overlap (start + max_chars)) ws ->
    windows text max_chars overlap start
      (slice text start (start + max_chars) :: ws).

(** Where the [i]-th window of a run from 0 starts. *)
Definition chunk_start (max_chars overlap : Z) (i : nat) : Z :=
  Z.of_nat i * (max_chars - overlap).

(** ** Title tags: [re.findall(r"\[(.+?)\]", title)] *)

Definition ch (s : string) : char := hd 0%N (u s).
Arguments ch s%_string.

Definition newline : char := 0x0A%N.

(** The lazy group [(.+?)] followed by a closing bracket, tried on the
    text after an opening bracket: at least one character, none of them a
    newline, up to the first closing bracket after the first character.
    Returns the group and the text after the closing bracket. *)
Fixpoint lazy_group (s : pystr) : option (pystr * pystr) :=
  match s with
  | [] => None
  | c :: r =>
    if char_eqb c newline then None
    else
      match r with
      | [] => None
      | d :: r' =>
        if char_eqb d (ch "]") then Some ([c], r')
        else
          match lazy_group r with
          | Some (g, rest) => Some (c :: g, rest)
          | None => None
          end
      end
  end.

(** The scan of [findall]: a match is tried at every position from left to
    right, and after a match the scan goes on behind it ([skip] counts the
    characters of the match still to pass). *)
Fixpoint findall_brackets (skip : nat) (s : pystr) : list pystr :=
  match s with
  | [] => []
  | c :: r =>
    match skip with
    | S k => findall_brackets k r
    | O =>
      if char_eqb c (ch "[") then
        match lazy_group r with
        | Some (g, _) => g :: findall_brackets (S (length g)) r
        | None => findall_brackets 0 r
        end
      else findall_brackets 0 r
    end
  end.

Definition nonempty (s : pystr) : bool :=
  match s with [] => false | _ => true end.

(** [extract_title_tags] on a string title. *)
Definition title_tags (title : pystr) : list pystr :=
  match title with
  | [] => []
  | _ =>
    let tags := findall_brackets 0 title in
    map strip (filter (fun t => nonempty (strip t)) tags)
  end.

(** A match of the pattern is possible in [s] behind [before]: an opening
    bracket, a group that is not empty and holds no newline, a closing
    bracket. *)
Definition group_behind (s before : pystr) : Prop :=
  exists g after,
    s = before ++ ch "[" :: g ++ ch "]" :: after /\ g <> [] /\ ~ In newline g.

(** What [findall] returns for the pattern: the groups lie in brackets in
    the title, one behind the other from left to right; a group is not
    empty, holds no newline, and holds no closing bracket after its first
    character; no match was possible further left; and behind the last
    group no match is possible. *)
Inductive bracketed : pystr -> list pystr -> Prop :=
| bracketed_nil s :
    (forall before, ~ group_behind s before) -> bracketed s []
| bracketed_cons before g after gs :
    g <> [] -> ~ In newline g -> ~ In (ch "]") (tl g) ->
    (forall before',
       group_behind (before ++ ch "[" :: g ++ ch "]" :: after) before' ->
       (length before <= length before')%nat) ->
    bracketed after gs ->
    bracketed (before ++ ch "[" :: g ++ ch "]" :: after) (g :: gs).

(** ** Dates: [datetime.strptime] for the formats the program uses *)

(** The zeros of the decimal digit ranges of Unicode 14: the class [\d]
    of a string pattern, whose members [int] converts. *)
Definition decimal_zeros : list N :=
  [0x30; 0x660; 0x6f0; 0x7c0; 0x966; 0x9e6; 0xa66; 0xae6; 0xb66; 0xbe6;
   0xc66; 0xce6; 0xd66; 0xde6; 0xe50; 0xed0; 0xf20; 0x1040; 0x1090;
   0x17e0; 0x1810; 0x1946; 0x19d0; 0x1a80; 0x1a90; 0x1b50; 0x1bb0;
   0x1c40; 0x1c50; 0xa620; 0xa8d0; 0xa900; 0xa9d0; 0xa9f0; 0xaa50;
   0xabf0; 0xff10; 0x104a0; 0x10d30; 0x11066; 0x110f0; 0x11136; 0x111d0;
   0x112f0; 0x11450; 0x114d0; 0x11650; 0x116c0; 0x11730; 0x118e0;
   0x11950; 0x11c50; 0x11d50; 0x11da0; 0x16a60; 0x16ac0; 0x16b50;
   0x1d7ce; 0x1d7d8; 0x1d7e2; 0x1d7ec; 0x1d7f6; 0x1e140; 0x1e2f0;
   0x1e950; 0x1fbf0]%N.

(** [\d] *)
Definition any_digit (c : char) : option Z :=
  match find (fun z => (z <=? c) && (c <? z + 10))%N decimal_zeros with
  | Some z => Some (Z.of_N (c - z))
  | None => None
  end.

(** [[lo-hi]] for ASCII digits [lo] and [hi] *)
Definition cls (lo hi : string) (c : char) : option Z :=
  if ((ch lo <=? c) && (c <=? ch hi))%N then Some (Z.of_N (c - ch "0"))
  else None.
Arguments cls (lo hi)%_string c.

Definition lit (d : string) : char -> option Z := cls d d.
Arguments lit d%_string.

(** A matcher lists the ways a pattern matches a prefix of the text, in
    the order the backtracking engine tries them: the value read and the
    text left. *)
Definition matcher := pystr -> list (Z * pystr).

Definition one (p : char -> option Z) : matcher := fun s =>
  match s with
  | c :: r => match p c with Some v => [(v, r)] | None => [] end
  | [] => []
  end.

Definition two (p q : char -> option Z) : matcher := fun s =>
  match s with
  | a :: b :: r =>
    match p a, q b with
    | Some x, Some y => [(10 * x + y, r)]
    | _, _ => []
    end
  | _ => []
  end.

Definition alt (m1 m2 : matcher) : matcher := fun s => m1 s ++ m2 s.
Infix "<|>" := alt (at level 51, right associativity).

(** [3[0-1]|[1-2]\d|0[1-9]|[1-9]| [1-9]] *)
Definition re_d : matcher :=
  two (lit "3") (cls "0" "1") <|> two (cls "1" "2") any_digit
  <|> two (lit "0") (cls "1" "9") <|> one (cls "1" "9")
  <|> (fun s => match s with
                | c :: r => if char_eqb c (ch " ") then one (cls "1" "9") r
                            else []
                | [] => []
                end).

(** [2[0-3]|[0-1]\d|\d] *)
Definition re_H : matcher :=
  two (lit "2") (cls "0" "3") <|> two (cls "0" "1") any_digit
  <|> one any_digit.

(** [[0-5]\d|\d] *)
Definition re_M : matcher := two (cls "0" "5") any_digit <|> one any_digit.

(** [6[0-1]|[0-5]\d|\d] *)
Definition re_S : matcher :=
  two (lit "6") (cls "0" "1") <|> two (cls "0" "5") any_digit
  <|> one any_digit.

(** [1[0-2]|0[1-9]|[1-9]] *)
Definition re_m : matcher :=
  two (lit "1") (cls "0" "2") <|> two (lit "0") (cls "1" "9")
  <|> one (cls "1" "9").

(** [\d\d\d\d] *)
Definition re_Y : matcher := fun s =>
  match s with
  | a :: b :: c :: d :: r =>
    match any_digit a, any_digit b, any_digit c, any_digit d with
    | Some x, Some y, Some z, Some w =>
      [(1000 * x + 100 * y + 10 * z + w, r)]
    | _, _, _, _ => []
    end
  | _ => []
  end.

Definition ascii_lower (c : char) : char :=
  if ((ch "A" <=? c) && (c <=? ch "Z"))%N then (c + 32)%N else c.

(** The names of the C locale, as [_strptime.LocaleTime] keeps them. *)
Definition a_weekday : list pystr :=
  map u ["mon"; "tue"; "wed"; "thu"; "fri"; "sat"; "sun"]%string.

Definition a_month : list pystr :=
  map u [""; "jan"; "feb"; "mar"; "apr"; "may"; "jun"; "jul"; "aug"; "sep";
         "oct"; "nov"; "dec"]%string.

Fixpoint name_prefix (name s : pystr) : option pystr :=
  match name, s with
  | [], _ => Some s
  | n :: name', c :: s' =>
    if char_eqb n (ascii_lower c) then name_prefix name' s' else None
  | _ :: _, [] => None
  end.

(** An alternation of names, matched without regard to case; the value is
    the index of the name in [names], counted from [i]. *)
Fixpoint re_names (i : Z) (names : list pystr) : matcher := fun s =>
  match names with
  | [] => []
  | name :: rest =>
    match name, name_prefix name s with
    | _ :: _, Some r => [(i, r)]
    | _, _ => []
    end ++ re_names (i + 1) rest s
  end.

(** [\s+], the longest run first *)
Fixpoint re_spaces (s : pystr) : list pystr :=
  match s with
  | c :: r => if is_space c then re_spaces r ++ [r] else []
  | [] => []
  end.

Inductive directive : Type :=
| Dir (c : char)   (* a conversion, %c *)
| Lit (c : char)   (* a character of the format itself *)
| Spaces.          (* a run of whitespace in the format *)

(** The format string as [_strptime] reads it; [in_space] tells that the
    previous character was whitespace. *)
Fixpoint parse_format (in_space : bool) (format : pystr) : list directive :=
  match format with
  | [] => []
  | c :: r =>
    if char_eqb c (ch "%") then
      match r with
      | d :: r' => Dir d :: parse_format false r'
      | [] => [Lit c]
      end
    else if is_space c then
      if in_space then parse_format true r else Spaces :: parse_format true r
    else Lit c :: parse_format false r
  end.

Record fields : Type := mkFields
  { year : Z; month : Z; day : Z; hour : Z; minute : Z; second : Z }.

Definition default_fields : fields := mkFields 1900 1 1 0 0 0.

Definition set_field (c : char) (f : fields) (v : Z) : fields :=
  let (y, m, d, h, mi, sec) := f in
  if char_eqb c (ch "Y") then mkFields v m d h mi sec
  else if char_eqb c (ch "m") || char_eqb c (ch "b")
  then mkFields y v d h mi sec
  else if char_eqb c (ch "d") then mkFields y m v h mi sec
  else if char_eqb c (ch "H") then mkFields y m d v mi sec
  else if char_eqb c (ch "M") then mkFields y m d h v sec
  else if char_eqb c (ch "S") then mkFields y m d h mi v
  else f.

Definition directive_re (c : char) : matcher :=
  if char_eqb c (ch "Y") then re_Y
  else if char_eqb c (ch "m") then re_m
  else if char_eqb c (ch "d") then re_d
  else if char_eqb c (ch "H") then re_H
  else if char_eqb c (ch "M") then re_M
  else if char_eqb c (ch "S") then re_S
  else if char_eqb c (ch "a") then re_names 0 a_weekday
  else if char_eqb c (ch "b") then re_names 0 a_month
  else fun _ => [].

Definition match_directive (d : directive) (f : fields) (s : pystr)
  : list (fields * pystr) :=
  match d with
  | Dir c => map (fun vr => (set_field c f (fst vr), snd vr)) (directive_re c s)
  | Lit c =>
    match s with
    | x :: r => if char_eqb c x then [(f, r)] else []
    | [] => []
    end
  | Spaces => map (fun r => (f, r)) (re_spaces s)
  end.

(** All matches of the whole pattern at the start of the text, in the
    order of the engine; the first is the one [re.match] returns. *)
Fixpoint match_format (ds : list directive) (f : fields) (s : pystr)
  : list (fields * pystr) :=
  match ds with
  | [] => [(f, s)]
  | d :: ds' =>
    flat_map (fun fr => match_format ds' (fst fr) (snd fr))
      (match_directive d f s)
  end.

Definition is_leap (y : Z) : bool :=
  ((y mod 4 =? 0) && negb (y mod 100 =? 0)) || (y mod 400 =? 0).

Definition days_in_month (y m : Z) : Z :=
  if m =? 2 then (if is_leap y then 29 else 28)
  else if (m =? 4) || (m =? 6) || (m =? 9) || (m =? 11) then 30
  else 31.

(** The checks of the [datetime] constructor. *)
Definition valid_datetime (f : fields) : bool :=
  (1 <=? year f) && (year f <=? 9999)
  && (1 <=? month f) && (month f <=? 12)
  && (1 <=? day f) && (day f <=? days_in_month (year f) (month f))
  && (0 <=? hour f) && (hour f <=? 23)
  && (0 <=? minute f) && (minute f <=? 59)
  && (0 <=? second f) && (second f <=? 59).

(** [datetime.strptime(data_string, format)]; [None] stands for the
    [ValueError] of a text that does not match, of unconverted data that
    remains, and of a date that does not exist. *)
Definition strptime (data_string format : pystr) : option fields :=
  match match_format (parse_format false format) default_fields data_string
  with
  | (f, []) :: _ => if valid_datetime f then Some f else None
  | _ => None
  end.

Definition digit_char (d : Z) : char := (ch "0" + Z.to_N d)%N.

(** The last [width] decimal digits of [n], with leading zeros. *)
Fixpoint zero_padded (width : nat) (n : Z) : pystr :=
  match width with
  | O => []
  | S w => zero_padded w (n / 10) ++ [digit_char (n mod 10)]
  end.

(** [dt.isoformat()] of a datetime without microseconds and time zone. *)
Definition isoformat (f : fields) : pystr :=
  zero_padded 4 (year f) ++ u "-" ++ zero_padded 2 (month f) ++ u "-"
  ++ zero_padded 2 (day f) ++ u "T" ++ zero_padded 2 (hour f) ++ u ":"
  ++ zero_padded 2 (minute f) ++ u ":" ++ zero_padded 2 (second f).

Definition candidates : list pystr :=
  map u ["%Y/%m/%d %H:%M"; "%Y-%m-%d %H:%M"; "%Y/%m/%d"; "%Y-%m-%d";
         "%a %b %d %H:%M:%S %Y"]%string.

(** The [for fmt in candidates] loop with its fall-through. *)
Fixpoint try_formats (dt_value : pystr) (fmts : list pystr) : pystr :=
  match fmts with
  | [] => dt_value
  | fmt :: rest =>
    match strptime dt_value fmt with
    | Some dt => isoformat dt
    | None => try_formats dt_value rest
    end
  end.

(** ** Values of the input document *)

(** What [json.load] returns: [None], booleans, integers, floats (kept as
    their 64 bits), strings, lists, and dictionaries with string keys, a
    dictionary as the list of its items, looked up from the front. *)
#[warnings="-register-all"]
Inductive value : Type :=
| VNone
| VBool (b : bool)
| VInt (n : Z)
| VFloat (bits : Z)
| VStr (s : pystr)
| VList (items : list value)
| VDict (items : list (pystr * value)).

(** Truth value testing: [if v], [not v], [a or b], [bool(v)]. *)
Definition truthy (v : value) : bool :=
  match v with
  | VNone => false
  | VBool b => b
  | VInt n => negb (n =? 0)
  | VFloat bits => negb (bits mod 2 ^ 63 =? 0)
  | VStr s => nonempty s
  | VList l => match l with [] => false | _ => true end
  | VDict d => match d with [] => false | _ => true end
  end.

(** [a or b] *)
Definition py_or (a b : value) : value := if truthy a then a else b.

Fixpoint lookup (d : list (pystr * value)) (key : pystr) : option value :=
  match d with
  | [] => None
  | (k, v) :: rest => if str_eqb k key then Some v else lookup rest key
  end.

(** [d.get(key, default)] *)
Definition dict_get (d : list (pystr * value)) (key : string)
    (default : value) : value :=
  match lookup d (u key) with
  | Some v => v
  | None => default
  end.
Arguments dict_get d key%_string default.

(** ** Results of calls that may raise or loop *)

Inductive exn : Type :=
| TypeError | AttributeError | KeyError | UnicodeEncodeError.

Inductive outcome (A : Type) : Type :=
| Return (a : A)      (* the call returns *)
| Raise (e : exn)     (* the call raises *)
| OutOfFuel.          (* the loop of the chunker did not end in time *)
Arguments Return {A} a.
Arguments Raise {A} e.
Arguments OutOfFuel {A}.

Definition bind {A B : Type} (m : outcome A) (k : A -> outcome B)
  : outcome B :=
  match m with
  | Return a => k a
  | Raise e => Raise e
  | OutOfFuel => OutOfFuel
  end.

Notation "x <- m ;; k" := (bind m (fun x => k))
  (at level 61, m at next level, right associativity).

Definition of_option {A : Type} (o : option A) : outcome A :=
  match o with
  | Some a => Return a
  | None => OutOfFuel
  end.

(** ** Output records *)

Record metadata : Type := mkMetadata
  { m_id : pystr;
    m_source : pystr;
    m_url : value;
    m_board : value;
    m_title : value;
    m_author : value;
    m_created_at : pystr;
    m_tags : list pystr;
    m_chunk_index : Z;
    m_total_chunks : Z;
    m_has_media : bool;
    m_dedupe_key : pystr }.

Record record : Type := mkRecord
  { r_content : pystr;
    r_metadata : metadata }.

(** ** Library functions the program calls and this development leaves
    open *)

Class Externals : Type :=
  { (** [str(v)], as an f-string renders a value that is not a string *)
    py_str : value -> pystr;
    (** [datetime.fromtimestamp(float(v)).isoformat()] in the local time
        zone, [None] when it raises *)
    fromtimestamp_isoformat : value -> option pystr;
    (** [hashlib.sha256(data).hexdigest()] *)
    sha256_hex : list N -> pystr;
    (** [json.dumps(rec, ensure_ascii=False)] *)
    json_dumps : record -> pystr }.

Section Program.

Context {ext : Externals}.

(** How an f-string renders a value. *)
Definition format_value (v : value) : pystr :=
  match v with
  | VStr s => s
  | _ => py_str v
  end.

(** The body of the loop of [extract_push_content] for one message. *)
Definition push_line (msg : value) : outcome (list pystr) :=
  match msg with
  | VDict d =>
    let push_content := dict_get d "push_content" (VStr []) in
    if truthy push_content
    then Return [u "推文: " ++ format_value push_content]
    else Return []
  | _ => Raise AttributeError
  end.

Fixpoint push_lines (messages : list value) : outcome (list pystr) :=
  match messages with
  | [] => Return []
  | msg :: rest =>
    line <- push_line msg ;;
    lines <- push_lines rest ;;
    Return (line ++ lines)
  end.

Definition extract_push_content (messages : value) : outcome pystr :=
  if negb (truthy messages) then Return []
  else
    match messages with
    | VList l =>
      push_lines_ <- push_lines l ;;
      Return (join [newline] push_lines_)
    | VStr _ | VDict _ =>
      (* the elements are strings, which have no [get] *)
      Raise AttributeError
    | _ => Raise TypeError  (* not iterable *)
    end.

(** [sep.join(parts)] on values: every part has to be a string. *)
Fixpoint py_join_parts (parts : list value) : outcome (list pystr) :=
  match parts with
  | [] => Return []
  | VStr s :: rest => strs <- py_join_parts rest ;; Return (s :: strs)
  | _ :: _ => Raise TypeError
  end.

Definition clean_article_with_comments (article : value) : outcome pystr :=
  match article with
  | VDict d =>
    let content := dict_get d "content" (VStr []) in
    let messages := dict_get d "messages" (VList []) in
    push_content <- extract_push_content messages ;;
    let parts :=
      (if truthy content then [content] else [])
      ++ (if nonempty push_content then [VStr push_content] else []) in
    match parts with
    | [] => Return []
    | _ => strs <- py_join_parts parts ;; Return (join (u " | ") strs)
    end
  | _ =>
    (* [str(article)] is taken, then [article.get] fails *)
    Raise AttributeError
  end.

Definition normalize_datetime (dt_value : value) : pystr :=
  if negb (truthy dt_value) then []
  else
    match dt_value with
    | VBool _ | VInt _ | VFloat _ =>
      match fromtimestamp_isoformat dt_value with
      | Some iso => iso
      | None => []
      end
    | VStr s => try_formats s candidates
    | _ => []
    end.

Definition extract_title_tags (title : value) : outcome (list pystr) :=
  if negb (truthy title) then Return []
  else
    match title with
    | VStr s => Return (title_tags s)
    | _ => Raise TypeError  (* [re.findall] wants a string *)
    end.

Definition sha256_hexdigest (content : pystr) : pystr :=
  sha256_hex (utf8_encode content).

(** [str(idx)] of a chunk index *)
Fixpoint decimal_digits (fuel : nat) (n : Z) : pystr :=
  match fuel with
  | O => []
  | S fuel' =>
    (if n <? 10 then [] else decimal_digits fuel' (n / 10))
    ++ [digit_char (n mod 10)]
  end.

Definition str_of_index (idx : nat) : pystr :=
  decimal_digits (S idx) (Z.of_nat idx).

Definition make_record (source : pystr) (article_id url board author : value)
    (created_at : pystr) (article_title : value) (tags : list pystr)
    (has_media : bool) (dedupe_key : pystr) (total_chunks : Z)
    (idx : nat) (chunk : pystr) : record :=
  mkRecord chunk
    (mkMetadata
       (strip_chars (u "_")
          (source ++ u "_" ++ format_value board ++ u "_"
           ++ format_value article_id ++ u "_" ++ str_of_index idx))
       source url board article_title author created_at tags
       (Z.of_nat idx) total_chunks has_media dedupe_key).

(** [enumerate] *)
Definition enumerate {A : Type} (l : list A) : list (nat * A) :=
  combine (seq 0 (length l)) l.

(** The generator [to_jsonl_records], as the list of the records it
    yields.  Everything that can raise or loop happens before the first
    record is yielded. *)
Definition to_jsonl_records (fuel : nat) (article : value) (source : pystr)
  : outcome (list record) :=
  match article with
  | VDict d =>
    let get := fun key => dict_get d key VNone in
    let article_id :=
      py_or (get "id"%string)
        (py_or (get "aid"%string)
           (py_or (get "article_id"%string)
              (py_or (get "_id"%string) (VStr [])))) in
    let url := dict_get d "url" (VStr []) in
    let board := dict_get d "board" (dict_get d "board_name" (VStr [])) in
    let author := dict_get d "author" (VStr []) in
    let created_at :=
      normalize_datetime
        (py_or (get "date"%string)
           (py_or (get "created_at"%string) (get "time"%string))) in
    content <- clean_article_with_comments article ;;
    let article_title := dict_get d "article_title" (VStr []) in
    tags <- extract_title_tags article_title ;;
    let dedupe_key := u "sha256:" ++ sha256_hexdigest content in
    (* a title that passed [extract_title_tags] is a string or falsy, and
       a falsy one takes the [if not title] branch as the empty string *)
    let title := match article_title with VStr s => s | _ => [] end in
    content_chunks <-
      of_option (chunk_with_title_prefix fuel content title 1600 200) ;;
    let total_chunks :=
      match content_chunks with
      | [] => 1
      | _ => Z.of_nat (length content_chunks)
      end in
    let content_chunks :=
      match content_chunks with
      | [] => [[]]
      | _ => content_chunks
      end in
    let has_media := truthy (dict_get d "has_media" (VBool false)) in
    Return
      (map (fun ic =>
              make_record source article_id url board author created_at
                article_title tags has_media dedupe_key total_chunks
                (fst ic) (snd ic))
         (enumerate content_chunks))
  | _ => Raise AttributeError
  end.

(** ** The driver *)

Fixpoint is_prefix (needle s : pystr) : bool :=
  match needle, s with
  | [], _ => true
  | n :: needle', c :: s' => char_eqb n c && is_prefix needle' s'
  | _ :: _, [] => false
  end.

Fixpoint is_substring (needle s : pystr) : bool :=
  is_prefix needle s
  || match s with
     | [] => false
     | _ :: r => is_substring needle r
     end.

(** [needle in v] for a string [needle] *)
Definition py_contains (needle : pystr) (v : value) : outcome bool :=
  match v with
  | VStr s => Return (is_substring needle s)
  | VList l =>
    Return (existsb (fun x => match x with
                              | VStr s => str_eqb s needle
                              | _ => false
                              end) l)
  | VDict d => Return (existsb (fun kv => str_eqb (fst kv) needle) d)
  | _ => Raise TypeError
  end.

(** [data["articles"]] *)
Definition py_getitem_articles (data : value) : outcome value :=
  match data with
  | VDict d =>
    match lookup d (u "articles") with
    | Some v => Return v
    | None => Raise KeyError
    end
  | _ => Raise TypeError
  end.

(** The elements a [for] loop over [v] visits. *)
Definition py_iter (v : value) : outcome (list value) :=
  match v with
  | VList l => Return l
  | VStr s => Return (map (fun c => VStr [c]) s)
  | VDict d => Return (map (fun kv => VStr (fst kv)) d)
  | _ => Raise TypeError
  end.

(** The state of the driver: the two counters and the lines written to
    the output stream so far.  The stream is buffered: the lines are in the
    file once the [with] block has closed it, that is when the driver has
    returned or raised. *)
Record driver_state : Type := mkState
  { count_articles : Z;
    count_lines : Z;
    out : list pystr }.

(** [out.write(json.dumps(rec, ensure_ascii=False) + "\n")] on a file
    opened with the UTF-8 encoding, which refuses lone surrogates. *)
Definition output_line (rec : record) : pystr := json_dumps rec ++ [newline].

Definition write_record (st : driver_state) (rec : record)
  : driver_state * outcome unit :=
  let line := output_line rec in
  if existsb is_surrogate line then (st, Raise UnicodeEncodeError)
  else
    (mkState (count_articles st) (count_lines st + 1) (out st ++ [line]),
     Return tt).

Fixpoint write_records (st : driver_state) (recs : list record)
  : driver_state * outcome unit :=
  match recs with
  | [] => (st, Return tt)
  | rec :: rest =>
    match write_record st rec with
    | (st', Return _) => write_records st' rest
    | (st', Raise e) => (st', Raise e)
    | (st', OutOfFuel) => (st', OutOfFuel)
    end
  end.

Definition exclusion_marker : pystr := u "[原創]".

(** An article the driver passes over: the test [marker in title] is
    true. *)
Definition excluded (article : value) : bool :=
  match article with
  | VDict d =>
    match py_contains exclusion_marker
            (dict_get d "article_title" (VStr [])) with
    | Return b => b
    | _ => false
    end
  | _ => false
  end.

(** An article on which the test [marker in title] can be made. *)
Definition title_testable (article : value) : bool :=
  match article with
  | VDict d =>
    match py_contains exclusion_marker
            (dict_get d "article_title" (VStr [])) with
    | Return _ => true
    | _ => false
    end
  | _ => false
  end.

(** A line the output file takes. *)
Definition encodable (line : pystr) : bool := negb (existsb is_surrogate line).

(** The body of the loop of [convert_to_jsonl] for one article. *)
Definition convert_article (fuel : nat) (source : pystr)
    (st : driver_state) (article : value) : driver_state * outcome unit :=
  match article with
  | VDict d =>
    let title := dict_get d "article_title" (VStr []) in
    match py_contains exclusion_marker title with
    | Return true => (st, Return tt)
    | Return false =>
      let st := mkState (count_articles st + 1) (count_lines st) (out st) in
      match to_jsonl_records fuel article source with
      | Return recs => write_records st recs
      | Raise e => (st, Raise e)
      | OutOfFuel => (st, OutOfFuel)
      end
    | Raise e => (st, Raise e)
    | OutOfFuel => (st, OutOfFuel)
    end
  | _ => (st, Raise AttributeError)
  end.

Fixpoint convert_articles (fuel : nat) (source : pystr)
    (st : driver_state) (articles : list value)
  : driver_state * outcome unit :=
  match articles with
  | [] => (st, Return tt)
  | article :: rest =>
    match convert_article fuel source st article with
    | (st', Return _) => convert_articles fuel source st' rest
    | (st', Raise e) => (st', Raise e)
    | (st', OutOfFuel) => (st', OutOfFuel)
    end
  end.

(** The state after the articles [kept] have been written with the
    records [recss]. *)
Definition advanced (st : driver_state) (kept : list value)
    (recss : list (list record)) : driver_state :=
  mkState (count_articles st + Z.of_nat (length kept))
    (count_lines st + Z.of_nat (length (concat recss)))
    (out st ++ map output_line (concat recss)).

(** [convert_to_jsonl] on the parsed input document: the lines of the
    output file, and the pair returned. *)
Definition convert_to_jsonl (fuel : nat) (data : value) (source : pystr)
  : list pystr * outcome (Z * Z) :=
  match (articles <- py_getitem_articles data ;; py_iter articles) with
  | Return articles =>
    match convert_articles fuel source (mkState 0 0 []) articles with
    | (st, Return _) =>
      (out st, Return (count_articles st, count_lines st))
    | (st, Raise e) => (out st, Raise e)
    | (st, OutOfFuel) => (out st, OutOfFuel)
    end
  | Raise e => ([], Raise e)
  | OutOfFuel => ([], OutOfFuel)
  end.

End Program.

(** ** Articles whose fields have the expected types *)

Definition is_str_or_falsy (v : value) : bool :=
  match v with
  | VStr _ => true
  | _ => negb (truthy v)
  end.

Definition is_dict (v : value) : bool :=
  match v with
  | VDict _ => true
  | _ => false
  end.

Definition is_messages_or_falsy (v : value) : bool :=
  match v with
  | VList l => forallb is_dict l
  | _ => negb (truthy v)
  end.

(** The fields the builder reads as text or walks through hold, when they
    are present, a string (body, title) or a list of mappings (replies),
    or something falsy. *)
Definition fields_well_typed (d : list (pystr * value)) : bool :=
  is_str_or_falsy (dict_get d "content" (VStr []))
  && is_messages_or_falsy (dict_get d "messages" (VList []))
  && is_str_or_falsy (dict_get d "article_title" (VStr [])).

(** The title as [chunk_with_title_prefix] sees it. *)
Definition title_text (d : list (pystr * value)) : pystr :=
  match dict_get d "article_title" (VStr []) with
  | VStr s => s
  | _ => []
  end.

(** ** An instance for examples *)

Definition hex_digit (d : N) : char :=
  if (d <? 10)%N then (ch "0" + d)%N else (ch "a" + (d - 10))%N.

(** A stand-in for the library functions, to run the definitions on
    examples: every value prints as [?], no timestamp converts, the digest
    is the data written in hexadecimal, and a record is dumped as its
    content. *)
Definition test_externals : Externals :=
  {| py_str := fun _ => u "?";
     fromtimestamp_isoformat := fun _ => None;
     sha256_hex :=
       flat_map (fun b => [hex_digit (b / 16); hex_digit (b mod 16)]%N);
     json_dumps := r_content |}.

(** ** Notions used to state the properties *)

(** The number of windows of [max_chars] characters, each starting
    [max_chars - overlap] after the one before, that it takes to reach the
    end of a text of [n] characters. *)
Definition windows_needed (n max_chars overlap : Z) : Z :=
  1 + (Z.max 0 (n - max_chars) + (max_chars - overlap) - 1)
      / (max_chars - overlap).

(** The reply text a message holds: its [push_content], the empty string
    when it has none. *)
Definition push_content_of (msg : value) : value :=
  match msg with
  | VDict d => dict_get d "push_content" (VStr [])
  | _ => VStr []
  end.

(** The body of an article as text: the [content] when it is a string,
    nothing otherwise. *)
Definition body_text (d : list (pystr * value)) : pystr :=
  match dict_get d "content" (VStr []) with
  | VStr s => s
  | _ => []
  end.

(** What walking through malformed replies raises: the elements of a
    list, a string or a mapping are asked for [get]; anything else cannot
    be walked through. *)
Definition messages_error (messages : value) : exn :=
  match messages with
  | VList _ | VStr _ | VDict _ => AttributeError
  | _ => TypeError
  end.

(** What the builder raises on an article, if anything: on an article
    that is no mapping, on malformed replies, on a body and on a title that
    is truthy but no string, looked at in the order in which the builder
    gets to them. *)
Definition builder_error (article : value) : option exn :=
  match article with
  | VDict d =>
    let messages := dict_get d "messages" (VList []) in
    if negb (is_messages_or_falsy messages)
    then Some (messages_error messages)
    else if negb (is_str_or_falsy (dict_get d "content" (VStr [])))
    then Some TypeError
    else if negb (is_str_or_falsy (dict_get d "article_title" (VStr [])))
    then Some TypeError
    else None
  | _ => Some AttributeError
  end.

(** The metadata of a record without the two fields that tell the chunks
    of an article apart. *)
Definition article_level (md : metadata) : metadata :=
  mkMetadata [] (m_source md) (m_url md) (m_board md) (m_title md)
    (m_author md) (m_created_at md) (m_tags md) 0 (m_total_chunks md)
    (m_has_media md) (m_dedupe_key md).

(** The first truthy value of a list, [default] when there is none. *)
Definition first_truthy (vs : list value) (default : value) : value :=
  match find truthy vs with
  | Some v => v
  | None => default
  end.

(** The prefix the chunks of an article carry: none without a title. *)
Definition content_prefix (title : pystr) : pystr :=
  match title with
  | [] => []
  | _ => title_prefix title
  end.

(** The number a string of ASCII digits writes. *)
Definition digits_value (s : pystr) : Z :=
  fold_left (fun acc c => 10 * acc + (Z.of_N c - Z.of_N (ch "0"))) s 0.

(** A code point that has a UTF-8 encoding: a Unicode scalar value. *)
Definition is_scalar (c : char) : bool :=
  (c <? 0x110000)%N && negb (is_surrogate c).

(** An ASCII digit. *)
Definition is_ascii_digit (c : char) : bool := ((48 <=? c) && (c <=? 57))%N.

(** The shape of [dt.isoformat()]: YYYY-MM-DDTHH:MM:SS in ASCII digits. *)
Definition iso_shaped (s : pystr) : bool :=
  match s with
  | [y1; y2; y3; y4; a; m1; m2; b; d1; d2; t; h1; h2; c; n1; n2; e; s1; s2] =>
    forallb is_ascii_digit
      [y1; y2; y3; y4; m1; m2; d1; d2; h1; h2; n1; n2; s1; s2]
    && char_eqb a (ch "-") && char_eqb b (ch "-") && char_eqb t (ch "T")
    && char_eqb c (ch ":") && char_eqb e (ch ":")
  | _ => false
  end.

(** The date and time that a text of the shape YYYY-MM-DDTHH:MM:SS
    writes, read off its six groups of digits. *)
Definition read_iso (s : pystr) : option fields :=
  match s with
  | [y1; y2; y3; y4; _; m1; m2; _; d1; d2; _; h1; h2; _; n1; n2; _; s1; s2] =>
    if iso_shaped s
    then Some (mkFields (digits_value [y1; y2; y3; y4])
                 (digits_value [m1; m2]) (digits_value [d1; d2])
                 (digits_value [h1; h2]) (digits_value [n1; n2])
                 (digits_value [s1; s2]))
    else None
  | _ => None
  end.

(** Dates written with zero padding. *)
Definition date_text (sep : char) (y m d : Z) : pystr :=
  zero_padded 4 y ++ [sep] ++ zero_padded 2 m ++ [sep] ++ zero_padded 2 d.

Definition date_time_text (sep : char) (y m d h mi : Z) : pystr :=
  date_text sep y m d ++ u " " ++ zero_padded 2 h ++ u ":"
  ++ zero_padded 2 mi.

(** The directives of the four numeric formats. *)
Definition date_directives (sep : char) : list directive :=
  [Dir (ch "Y"); Lit sep; Dir (ch "m"); Lit sep; Dir (ch "d")].

Definition date_time_directives (sep : char) : list directive :=
  date_directives sep ++ [Spaces; Dir (ch "H"); Lit (ch ":"); Dir (ch "M")].



(** A call that returns. *)
Definition returns {A : Type} (r : outcome A) : bool :=
  match r with
  | Return _ => true
  | _ => false
  end.

Section DriverNotions.
Context {ext : Externals}.

(** What makes the driver raise at an article, with the records of the
    article whose lines were written before: an article that is no mapping
    has no [get]; a title that is neither string, list nor mapping cannot
    be searched for the marker; the builder raises, before anything of the
    article is written; or a line cannot be encoded, after the lines before
    it were written. *)
Inductive stops (fuel : nat) (source : pystr) (article : value)
  : list record -> exn -> Prop :=
| stops_no_mapping :
    is_dict article = false ->
    stops fuel source article [] AttributeError
| stops_title :
    is_dict article = true -> title_testable article = false ->
    stops fuel source article [] TypeError
| stops_builder_raises (e : exn) :
    title_testable article = true -> excluded article = false ->
    to_jsonl_records fuel article source = Raise e ->
    stops fuel source article [] e
| stops_write (written : list record) (rec : record) (rest : list record) :
    title_testable article = true -> excluded article = false ->
    to_jsonl_records fuel article source = Return (written ++ rec :: rest) ->
    encodable (output_line rec) = false ->
    stops fuel source article written UnicodeEncodeError.

End DriverNotions.

(** The outcome of the driver on a document that holds no list of
    articles, when it is settled by the shape of the document alone. *)
Definition document_outcome (data : value) : option (outcome (Z * Z)) :=
  match data with
  | VDict d =>
    match lookup d (u "articles") with
    | None => Some (Raise KeyError)
    | Some (VList []) | Some (VStr []) | Some (VDict []) =>
      Some (Return (0, 0))
    | Some (VList (_ :: _)) => None
    | Some (VStr (_ :: _)) | Some (VDict (_ :: _)) =>
      Some (Raise AttributeError)
    | Some _ => Some (Raise TypeError)
    end
  | _ => Some (Raise TypeError)
  end.

(** * Properties *)

(** ** Properties of slices *)

Lemma len_nonneg (s : pystr) : 0 <= len s.
Proof. unfold len. lia. Qed.

Lemma len_app (a b : pystr) : len (a ++ b) = len a + len b.
Proof. unfold len. rewrite length_app. lia. Qed.

Lemma len_nil_iff (s : pystr) : len s = 0 <-> s = [].
Proof.
  unfold len. destruct s as [|c r]; simpl; split; intro H; try reflexivity;
    try discriminate; lia.
Qed.

Lemma slice_take_drop (s : pystr) (a b : Z) :
  0 <= a <= len s -> a <= b ->
  slice s a b = firstn (Z.to_nat (b - a)) (skipn (Z.to_nat a) s).
Proof.
  intros Ha Hab. unfold slice, clamp_index.
  destruct (Z.ltb_spec a 0) as [Hn|_]; [lia|].
  destruct (Z.ltb_spec b 0) as [Hn|_]; [lia|].
  rewrite (Z.min_l a) by lia.
  destruct (Z.le_gt_cases b (len s)) as [Hb|Hb].
  - rewrite (Z.min_l b) by lia. reflexivity.
  - rewrite (Z.min_r b) by lia.
    rewrite !firstn_all2; try reflexivity; rewrite length_skipn;
      unfold len in *; lia.
Qed.

Lemma len_slice (s : pystr) (a b : Z) :
  0 <= a <= len s -> a <= b -> len (slice s a b) = Z.min (b - a) (len s - a).
Proof.
  intros Ha Hab. rewrite slice_take_drop by assumption.
  unfold len in *. rewrite length_firstn, length_skipn. lia.
Qed.

Lemma slice_past_end (s : pystr) (a b : Z) :
  0 <= a <= len s -> len s <= b -> slice s a b = skipn (Z.to_nat a) s.
Proof.
  intros Ha Hb. rewrite slice_take_drop by lia.
  apply firstn_all2. rewrite length_skipn. unfold len in *. lia.
Qed.

Lemma slice_to_end (s : pystr) (a : Z) :
  0 <= a <= len s -> slice s a (len s) = skipn (Z.to_nat a) s.
Proof. intros Ha. apply slice_past_end; lia. Qed.

(** ** The loop of the chunker *)

Section ChunkLoop.

Variables (text : pystr) (max_chars overlap : Z).
Hypothesis max_chars_pos : 0 < max_chars.

#[local] Abbreviation windows := (windows text max_chars overlap).
#[local] Abbreviation chunk_start := (chunk_start max_chars overlap).

Lemma chunk_loop_acc (fuel : nat) :
  forall start acc,
    chunk_loop fuel text max_chars overlap start acc
    = option_map (app acc) (chunk_loop fuel text max_chars overlap start []).
Proof.
  induction fuel as [|fuel IH]; intros start acc; simpl; [reflexivity|].
  destruct (start <? len text); simpl.
  - destruct (window_end text max_chars start =? len text); simpl.
    + reflexivity.
    + rewrite IH.
      rewrite (IH _ [slice text start (window_end text max_chars start)]).
      destruct (chunk_loop fuel text max_chars overlap _ []); simpl.
      * rewrite <- app_assoc. reflexivity.
      * reflexivity.
  - rewrite app_nil_r. reflexivity.
Qed.

Lemma chunk_loop_windows (fuel : nat) :
  forall start r,
    chunk_loop fuel text max_chars overlap start [] = Some r ->
    windows start r.
Proof.
  induction fuel as [|fuel IH]; intros start r; simpl; [discriminate|].
  destruct (Z.ltb_spec start (len text)) as [Hlt|Hge].
  - unfold window_end.
    destruct (Z.eqb_spec (Z.min (start + max_chars) (len text)) (len text))
      as [He|Hne].
    + intros [= <-]. rewrite He. apply windows_last; lia.
    + rewrite chunk_loop_acc.
      destruct (chunk_loop fuel text max_chars overlap _ []) as [ws|] eqn:E;
        simpl; [|discriminate].
      intros [= <-].
      assert (Hfit : start + max_chars < len text) by lia.
      rewrite Z.min_l in * by lia.
      apply windows_step; try assumption. apply IH. exact E.
  - intros [= <-]. apply windows_done. lia.
Qed.

(** More fuel does not change a result. *)
Lemma chunk_loop_fuel_mono (fuel : nat) :
  forall fuel' start acc r,
    (fuel <= fuel')%nat ->
    chunk_loop fuel text max_chars overlap start acc = Some r ->
    chunk_loop fuel' text max_chars overlap start acc = Some r.
Proof.
  induction fuel as [|fuel IH]; intros fuel' start acc r Hle; simpl;
    [discriminate|].
  destruct fuel' as [|fuel']; [lia|]. simpl.
  destruct (start <? len text); [|trivial].
  destruct (window_end text max_chars start =? len text); [trivial|].
  apply IH. lia.
Qed.

(** When the overlap is smaller than the window, the start advances. *)
Lemma next_start_advances (start : Z) :
  overlap < max_chars -> 0 <= start ->
  window_end text max_chars start <> len text ->
  start < next_start overlap (window_end text max_chars start).
Proof. unfold next_start, window_end. lia. Qed.

Lemma chunk_loop_terminates (fuel : nat) :
  overlap < max_chars ->
  forall start,
    0 <= start -> Z.max 0 (len text - start) < Z.of_nat fuel ->
    exists r, chunk_loop fuel text max_chars overlap start [] = Some r.
Proof.
  intros Ho. induction fuel as [|fuel IH]; intros start Hs Hf; simpl.
  - lia.
  - destruct (Z.ltb_spec start (len text)) as [Hlt|Hge]; [|eauto].
    destruct (Z.eqb_spec (window_end text max_chars start) (len text))
      as [He|Hne]; [eauto|].
    rewrite chunk_loop_acc.
    pose proof (next_start_advances start Ho Hs Hne) as Hadv.
    destruct (IH (next_start overlap (window_end text max_chars start)))
      as [r Hr]; try lia.
    rewrite Hr. simpl. eauto.
Qed.

(** When the overlap is not smaller than the window and the text does not
    fit into one window, the start never advances and the loop never ends. *)
Lemma chunk_loop_diverges (fuel : nat) :
  max_chars <= overlap ->
  forall start acc,
    0 <= start -> start + max_chars < len text ->
    chunk_loop fuel text max_chars overlap start acc = None.
Proof.
  intros Ho. induction fuel as [|fuel IH]; intros start acc Hs Hlt; simpl;
    [reflexivity|].
  destruct (Z.ltb_spec start (len text)) as [_|Hge]; [|lia].
  unfold window_end. rewrite Z.min_l by lia.
  destruct (Z.eqb_spec (start + max_chars) (len text)) as [He|_]; [lia|].
  apply IH; unfold next_start; lia.
Qed.

(** A run that cut more than one window had a positive stride. *)
Lemma windows_stride (start : Z) (ws : list pystr) :
  windows start ws -> 0 <= start -> start + max_chars < len text ->
  overlap < max_chars.
Proof.
  induction 1 as [s Hge|s Hlt Hend|s ws Hlt Hend Hw IH]; intros Hs Hfit;
    try lia.
  destruct (Z.lt_ge_cases overlap max_chars) as [Ho|Ho]; [exact Ho|].
  apply IH; unfold next_start; lia.
Qed.

Lemma windows_nth (start : Z) (ws : list pystr) :
  windows start ws -> 0 <= start ->
  forall i c, nth_error ws i = Some c ->
    let s := start + chunk_start i in
    0 <= s < len text /\ c = slice text s (s + max_chars) /\
    ((S i < length ws)%nat -> s + max_chars < len text) /\
    ((0 < i)%nat -> overlap < max_chars).
Proof.
  unfold chunk_start.
  induction 1 as [s Hge|s Hlt Hend|s ws Hlt Hend Hw IH]; intros Hs i c Hi.
  - destruct i; discriminate.
  - destruct i as [|i]; [|destruct i; discriminate].
    simpl in Hi. injection Hi as <-. simpl.
    rewrite Z.add_0_r. repeat split; try lia.
    rewrite !slice_past_end by lia. reflexivity.
  - pose proof (windows_stride _ _ (windows_step _ _ _ _ _ Hlt Hend Hw) Hs Hend)
      as Ho.
    destruct i as [|i].
    + simpl in Hi. injection Hi as <-. simpl.
      rewrite Z.add_0_r. repeat split; try lia.
    + simpl in Hi.
      assert (Hn : next_start overlap (s + max_chars)
                   = s + (max_chars - overlap)) by (unfold next_start; lia).
      rewrite Hn in IH.
      destruct (IH ltac:(lia) i c Hi) as (Hr & Hc & Hmid & _).
      replace (s + Z.of_nat (S i) * (max_chars - overlap))
        with (s + (max_chars - overlap) + Z.of_nat i * (max_chars - overlap))
        by lia.
      simpl length. repeat split; try lia; try exact Hc.
Qed.

Lemma windows_nonempty (start : Z) (ws : list pystr) :
  windows start ws -> start < len text -> ws <> [].
Proof. induction 1; intros Hs; try discriminate. lia. Qed.

Lemma windows_count (start : Z) (ws : list pystr) :
  windows start ws -> 0 <= start -> overlap < max_chars ->
  Z.of_nat (length ws) <= Z.max 0 (len text - start).
Proof.
  induction 1 as [s Hge|s Hlt Hend|s ws Hlt Hend Hw IH]; intros Hs Ho;
    simpl length; try lia.
  unfold next_start in IH. lia.
Qed.

(** Gluing the windows of a run back together yields the text from the
    start of the run on. *)
Lemma windows_reassemble (start : Z) (ws : list pystr) :
  windows start ws -> 0 <= start <= len text -> 0 <= overlap ->
  reassemble overlap ws = skipn (Z.to_nat start) text.
Proof.
  induction 1 as [s Hge|s Hlt Hend|s ws Hlt Hend Hw IH]; intros Hs Ho.
  - simpl. symmetry. apply skipn_all2. unfold len in *. lia.
  - simpl. rewrite app_nil_r. apply slice_to_end. lia.
  - pose proof (windows_stride _ _ (windows_step _ _ _ _ _ Hlt Hend Hw)
                  ltac:(lia) Hend) as Hom.
    assert (Hn : next_start overlap (s + max_chars)
                 = s + max_chars - overlap) by (unfold next_start; lia).
    rewrite Hn in *.
    assert (Hd : exists d rest, ws = d :: rest /\ overlap < len d).
    { inversion Hw; subst; try lia.
      - eexists _, _. split; [reflexivity|]. rewrite len_slice; lia.
      - eexists _, _. split; [reflexivity|]. rewrite len_slice; lia. }
    destruct Hd as (d & rest & -> & Hlen).
    specialize (IH ltac:(lia) Ho). simpl in IH. simpl.
    rewrite slice_take_drop by lia.
    replace (s + max_chars - s) with max_chars by lia.
    rewrite <- (firstn_skipn (Z.to_nat max_chars) (skipn (Z.to_nat s) text))
      at 2.
    f_equal. rewrite skipn_skipn.
    replace (Z.to_nat max_chars + Z.to_nat s)%nat
      with (Z.to_nat overlap + Z.to_nat (s + max_chars - overlap))%nat by lia.
    rewrite <- skipn_skipn, <- IH.
    rewrite skipn_app.
    replace (Z.to_nat overlap - length d)%nat with 0%nat
      by (unfold len in Hlen; lia).
    reflexivity.
Qed.

End ChunkLoop.

(** ** The chunker *)

Lemma simple_chunk_text_stripped (fuel : nat) (text : pystr)
    (max_chars overlap : Z) :
  strip text <> [] -> 0 < max_chars ->
  simple_chunk_text fuel text max_chars overlap
  = chunk_loop fuel (strip text) max_chars overlap 0 [].
Proof.
  intros Hne Hm. unfold simple_chunk_text.
  destruct (strip text) as [|c r] eqn:E; [contradiction|].
  destruct (Z.leb_spec max_chars 0); [lia|reflexivity].
Qed.

Lemma chunker_run_windows (fuel : nat) (text : pystr)
    (max_chars overlap : Z) (chunks : list pystr) :
  0 < max_chars ->
  simple_chunk_text fuel text max_chars overlap = Some chunks ->
  windows (strip text) max_chars overlap 0 chunks.
Proof.
  intros Hm. unfold simple_chunk_text.
  destruct (strip text) as [|c r] eqn:E.
  - intros [= <-]. apply windows_done. unfold len. simpl. lia.
  - destruct (Z.leb_spec max_chars 0); [lia|].
    apply chunk_loop_windows.
Qed.

Lemma simple_chunk_text_enough_fuel (text : pystr) (max_chars overlap : Z) :
  0 < max_chars -> overlap < max_chars ->
  exists chunks,
    forall fuel, (length (strip text) < fuel)%nat ->
      simple_chunk_text fuel text max_chars overlap = Some chunks.
Proof.
  intros Hm Ho. unfold simple_chunk_text.
  destruct (strip text) as [|c r] eqn:E; [eauto|].
  destruct (Z.leb_spec max_chars 0); [lia|].
  destruct (chunk_loop_terminates (c :: r) max_chars overlap
              (S (length (c :: r))) Ho 0) as [chunks Hc];
    try (unfold len; lia).
  exists chunks. intros fuel Hf.
  apply (chunk_loop_fuel_mono _ _ _ (S (length (c :: r)))); [lia|exact Hc].
Qed.

(** [C1] Whenever the stripped text is not empty: with [max_chars <= 0]
    the chunker returns the whole stripped text as its only chunk; with
    [max_chars > 0] it returns when the overlap is smaller than
    [max_chars], and the chunks of any run that returns are the windows
    [text[i*(max_chars-overlap) : i*(max_chars-overlap)+max_chars]], so
    that every chunk but the last is exactly [max_chars] long, the last one
    is at most [max_chars] long, and consecutive chunks share exactly
    [overlap] characters: the last [overlap] characters of a chunk are the
    first [overlap] characters of the next, which is longer than that. *)
Theorem simple_chunk_text_windows (text : pystr) (max_chars overlap : Z) :
  strip text <> [] ->
  (max_chars <= 0 ->
   forall fuel,
     simple_chunk_text fuel text max_chars overlap = Some [strip text]) /\
  (0 < max_chars ->
   (overlap < max_chars ->
    exists chunks,
      forall fuel, (length (strip text) < fuel)%nat ->
        simple_chunk_text fuel text max_chars overlap = Some chunks) /\
   forall fuel chunks,
     simple_chunk_text fuel text max_chars overlap = Some chunks ->
     chunks <> [] /\
     (forall i c, nth_error chunks i = Some c ->
        let start := chunk_start max_chars overlap i in
        c = slice (strip text) start (start + max_chars) /\
        0 < len c <= max_chars /\
        ((S i < length chunks)%nat -> len c = max_chars)) /\
     (forall i c d,
        nth_error chunks i = Some c -> nth_error chunks (S i) = Some d ->
        chunk_start max_chars overlap (S i)
        = chunk_start max_chars overlap i + max_chars - overlap /\
        overlap < len d /\
        (0 <= overlap ->
         skipn (Z.to_nat (max_chars - overlap)) c
         = firstn (Z.to_nat overlap) d))).
Proof.
  intros Hne. split.
  - intros Hm fuel. unfold simple_chunk_text.
    destruct (strip text) as [|c r]; [contradiction|].
    destruct (Z.leb_spec max_chars 0); [reflexivity|lia].
  - intros Hm. split; [apply simple_chunk_text_enough_fuel; assumption|].
    intros fuel chunks Hrun.
    apply chunker_run_windows in Hrun; [|assumption].
    assert (Hlen : 0 < len (strip text)).
    { pose proof (len_nonneg (strip text)).
      destruct (Z.eq_dec (len (strip text)) 0) as [E|E]; [|lia].
      apply len_nil_iff in E. contradiction. }
    split; [apply (windows_nonempty _ _ _ _ _ Hrun); assumption|].
    split.
    + intros i c Hi.
      destruct (windows_nth _ _ _ Hm _ _ Hrun ltac:(lia) i c Hi)
        as (Hr & Hc & Hmid & _).
      simpl in Hr, Hc, Hmid. cbv zeta.
      split; [exact Hc|]. rewrite Hc, len_slice by lia. lia.
    + intros i c d Hi Hj.
      destruct (windows_nth _ _ _ Hm _ _ Hrun ltac:(lia) i c Hi)
        as (Hr & Hc & Hmid & _).
      destruct (windows_nth _ _ _ Hm _ _ Hrun ltac:(lia) (S i) d Hj)
        as (Hr' & Hd & _ & Ho).
      simpl in Hr, Hc, Hmid, Hr', Hd. specialize (Ho ltac:(lia)).
      assert (Hsi : (S i < length chunks)%nat).
      { apply nth_error_Some. rewrite Hj. discriminate. }
      specialize (Hmid Hsi).
      assert (Hs : chunk_start max_chars overlap (S i)
                   = chunk_start max_chars overlap i + max_chars - overlap).
      { unfold chunk_start. lia. }
      split; [exact Hs|].
      rewrite Hs in Hr', Hd.
      set (s := chunk_start max_chars overlap i) in *.
      split; [rewrite Hd, len_slice by lia; lia|].
      intros Ho0. rewrite Hc, Hd, !slice_take_drop by lia.
      rewrite skipn_firstn_comm, skipn_skipn.
      replace (Z.to_nat (s + max_chars - s)
               - Z.to_nat (max_chars - overlap))%nat
        with (Z.to_nat overlap) by lia.
      replace (Z.to_nat (max_chars - overlap) + Z.to_nat s)%nat
        with (Z.to_nat (s + max_chars - overlap)) by lia.
      rewrite firstn_firstn. f_equal. lia.
Qed.

Lemma simple_chunk_text_windows_witness :
  exists chunks,
    simple_chunk_text 4 (u " abcdefghij ") 4 1 = Some chunks /\
    chunks = [u "abcd"; u "defg"; u "ghij"] /\
    (forall i c, nth_error chunks i = Some c ->
       (S i < length chunks)%nat -> len c = 4).
Proof.
  assert (Hne : strip (u " abcdefghij ") <> []) by (vm_compute; discriminate).
  destruct (simple_chunk_text_windows (u " abcdefghij ") 4 1 Hne)
    as [_ Hpos].
  destruct (Hpos ltac:(lia)) as [_ Hrun].
  exists [u "abcd"; u "defg"; u "ghij"].
  assert (E : simple_chunk_text 4 (u " abcdefghij ") 4 1
              = Some [u "abcd"; u "defg"; u "ghij"])
    by (vm_compute; reflexivity).
  split; [exact E|]. split; [reflexivity|].
  intros i c Hi Hl. destruct (Hrun _ _ E) as (_ & Hshape & _).
  destruct (Hshape i c Hi) as (_ & _ & Hfull). exact (Hfull Hl).
Defined.

Lemma simple_chunk_text_chunk_len (fuel : nat) (text : pystr)
    (max_chars overlap : Z) (chunks : list pystr) :
  0 < max_chars ->
  simple_chunk_text fuel text max_chars overlap = Some chunks ->
  Forall (fun c => 0 < len c <= max_chars) chunks.
Proof.
  intros Hm Hrun. apply chunker_run_windows in Hrun; [|assumption].
  apply Forall_forall. intros c Hin.
  destruct (In_nth_error _ _ Hin) as [i Hi].
  destruct (windows_nth _ _ _ Hm _ _ Hrun ltac:(lia) i c Hi)
    as (Hr & Hc & _).
  simpl in Hr, Hc. rewrite Hc, len_slice by lia. lia.
Qed.

Lemma simple_chunk_text_reassemble (fuel : nat) (text : pystr)
    (max_chars overlap : Z) (chunks : list pystr) :
  0 < max_chars -> 0 <= overlap ->
  simple_chunk_text fuel text max_chars overlap = Some chunks ->
  reassemble overlap chunks = strip text.
Proof.
  intros Hm Ho Hrun. apply chunker_run_windows in Hrun; [|assumption].
  pose proof (len_nonneg (strip text)).
  rewrite (windows_reassemble _ _ _ Hm _ _ Hrun) by lia. reflexivity.
Qed.

(** [C2], as it fails: the chunker strips the text first, so the
    whitespace around the text is not in any chunk.  For the text [" a"]
    and the default parameters the only chunk is ["a"]. *)
Lemma reassemble_original_text_counterexample :
  u " a" <> [] /\
  simple_chunk_text 1 (u " a") 1600 200 = Some [u "a"] /\
  reassemble 200 [u "a"] <> u " a".
Proof. vm_compute. repeat split; discriminate. Qed.

(** [C2], amended: for [max_chars > 0] and [overlap >= 0], the chunks of
    a run that returns, put together after the first [overlap] characters
    of every chunk but the first are removed, are the stripped text; and
    the run returns when [overlap < max_chars]. *)
Theorem reassemble_stripped_text (text : pystr) (max_chars overlap : Z) :
  0 < max_chars -> 0 <= overlap ->
  (overlap < max_chars ->
   exists chunks,
     forall fuel, (length (strip text) < fuel)%nat ->
       simple_chunk_text fuel text max_chars overlap = Some chunks) /\
  (forall fuel chunks,
     simple_chunk_text fuel text max_chars overlap = Some chunks ->
     reassemble overlap chunks = strip text).
Proof.
  intros Hm Ho. split.
  - intros Hlt. apply simple_chunk_text_enough_fuel; assumption.
  - intros fuel chunks. apply simple_chunk_text_reassemble; assumption.
Qed.

Lemma reassemble_stripped_text_witness :
  reassemble 1 [u "abcd"; u "defg"; u "ghij"] = strip (u " abcdefghij ").
Proof.
  destruct (reassemble_stripped_text (u " abcdefghij ") 4 1
              ltac:(lia) ltac:(lia)) as [_ Hrun].
  apply (Hrun 4%nat). vm_compute. reflexivity.
Defined.

(** [C10] For [max_chars > 0] and [0 <= overlap < max_chars] every pass
    of the loop that does not leave it moves the start of the window
    forward, and the chunker returns: with more fuel than the stripped
    text has characters the result is the same list of chunks, which has
    at most as many chunks as the stripped text has characters. *)
Theorem simple_chunk_text_terminates (text : pystr) (max_chars overlap : Z) :
  0 < max_chars -> 0 <= overlap < max_chars ->
  (forall start,
     0 <= start ->
     window_end (strip text) max_chars start <> len (strip text) ->
     start < next_start overlap (window_end (strip text) max_chars start)) /\
  exists chunks,
    (forall fuel, (length (strip text) < fuel)%nat ->
       simple_chunk_text fuel text max_chars overlap = Some chunks) /\
    (length chunks <= length (strip text))%nat.
Proof.
  intros Hm Ho. split.
  - intros start Hs Hne. apply next_start_advances; [lia|assumption..].
  - destruct (simple_chunk_text_enough_fuel text max_chars overlap Hm)
      as [chunks Hc]; [lia|].
    exists chunks. split; [exact Hc|].
    specialize (Hc (S (length (strip text))) ltac:(lia)).
    apply chunker_run_windows in Hc; [|assumption].
    pose proof (windows_count _ _ _ Hm _ _ Hc ltac:(lia) ltac:(lia)) as Hn.
    unfold len in Hn. lia.
Qed.

Lemma simple_chunk_text_terminates_witness :
  exists chunks,
    (forall fuel, (length (strip (repeat (ch "a") 1800)) < fuel)%nat ->
       simple_chunk_text fuel (repeat (ch "a") 1800) 1600 200 = Some chunks) /\
    (length chunks <= length (strip (repeat (ch "a") 1800)))%nat.
Proof.
  exact (proj2 (simple_chunk_text_terminates (repeat (ch "a") 1800) 1600 200
                  ltac:(lia) ltac:(lia))).
Defined.

(** With an overlap that is not smaller than [max_chars], the chunker does
    not return on a text longer than [max_chars]. *)
Lemma simple_chunk_text_diverges (text : pystr) (max_chars overlap : Z) :
  0 < max_chars -> max_chars <= overlap -> max_chars < len (strip text) ->
  forall fuel, simple_chunk_text fuel text max_chars overlap = None.
Proof.
  intros Hm Ho Hl fuel. unfold simple_chunk_text.
  destruct (strip text) as [|c r] eqn:E; [unfold len in Hl; simpl in Hl; lia|].
  destruct (Z.leb_spec max_chars 0); [lia|].
  apply chunk_loop_diverges; lia.
Qed.

(** So does the prefixed variant when the title leaves a limit that is
    positive but not above the overlap. *)
Lemma chunk_with_title_prefix_diverges (text title : pystr)
    (max_chars overlap : Z) :
  title <> [] ->
  0 < max_chars - len (title_prefix title) <= overlap ->
  max_chars - len (title_prefix title) < len (strip text) ->
  forall fuel,
    chunk_with_title_prefix fuel text title max_chars overlap = None.
Proof.
  intros Hne Hadj Hl fuel. unfold chunk_with_title_prefix.
  destruct (simple_chunk_text fuel text max_chars overlap); [|reflexivity].
  destruct title as [|c r] eqn:E; [contradiction|]. rewrite <- E in *.
  rewrite simple_chunk_text_diverges; [reflexivity|lia..].
Qed.

Lemma len_title_prefix (title : pystr) :
  len (title_prefix title) = len title + 7.
Proof.
  unfold title_prefix. rewrite !len_app.
  change (len (u "標題: ")) with 4. change (len (u " | ")) with 3. lia.
Qed.

(** [C3] With an empty title the result is that of the chunker on the same
    arguments.  With a title, the prefix is [len(title) + 7] characters
    long, the chunker is run again with [max_chars] reduced by that length,
    and the result is its chunks with the prefix put before each; when the
    reduced limit is positive no chunk returned is longer than [max_chars],
    and the call returns when the overlap is smaller than the reduced
    limit. *)
Theorem chunk_with_title_prefix_budget (fuel : nat) (text title : pystr)
    (max_chars overlap : Z) :
  (title = [] ->
   chunk_with_title_prefix fuel text title max_chars overlap
   = simple_chunk_text fuel text max_chars overlap) /\
  (title <> [] ->
   let prefix := title_prefix title in
   let adjusted_max_chars := max_chars - len prefix in
   prefix = u "標題: " ++ title ++ u " | " /\
   chunk_with_title_prefix fuel text title max_chars overlap
   = match simple_chunk_text fuel text max_chars overlap with
     | None => None
     | Some _ =>
       option_map (map (app prefix))
         (simple_chunk_text fuel text adjusted_max_chars overlap)
     end /\
   (0 < adjusted_max_chars ->
    forall result,
      chunk_with_title_prefix fuel text title max_chars overlap
      = Some result ->
      Forall (fun chunk => len chunk <= max_chars) result) /\
   (0 < adjusted_max_chars -> overlap < adjusted_max_chars ->
    (length (strip text) < fuel)%nat ->
    exists result,
      chunk_with_title_prefix fuel text title max_chars overlap
      = Some result)).
Proof.
  split.
  - intros ->. unfold chunk_with_title_prefix.
    destruct (simple_chunk_text fuel text max_chars overlap); reflexivity.
  - intros Hne. cbv zeta.
    assert (Heq : chunk_with_title_prefix fuel text title max_chars overlap
      = match simple_chunk_text fuel text max_chars overlap with
        | None => None
        | Some _ =>
          option_map (map (app (title_prefix title)))
            (simple_chunk_text fuel text
               (max_chars - len (title_prefix title)) overlap)
        end).
    { unfold chunk_with_title_prefix.
      destruct (simple_chunk_text fuel text max_chars overlap);
        [|reflexivity].
      destruct title as [|c r]; [contradiction|].
      destruct (simple_chunk_text fuel text _ overlap); reflexivity. }
    split; [reflexivity|]. split; [exact Heq|]. split.
    + intros Hadj result. rewrite Heq.
      set (prefix := title_prefix title) in *. clearbody prefix.
      destruct (simple_chunk_text fuel text max_chars overlap);
        [|discriminate].
      destruct (simple_chunk_text fuel text _ overlap) as [adj|] eqn:E;
        [|discriminate].
      intros [= <-].
      apply simple_chunk_text_chunk_len in E; [|assumption].
      apply Forall_map. revert E. apply Forall_impl.
      intros c Hc. cbv beta. rewrite len_app. lia.
    + intros Hadj Ho Hf. rewrite Heq.
      pose proof (len_nonneg (title_prefix title)).
      destruct (simple_chunk_text_enough_fuel text max_chars overlap)
        as [chunks Hc]; try lia.
      destruct (simple_chunk_text_enough_fuel text
                  (max_chars - len (title_prefix title)) overlap)
        as [adj Ha]; try lia.
      rewrite (Hc fuel Hf), (Ha fuel Hf). simpl. eauto.
Qed.

Lemma chunk_with_title_prefix_budget_witness :
  Forall (fun chunk => len chunk <= 12)
    [u "標題: T | abcd"; u "標題: T | defg"].
Proof.
  destruct (chunk_with_title_prefix_budget 3 (u "abcdefg") (u "T") 12 1)
    as [_ Htitle].
  destruct (Htitle ltac:(discriminate)) as (_ & _ & Hlen & _).
  apply Hlen; [vm_compute; reflexivity|]. vm_compute. reflexivity.
Defined.

(** ** Dates *)

Lemma try_formats_first (s : pystr) (fmts : list pystr) :
  forall tried fmt rest dt,
    fmts = tried ++ fmt :: rest ->
    Forall (fun f => strptime s f = None) tried ->
    strptime s fmt = Some dt ->
    try_formats s fmts = isoformat dt.
Proof.
  intros tried. revert fmts.
  induction tried as [|f tried IH]; intros fmts fmt rest dt -> Hnone Hok;
    simpl.
  - rewrite Hok. reflexivity.
  - inversion Hnone as [|? ? Hf Ht]; subst. rewrite Hf.
    apply (IH _ fmt rest dt eq_refl Ht Hok).
Qed.

Lemma try_formats_none (s : pystr) (fmts : list pystr) :
  Forall (fun f => strptime s f = None) fmts -> try_formats s fmts = s.
Proof.
  induction 1 as [|f fmts Hf _ IH]; simpl; [reflexivity|].
  rewrite Hf. exact IH.
Qed.

Lemma digit_char_value (k : Z) :
  0 <= k <= 9 -> Z.of_N (digit_char k) - Z.of_N (ch "0") = k.
Proof.
  intros Hk. unfold digit_char. change (ch "0") with 48%N. lia.
Qed.

Lemma digit_char_range (k : Z) :
  0 <= k <= 9 -> (48 <= digit_char k <= 57)%N.
Proof.
  intros Hk. unfold digit_char. change (ch "0") with 48%N. lia.
Qed.

Lemma is_ascii_digit_digit_char (n : Z) :
  is_ascii_digit (digit_char (n mod 10)) = true.
Proof.
  pose proof (Z.mod_pos_bound n 10 ltac:(lia)) as H.
  unfold is_ascii_digit, digit_char. change (ch "0") with 48%N.
  apply andb_true_iff. split; [apply N.leb_le|apply N.leb_le]; lia.
Qed.

Lemma isoformat_shaped (f : fields) : iso_shaped (isoformat f) = true.
Proof.
  unfold isoformat. cbn [zero_padded app].
  change (u "-") with [45%N]. change (u "T") with [84%N].
  change (u ":") with [58%N]. cbn [app iso_shaped forallb].
  rewrite !is_ascii_digit_digit_char. reflexivity.
Qed.

Lemma strptime_valid (s format : pystr) (dt : fields) :
  strptime s format = Some dt -> valid_datetime dt = true.
Proof.
  unfold strptime.
  destruct (match_format _ default_fields s) as [|[f [|c r]] l];
    try discriminate.
  destruct (valid_datetime f) eqn:E; [|discriminate].
  intros [= <-]. exact E.
Qed.

#[local] Ltac Zify.zify_post_hook ::= Z.to_euclidean_division_equations.

Lemma digits_value_padded4 (n : Z) :
  0 <= n <= 9999 -> digits_value (zero_padded 4 n) = n.
Proof.
  intros Hn. cbn [zero_padded app]. unfold digits_value. cbn [fold_left].
  rewrite !digit_char_value by lia. lia.
Qed.

Lemma digits_value_padded2 (n : Z) :
  0 <= n <= 99 -> digits_value (zero_padded 2 n) = n.
Proof.
  intros Hn. cbn [zero_padded app]. unfold digits_value. cbn [fold_left].
  rewrite !digit_char_value by lia. lia.
Qed.

#[local] Ltac Zify.zify_post_hook ::= idtac.

Lemma valid_datetime_bounds (dt : fields) :
  valid_datetime dt = true ->
  1 <= year dt <= 9999 /\ 1 <= month dt <= 12 /\ 1 <= day dt <= 31
  /\ 0 <= hour dt <= 23 /\ 0 <= minute dt <= 59 /\ 0 <= second dt <= 59.
Proof.
  unfold valid_datetime. intros H.
  repeat match goal with
         | E : (_ && _)%bool = true |- _ =>
           apply andb_true_iff in E as [? ?]
         end.
  repeat match goal with
         | E : (_ <=? _) = true |- _ => apply Z.leb_le in E
         end.
  assert (days_in_month (year dt) (month dt) <= 31).
  { unfold days_in_month.
    repeat match goal with
           | |- context [if ?b then _ else _] => destruct b
           end; lia. }
  lia.
Qed.

Lemma read_iso_isoformat (dt : fields) :
  valid_datetime dt = true -> read_iso (isoformat dt) = Some dt.
Proof.
  intros Hv. pose proof (isoformat_shaped dt) as Hs.
  destruct (valid_datetime_bounds dt Hv) as (Hy & Hm & Hd & Hh & Hn & Hsec).
  pose proof (digits_value_padded4 (year dt) ltac:(lia)) as Ey.
  pose proof (digits_value_padded2 (month dt) ltac:(lia)) as Em.
  pose proof (digits_value_padded2 (day dt) ltac:(lia)) as Ed.
  pose proof (digits_value_padded2 (hour dt) ltac:(lia)) as Eh.
  pose proof (digits_value_padded2 (minute dt) ltac:(lia)) as En.
  pose proof (digits_value_padded2 (second dt) ltac:(lia)) as Es.
  unfold isoformat in *. cbn [zero_padded app] in *.
  change (u "-") with [45%N] in *. change (u "T") with [84%N] in *.
  change (u ":") with [58%N] in *. cbn [app read_iso] in *.
  rewrite Hs, Ey, Em, Ed, Eh, En, Es. destruct dt. reflexivity.
Qed.

Section Normalisers.

Context {ext : Externals}.

(** [C7] A falsy date, [None] for an absent one included, gives the empty
    string.  A string is tried against the five formats in their order:
    the first format that parses it decides, and the result is that date
    in ISO 8601: what [isoformat] makes of it, a text of the shape
    YYYY-MM-DDTHH:MM:SS whose six groups of digits write the year, month,
    day, hour, minute and second that were parsed; when no format parses
    it, the string itself is returned.  The two examples come out as
    stated. *)
Theorem normalize_datetime_first_match :
  (forall dt_value, truthy dt_value = false ->
     normalize_datetime dt_value = []) /\
  candidates
  = map u ["%Y/%m/%d %H:%M"; "%Y-%m-%d %H:%M"; "%Y/%m/%d"; "%Y-%m-%d";
           "%a %b %d %H:%M:%S %Y"]%string /\
  (forall s, s <> [] ->
     (forall tried fmt rest dt,
        candidates = tried ++ fmt :: rest ->
        Forall (fun f => strptime s f = None) tried ->
        strptime s fmt = Some dt ->
        normalize_datetime (VStr s) = isoformat dt /\
        read_iso (normalize_datetime (VStr s)) = Some dt) /\
     (Forall (fun f => strptime s f = None) candidates ->
      normalize_datetime (VStr s) = s)) /\
  normalize_datetime (VStr (u "2024/01/05 10:30")) = u "2024-01-05T10:30:00" /\
  normalize_datetime (VStr (u "昨天")) = u "昨天".
Proof.
  split; [|split; [reflexivity|split; [|split; reflexivity]]].
  - intros v Hv. unfold normalize_datetime. rewrite Hv. reflexivity.
  - intros s Hs.
    assert (E : normalize_datetime (VStr s) = try_formats s candidates).
    { unfold normalize_datetime. destruct s; [contradiction|reflexivity]. }
    rewrite E. split.
    + intros tried fmt rest dt Hc Hnone Hok.
      rewrite (try_formats_first _ _ _ _ _ _ Hc Hnone Hok).
      split; [reflexivity|].
      apply read_iso_isoformat, (strptime_valid _ _ _ Hok).
    + apply try_formats_none.
Qed.

End Normalisers.

Lemma normalize_datetime_first_match_witness :
  normalize_datetime (ext := test_externals) VNone = [] /\
  normalize_datetime (ext := test_externals) (VStr (u "2024-01-05"))
  = u "2024-01-05T00:00:00" /\
  read_iso (normalize_datetime (ext := test_externals)
              (VStr (u "2024-01-05")))
  = Some (mkFields 2024 1 5 0 0 0).
Proof.
  destruct (normalize_datetime_first_match (ext := test_externals))
    as (Hfalsy & _ & Hstr & _).
  split; [apply Hfalsy; reflexivity|].
  destruct (Hstr (u "2024-01-05") ltac:(discriminate)) as [Hfirst _].
  apply (Hfirst (map u ["%Y/%m/%d %H:%M"; "%Y-%m-%d %H:%M"; "%Y/%m/%d"]%string)
           (u "%Y-%m-%d") [u "%a %b %d %H:%M:%S %Y"]
           (mkFields 2024 1 5 0 0 0)).
  - reflexivity.
  - repeat constructor.
  - vm_compute. reflexivity.
Defined.

(** ** Title tags *)

Lemma lazy_group_sound (s : pystr) :
  forall g rest,
    lazy_group s = Some (g, rest) ->
    s = g ++ ch "]" :: rest /\ g <> [] /\ ~ In newline g
    /\ ~ In (ch "]") (tl g).
Proof.
  induction s as [|c r IH]; intros g rest; simpl; [discriminate|].
  destruct (char_eqb c newline) eqn:Hc; [discriminate|].
  apply N.eqb_neq in Hc.
  destruct r as [|d r']; [discriminate|].
  destruct (char_eqb d (ch "]")) eqn:Hd.
  - apply N.eqb_eq in Hd. intros [= <- <-]. subst d.
    repeat split; try discriminate; simpl; intuition congruence.
  - apply N.eqb_neq in Hd.
    destruct (lazy_group (d :: r')) as [[g' rest']|] eqn:E; [|discriminate].
    intros [= <- <-].
    destruct (IH g' rest' eq_refl) as (Hs & Hne & Hnl & Hcl).
    rewrite Hs. repeat split; try discriminate.
    + simpl. intros [H|H]; [congruence|contradiction].
    + simpl. destruct g' as [|x g'']; [contradiction|].
      simpl in Hs. injection Hs as -> _.
      simpl in Hcl. simpl. intros [H|H]; [congruence|contradiction].
Qed.

Lemma findall_brackets_skip (s : pystr) :
  forall skip,
    findall_brackets skip s = findall_brackets 0 (skipn skip s).
Proof.
  induction s as [|c r IH]; intros [|k]; try reflexivity.
  simpl skipn. rewrite <- IH. reflexivity.
Qed.

Lemma lazy_group_complete (g : pystr) :
  forall s after,
    s = g ++ ch "]" :: after -> g <> [] -> ~ In newline g ->
    lazy_group s <> None.
Proof.
  induction g as [|c g IH]; intros s after -> Hne Hnl; [contradiction|].
  simpl. destruct (char_eqb c newline) eqn:Hc.
  - apply N.eqb_eq in Hc. exfalso. apply Hnl. left. congruence.
  - destruct g as [|d g'].
    + simpl. discriminate.
    + cbn [app]. destruct (char_eqb d (ch "]")); [discriminate|].
      assert (Hrec : lazy_group ((d :: g') ++ ch "]" :: after) <> None).
      { apply (IH _ after eq_refl); [discriminate|].
        intros H. apply Hnl. right. exact H. }
      cbn [app] in Hrec.
      destruct (lazy_group (d :: g' ++ ch "]" :: after)) as [[g1 r1]|];
        [discriminate|contradiction].
Qed.

Lemma bracketed_later (c : char) (s : pystr) (gs : list pystr) :
  ~ group_behind (c :: s) [] -> bracketed s gs -> bracketed (c :: s) gs.
Proof.
  intros Hfirst H.
  inversion H as [s' Hnone|before g after gs' Hne Hnl Hcl Hleft Hrest]; subst.
  - constructor. intros [|b before] Hg; [exact (Hfirst Hg)|].
    destruct Hg as (g & after & Hs & Hne & Hnl).
    injection Hs as <- Hs. apply (Hnone before). exists g, after. auto.
  - apply (bracketed_cons (c :: before)); try assumption.
    intros [|b before'] Hg; [contradiction (Hfirst Hg)|].
    destruct Hg as (g' & after' & Hs & Hne' & Hnl').
    injection Hs as <- Hs. simpl.
    apply le_n_S, Hleft. exists g', after'. auto.
Qed.

Lemma findall_brackets_bracketed (n : nat) :
  forall s, (length s <= n)%nat -> bracketed s (findall_brackets 0 s).
Proof.
  induction n as [|n IH]; intros s Hn.
  - destruct s; [|simpl in Hn; lia].
    constructor. intros before (g & after & Hs & _).
    destruct before; discriminate.
  - destruct s as [|c r].
    { constructor. intros before (g & after & Hs & _).
      destruct before; discriminate. }
    simpl in Hn. simpl.
    destruct (char_eqb c (ch "[")) eqn:Hc.
    + apply N.eqb_eq in Hc. subst c.
      destruct (lazy_group r) as [[g rest]|] eqn:E.
      * destruct (lazy_group_sound _ _ _ E) as (Hs & Hne & Hnl & Hcl).
        rewrite findall_brackets_skip. subst r.
        replace (skipn (S (length g)) (g ++ ch "]" :: rest)) with rest.
        -- apply (bracketed_cons []); try assumption.
           ++ intros before' _. simpl. lia.
           ++ apply IH. rewrite length_app in Hn. simpl in Hn. lia.
        -- rewrite skipn_app, skipn_all2 by lia.
           replace (S (length g) - length g)%nat with 1%nat by lia.
           reflexivity.
      * apply bracketed_later; [|apply IH; lia].
        intros (g & after & Hs & Hne & Hnl). injection Hs as Hs.
        exact (lazy_group_complete g r after Hs Hne Hnl E).
    + apply bracketed_later; [|apply IH; lia].
      intros (g & after & Hs & _). injection Hs as Hs _.
      apply N.eqb_neq in Hc. congruence.
Qed.

Lemma lazy_group_exact (g : pystr) :
  forall after,
    g <> [] -> ~ In newline g -> ~ In (ch "]") (tl g) ->
    lazy_group (g ++ ch "]" :: after) = Some (g, after).
Proof.
  induction g as [|c g IH]; intros after Hne Hnl Hcl; [contradiction|].
  simpl. destruct (char_eqb c newline) eqn:Hc.
  { apply N.eqb_eq in Hc. exfalso. apply Hnl. left. congruence. }
  destruct g as [|d g']; [reflexivity|]. cbn [app].
  destruct (char_eqb d (ch "]")) eqn:Hd.
  { apply N.eqb_eq in Hd. exfalso. apply Hcl. left. congruence. }
  cbn [app] in IH. rewrite IH; [reflexivity|discriminate| |].
  - intros H. apply Hnl. right. exact H.
  - simpl. intros H. apply Hcl. right. exact H.
Qed.

Lemma app_inj_length {A : Type} (a c : list A) :
  forall b d, length a = length c -> a ++ b = c ++ d -> a = c /\ b = d.
Proof.
  revert c. induction a as [|x a IH]; intros [|y c] b d Hl H;
    try discriminate; [auto|].
  injection H as -> H. injection Hl as Hl.
  destruct (IH c b d Hl H) as [-> ->]. auto.
Qed.

Lemma bracketed_cons_inv (s g : pystr) (gs : list pystr) :
  bracketed s (g :: gs) ->
  exists before after,
    s = before ++ ch "[" :: g ++ ch "]" :: after /\
    g <> [] /\ ~ In newline g /\ ~ In (ch "]") (tl g) /\
    (forall before', group_behind s before' ->
                     (length before <= length before')%nat) /\
    bracketed after gs.
Proof.
  intros H. inversion H; subst. eexists _, _. repeat split; eauto.
Qed.

Lemma bracketed_nil_inv (s : pystr) :
  bracketed s [] -> forall before, ~ group_behind s before.
Proof. intros H. inversion H; subst. assumption. Qed.

(** The specification determines the groups. *)
Lemma bracketed_unique (n : nat) :
  forall s gs1 gs2,
    (length s <= n)%nat -> bracketed s gs1 -> bracketed s gs2 -> gs1 = gs2.
Proof.
  induction n as [|n IH]; intros s gs1 gs2 Hn H1 H2.
  - destruct s; [|simpl in Hn; lia].
    destruct gs1 as [|g1 gs1].
    + destruct gs2 as [|g2 gs2]; [reflexivity|].
      apply bracketed_cons_inv in H2 as (b & a & Hs & _).
      destruct b; discriminate.
    + apply bracketed_cons_inv in H1 as (b & a & Hs & _).
      destruct b; discriminate.
  - destruct gs1 as [|g1 gs1], gs2 as [|g2 gs2]; [reflexivity| | |].
    + apply bracketed_cons_inv in H2 as (b & a & Hs & Hne & Hnl & _).
      exfalso. apply (bracketed_nil_inv _ H1 b). exists g2, a. auto.
    + apply bracketed_cons_inv in H1 as (b & a & Hs & Hne & Hnl & _).
      exfalso. apply (bracketed_nil_inv _ H2 b). exists g1, a. auto.
    + apply bracketed_cons_inv in H1
        as (b1 & a1 & Hs1 & Hne1 & Hnl1 & Hcl1 & Hleft1 & Hrest1).
      apply bracketed_cons_inv in H2
        as (b2 & a2 & Hs2 & Hne2 & Hnl2 & Hcl2 & Hleft2 & Hrest2).
      assert (Hlen : length b1 = length b2).
      { apply Nat.le_antisymm.
        - apply Hleft1. exists g2, a2. auto.
        - apply Hleft2. exists g1, a1. auto. }
      assert (Hs : b1 ++ ch "[" :: g1 ++ ch "]" :: a1
                   = b2 ++ ch "[" :: g2 ++ ch "]" :: a2) by congruence.
      apply app_inj_length in Hs as [_ Hs]; [|exact Hlen].
      injection Hs as Hs.
      pose proof (lazy_group_exact g1 a1 Hne1 Hnl1 Hcl1) as E1.
      pose proof (lazy_group_exact g2 a2 Hne2 Hnl2 Hcl2) as E2.
      rewrite Hs, E2 in E1. injection E1 as -> ->.
      f_equal. apply (IH a1); try assumption.
      subst s. rewrite length_app in Hn. simpl in Hn.
      rewrite length_app in Hn. simpl in Hn. lia.
Qed.

Lemma findall_brackets_no_bracket (s : pystr) :
  ~ In (ch "[") s -> forall skip, findall_brackets skip s = [].
Proof.
  induction s as [|c r IH]; intros Hno skip; [reflexivity|].
  simpl. destruct skip as [|k].
  - destruct (char_eqb c (ch "[")) eqn:Hc.
    + apply N.eqb_eq in Hc. exfalso. apply Hno. left. congruence.
    + apply IH. intros H. apply Hno. right. exact H.
  - apply IH. intros H. apply Hno. right. exact H.
Qed.

Lemma title_tags_findall (title : pystr) :
  title_tags title
  = map strip (filter (fun t => nonempty (strip t))
                 (findall_brackets 0 title)).
Proof. destruct title; reflexivity. Qed.

(** [C8], as it fails: a bracketed segment of whitespace only is dropped,
    it does not come back as an empty tag.  The title ["[ ]"] has the
    bracketed segment [" "] and no tags. *)
Lemma extract_title_tags_blank_counterexample :
  findall_brackets 0 (u "[ ]") = [u " "] /\
  extract_title_tags (VStr (u "[ ]")) = Return [] /\
  extract_title_tags (VStr (u "[ ]"))
  <> Return (map strip (findall_brackets 0 (u "[ ]"))).
Proof. vm_compute. repeat split; discriminate. Qed.

(** [C8], amended: the tags of a title are its bracketed segments, each
    stripped of the whitespace around it, without those that are empty
    after stripping, in the order in which they stand in the title.  The
    segments are those of the lazy pattern: found from left to right, the
    leftmost possible one first, each ending at the first closing bracket
    behind its first character, and they are determined by that.  A title
    without an opening bracket has no tags; the three examples come out as
    stated. *)
Theorem extract_title_tags_segments (title : pystr) :
  extract_title_tags (VStr title)
  = Return (map strip (filter (fun t => nonempty (strip t))
                         (findall_brackets 0 title))) /\
  bracketed title (findall_brackets 0 title) /\
  (forall groups, bracketed title groups ->
                  groups = findall_brackets 0 title) /\
  (~ In (ch "[") title -> extract_title_tags (VStr title) = Return []) /\
  extract_title_tags (VStr (u "[情報] 測試")) = Return [u "情報"] /\
  extract_title_tags (VStr (u "[情報][閒聊] X")) = Return [u "情報"; u "閒聊"] /\
  extract_title_tags (VStr (u "無標籤")) = Return [].
Proof.
  assert (E : extract_title_tags (VStr title) = Return (title_tags title)).
  { unfold extract_title_tags. destruct title; reflexivity. }
  assert (Hb : bracketed title (findall_brackets 0 title))
    by (apply (findall_brackets_bracketed (length title)); lia).
  split; [rewrite E, title_tags_findall; reflexivity|].
  split; [exact Hb|].
  split; [intros groups Hg;
          apply (bracketed_unique (length title) title); auto|].
  split; [|repeat split; reflexivity].
  intros Hno. rewrite E, title_tags_findall.
  rewrite findall_brackets_no_bracket by assumption. reflexivity.
Qed.

Lemma extract_title_tags_segments_witness :
  extract_title_tags (VStr (u "no tag here")) = Return [].
Proof.
  destruct (extract_title_tags_segments (u "no tag here"))
    as (_ & _ & _ & Hno & _).
  apply Hno. vm_compute. intuition discriminate.
Defined.

(** ** The record builder *)

Lemma chunk_with_title_prefix_returns (fuel : nat) (text title : pystr) :
  len title < 1393 -> (length (strip text) < fuel)%nat ->
  exists chunks,
    chunk_with_title_prefix fuel text title 1600 200 = Some chunks.
Proof.
  intros Ht Hf. unfold chunk_with_title_prefix.
  destruct (simple_chunk_text_enough_fuel text 1600 200) as [cs Hcs];
    try lia.
  rewrite (Hcs fuel Hf).
  destruct title as [|c r] eqn:E; [eauto|]. rewrite <- E in *.
  pose proof (len_title_prefix title) as Hp.
  destruct (simple_chunk_text_enough_fuel text
              (1600 - len (title_prefix title)) 200) as [adj Ha]; try lia.
  rewrite (Ha fuel Hf). eauto.
Qed.

Lemma chunk_with_title_prefix_empty_text (fuel : nat) (title : pystr)
    (max_chars overlap : Z) :
  chunk_with_title_prefix fuel [] title max_chars overlap = Some [].
Proof. destruct title; reflexivity. Qed.

Lemma enumerate_fst {A : Type} (l : list A) :
  map fst (enumerate l) = seq 0 (length l).
Proof.
  unfold enumerate. generalize 0%nat.
  induction l as [|x l IH]; intros n; simpl; [reflexivity|].
  rewrite IH. reflexivity.
Qed.

Lemma enumerate_length {A : Type} (l : list A) :
  length (enumerate l) = length l.
Proof.
  unfold enumerate. rewrite length_combine, length_seq. lia.
Qed.

Section Builder.

Context {ext : Externals}.

(** What a call of the builder that returns has gone through. *)
Lemma to_jsonl_records_inv (fuel : nat) (article : value) (source : pystr)
    (recs : list record) :
  to_jsonl_records fuel article source = Return recs ->
  exists d content tags chunks article_id created_at,
    article = VDict d /\
    clean_article_with_comments article = Return content /\
    extract_title_tags (dict_get d "article_title" (VStr [])) = Return tags /\
    chunk_with_title_prefix fuel content
      (match dict_get d "article_title" (VStr []) with
       | VStr s => s
       | _ => []
       end) 1600 200 = Some chunks /\
    article_id
    = py_or (dict_get d "id" VNone)
        (py_or (dict_get d "aid" VNone)
           (py_or (dict_get d "article_id" VNone)
              (py_or (dict_get d "_id" VNone) (VStr [])))) /\
    created_at
    = normalize_datetime
        (py_or (dict_get d "date" VNone)
           (py_or (dict_get d "created_at" VNone) (dict_get d "time" VNone)))
    /\
    recs
    = map (fun ic =>
             make_record source article_id (dict_get d "url" (VStr []))
               (dict_get d "board" (dict_get d "board_name" (VStr [])))
               (dict_get d "author" (VStr [])) created_at
               (dict_get d "article_title" (VStr [])) tags
               (truthy (dict_get d "has_media" (VBool false)))
               (u "sha256:" ++ sha256_hexdigest content)
               (match chunks with
                | [] => 1
                | _ => Z.of_nat (length chunks)
                end)
               (fst ic) (snd ic))
        (enumerate (match chunks with [] => [[]] | _ => chunks end)).
Proof.
  unfold to_jsonl_records.
  destruct article as [| | | | |l|d]; try discriminate.
  destruct (clean_article_with_comments (VDict d)) as [content|e|] eqn:Ec;
    try discriminate. simpl bind.
  destruct (extract_title_tags (dict_get d "article_title" (VStr [])))
    as [tags|e|] eqn:Et; try discriminate. simpl bind.
  destruct (chunk_with_title_prefix fuel content _ 1600 200)
    as [chunks|] eqn:Ek; try discriminate. simpl bind.
  intros [= <-].
  exists d, content, tags, chunks. eexists _, _.
  repeat split; try reflexivity; assumption.
Qed.

Lemma extract_push_content_falsy (messages : value) :
  truthy messages = false -> extract_push_content messages = Return [].
Proof. intros H. unfold extract_push_content. rewrite H. reflexivity. Qed.

Lemma clean_article_empty (d : list (pystr * value)) :
  truthy (dict_get d "content" (VStr [])) = false ->
  truthy (dict_get d "messages" (VList [])) = false ->
  clean_article_with_comments (VDict d) = Return [].
Proof.
  intros Hc Hm. unfold clean_article_with_comments.
  rewrite (extract_push_content_falsy _ Hm). simpl bind.
  rewrite Hc. reflexivity.
Qed.

Lemma extract_title_tags_ok (title : value) :
  truthy title = false \/ (exists s, title = VStr s) ->
  exists tags, extract_title_tags title = Return tags.
Proof.
  intros [H|[s ->]]; unfold extract_title_tags.
  - rewrite H. simpl. eauto.
  - destruct (negb (truthy (VStr s))); eauto.
Qed.

(** [C4], as it fails: an article with a title, an empty body and no
    replies yields one record whose content is empty, not the title
    prefix: the prefix is put before each chunk, and there is no chunk. *)
Lemma to_jsonl_records_titled_empty_counterexample :
  exists r,
    to_jsonl_records (ext := test_externals) 1
      (VDict [(u "article_title", VStr (u "T"))]) (u "PTT")
    = Return [r] /\
    r_content r = [] /\
    r_content r <> title_prefix (u "T").
Proof. eexists. vm_compute. repeat split. discriminate. Qed.

(** [C4], amended: the records of an article are at least one; their
    chunk indices are 0, 1, 2, ... in the order in which they are yielded;
    the [total_chunks] of each is the number of the records.  On an
    article with an empty (or absent) body and no (or absent) replies the
    title decides: when it is a string or falsy, the builder yields
    exactly one record, of index 0 and with [total_chunks] 1, whose content
    is empty, also when there is a title, and so is the title prefix of no
    title; when it is truthy and no string, the builder raises
    [TypeError] and yields nothing. *)
Theorem to_jsonl_records_chunk_indices :
  (forall fuel article source recs,
     to_jsonl_records fuel article source = Return recs ->
     (1 <= length recs)%nat /\
     map (fun r => m_chunk_index (r_metadata r)) recs
     = map Z.of_nat (seq 0 (length recs)) /\
     Forall (fun r => m_total_chunks (r_metadata r)
                      = Z.of_nat (length recs)) recs) /\
  (forall fuel d source,
     truthy (dict_get d "content" (VStr [])) = false ->
     truthy (dict_get d "messages" (VList [])) = false ->
     ((truthy (dict_get d "article_title" (VStr [])) = false
       \/ exists s, dict_get d "article_title" (VStr []) = VStr s) ->
      exists r,
        to_jsonl_records fuel (VDict d) source = Return [r] /\
        r_content r = [] /\
        (forall title, r_content r <> title_prefix title) /\
        m_chunk_index (r_metadata r) = 0 /\
        m_total_chunks (r_metadata r) = 1) /\
     (truthy (dict_get d "article_title" (VStr [])) = true ->
      (forall s, dict_get d "article_title" (VStr []) <> VStr s) ->
      to_jsonl_records fuel (VDict d) source = Raise TypeError)).
Proof.
  split.
  - intros fuel article source recs Hrun.
    destruct (to_jsonl_records_inv _ _ _ _ Hrun)
      as (d & content & tags & chunks & aid & created & _ & _ & _ & _ & _
          & _ & ->).
    set (padded := match chunks with [] => [[]] | _ => chunks end).
    assert (Hlen : (match chunks with
                    | [] => 1
                    | _ => Z.of_nat (length chunks)
                    end) = Z.of_nat (length padded)).
    { subst padded. destruct chunks; reflexivity. }
    assert (Hpos : (1 <= length padded)%nat).
    { subst padded. destruct chunks; simpl; lia. }
    rewrite Hlen, length_map, enumerate_length.
    split; [exact Hpos|]. split.
    + rewrite map_map. simpl.
      rewrite <- enumerate_fst, map_map. reflexivity.
    + apply Forall_map, Forall_forall. intros ic _. reflexivity.
  - intros fuel d source Hc Hm. split.
    + intros Ht.
      destruct (extract_title_tags_ok _ Ht) as [tags Htags].
      unfold to_jsonl_records.
      rewrite (clean_article_empty d Hc Hm). simpl bind.
      rewrite Htags. simpl bind.
      rewrite chunk_with_title_prefix_empty_text. simpl.
      eexists. repeat split.
      intros title H. pose proof (len_title_prefix title) as Hl.
      rewrite <- H in Hl. pose proof (len_nonneg title).
      cbn in Hl. lia.
    + intros Ht Hs. unfold to_jsonl_records.
      rewrite (clean_article_empty d Hc Hm). simpl bind.
      unfold extract_title_tags. rewrite Ht. cbn [negb].
      destruct (dict_get d "article_title" (VStr [])) as [| | | |s| |];
        try reflexivity.
      destruct (Hs s eq_refl).
Qed.

(** [C5] All records of an article carry the same [dedupe_key], the
    SHA-256 digest of the UTF-8 bytes of the assembled content of the whole
    article; two articles whose assembled contents have the same bytes get
    the same key in all their records, whatever else they hold. *)
Theorem to_jsonl_records_dedupe_key :
  (forall fuel article source recs,
     to_jsonl_records fuel article source = Return recs ->
     exists content,
       clean_article_with_comments article = Return content /\
       Forall (fun r => m_dedupe_key (r_metadata r)
                        = u "sha256:" ++ sha256_hex (utf8_encode content))
         recs) /\
  (forall fuel1 fuel2 article1 article2 source1 source2 recs1 recs2
          content1 content2,
     to_jsonl_records fuel1 article1 source1 = Return recs1 ->
     to_jsonl_records fuel2 article2 source2 = Return recs2 ->
     clean_article_with_comments article1 = Return content1 ->
     clean_article_with_comments article2 = Return content2 ->
     utf8_encode content1 = utf8_encode content2 ->
     forall r1 r2, In r1 recs1 -> In r2 recs2 ->
       m_dedupe_key (r_metadata r1) = m_dedupe_key (r_metadata r2)).
Proof.
  assert (Hkey : forall fuel article source recs,
     to_jsonl_records fuel article source = Return recs ->
     exists content,
       clean_article_with_comments article = Return content /\
       Forall (fun r => m_dedupe_key (r_metadata r)
                        = u "sha256:" ++ sha256_hex (utf8_encode content))
         recs).
  { intros fuel article source recs Hrun.
    destruct (to_jsonl_records_inv _ _ _ _ Hrun)
      as (d & content & tags & chunks & aid & created & _ & Hc & _ & _ & _
          & _ & ->).
    exists content. split; [exact Hc|].
    apply Forall_map, Forall_forall. intros ic _. reflexivity. }
  split; [exact Hkey|].
  intros fuel1 fuel2 a1 a2 s1 s2 recs1 recs2 c1 c2 H1 H2 Hc1 Hc2 Hbytes
         r1 r2 Hin1 Hin2.
  destruct (Hkey _ _ _ _ H1) as (c1' & Hc1' & Hall1).
  destruct (Hkey _ _ _ _ H2) as (c2' & Hc2' & Hall2).
  rewrite Hc1 in Hc1'. rewrite Hc2 in Hc2'.
  injection Hc1' as <-. injection Hc2' as <-.
  rewrite Forall_forall in Hall1, Hall2.
  rewrite (Hall1 _ Hin1), (Hall2 _ Hin2), Hbytes. reflexivity.
Qed.

Lemma dict_get_absent (d : list (pystr * value)) (key : string)
    (default : value) :
  lookup d (u key) = None -> dict_get d key default = default.
Proof. intros H. unfold dict_get. rewrite H. reflexivity. Qed.

Lemma push_lines_ok (l : list value) :
  forallb is_dict l = true -> exists lines, push_lines l = Return lines.
Proof.
  induction l as [|msg l IH]; simpl; [eauto|].
  intros H. apply andb_true_iff in H as [Hm Hl].
  destruct msg; try discriminate. destruct (IH Hl) as [lines ->].
  unfold push_line. destruct (truthy _); simpl; eauto.
Qed.

Lemma extract_push_content_ok (messages : value) :
  is_messages_or_falsy messages = true ->
  exists push_content, extract_push_content messages = Return push_content.
Proof.
  intros H. unfold extract_push_content.
  destruct (truthy messages) eqn:Ht; simpl; [|eauto].
  destruct messages; simpl in H, Ht; try congruence;
    try (rewrite Ht in H; simpl in H; congruence).
  destruct (push_lines_ok _ H) as [lines ->]. simpl. eauto.
Qed.

Lemma clean_article_ok (d : list (pystr * value)) :
  is_str_or_falsy (dict_get d "content" (VStr [])) = true ->
  is_messages_or_falsy (dict_get d "messages" (VList [])) = true ->
  exists content, clean_article_with_comments (VDict d) = Return content.
Proof.
  intros Hc Hm. unfold clean_article_with_comments.
  destruct (extract_push_content_ok _ Hm) as [push ->]. simpl bind.
  destruct (truthy (dict_get d "content" (VStr []))) eqn:Ht.
  - destruct (dict_get d "content" (VStr [])); simpl in Hc, Ht;
      try congruence; try (rewrite Ht in Hc; simpl in Hc; congruence).
    destruct (nonempty push); simpl; eauto.
  - destruct (nonempty push); simpl; eauto.
Qed.

Lemma extract_title_tags_typed (title : value) :
  is_str_or_falsy title = true ->
  exists tags, extract_title_tags title = Return tags.
Proof.
  intros H. apply extract_title_tags_ok.
  destruct title; simpl in H; try (left; apply negb_true_iff; exact H).
  right. eauto.
Qed.

(** [C9], amended: an article without body, replies and title has
    well-typed fields; and for an article whose body and title are, when
    present, strings or falsy and whose replies are, when present, a list
    of mappings or falsy, whatever other fields are absent, the builder
    does not raise; it returns when the title is shorter than 1393
    characters and the fuel exceeds the length of the content; and in every
    record an
    absent field shows as its default: the empty string for url, board,
    author, title and date, the empty list for the tags, and false for the
    media flag. *)
Theorem to_jsonl_records_absent_fields (d : list (pystr * value))
    (source : pystr) :
  (lookup d (u "content") = None -> lookup d (u "messages") = None ->
   lookup d (u "article_title") = None -> fields_well_typed d = true) /\
  (fields_well_typed d = true ->
  (forall fuel e, to_jsonl_records fuel (VDict d) source <> Raise e) /\
  (len (title_text d) < 1393 ->
   exists content,
     clean_article_with_comments (VDict d) = Return content /\
     forall fuel, (length (strip content) < fuel)%nat ->
       exists recs, to_jsonl_records fuel (VDict d) source = Return recs) /\
  (forall fuel recs r,
     to_jsonl_records fuel (VDict d) source = Return recs -> In r recs ->
     let md := r_metadata r in
     (lookup d (u "url") = None -> m_url md = VStr []) /\
     (lookup d (u "board") = None -> lookup d (u "board_name") = None ->
      m_board md = VStr []) /\
     (lookup d (u "author") = None -> m_author md = VStr []) /\
     (lookup d (u "article_title") = None ->
      m_title md = VStr [] /\ m_tags md = []) /\
     (lookup d (u "date") = None -> lookup d (u "created_at") = None ->
      lookup d (u "time") = None -> m_created_at md = []) /\
     (lookup d (u "has_media") = None -> m_has_media md = false))).
Proof.
  split.
  { intros H1 H2 H3. unfold fields_well_typed.
    rewrite !dict_get_absent by assumption. reflexivity. }
  intros Hwt. unfold fields_well_typed in Hwt.
  apply andb_true_iff in Hwt as [Hwt Ht].
  apply andb_true_iff in Hwt as [Hc Hm].
  destruct (clean_article_ok d Hc Hm) as [content Hcontent].
  destruct (extract_title_tags_typed _ Ht) as [tags Htags].
  split; [|split].
  - intros fuel e. unfold to_jsonl_records.
    rewrite Hcontent. simpl bind. rewrite Htags. simpl bind.
    destruct (chunk_with_title_prefix fuel content _ 1600 200);
      simpl; discriminate.
  - intros Hlen. exists content. split; [exact Hcontent|].
    intros fuel Hf. unfold to_jsonl_records.
    rewrite Hcontent. simpl bind. rewrite Htags. simpl bind.
    destruct (chunk_with_title_prefix_returns fuel content (title_text d)
                Hlen Hf) as [chunks Hk].
    destruct (chunk_with_title_prefix fuel content _ 1600 200)
      as [chunks'|] eqn:Ek; [simpl; eauto|].
    discriminate Hk.
  - intros fuel recs r Hrun Hin md. subst md.
    destruct (to_jsonl_records_inv _ _ _ _ Hrun)
      as (d' & content' & tags' & chunks & aid & created & Hd & _ & Htags'
          & _ & _ & Hcreated & ->).
    injection Hd as <-.
    apply in_map_iff in Hin as (ic & <- & _). simpl.
    repeat split.
    + intros H. apply dict_get_absent. exact H.
    + intros H1 H2. rewrite !dict_get_absent by assumption. reflexivity.
    + intros H. apply dict_get_absent. exact H.
    + apply dict_get_absent. assumption.
    + rewrite dict_get_absent in Htags' by assumption.
      injection Htags' as <-. reflexivity.
    + intros H1 H2 H3. subst created.
      rewrite !dict_get_absent by assumption. reflexivity.
    + intros H. rewrite dict_get_absent by assumption. reflexivity.
Qed.

End Builder.

Lemma to_jsonl_records_chunk_indices_witness :
  (exists r1 r2,
     to_jsonl_records (ext := test_externals) 3
       (VDict [(u "article_title", VStr (u "[情報] 測試"));
               (u "content", VStr (repeat (ch "b") 1700))]) (u "PTT")
     = Return [r1; r2] /\
     map (fun r => m_chunk_index (r_metadata r)) [r1; r2] = [0; 1] /\
     Forall (fun r => m_total_chunks (r_metadata r) = 2) [r1; r2]) /\
  (exists r,
     to_jsonl_records (ext := test_externals) 0
       (VDict [(u "article_title", VStr (u "[情報] 測試"))]) (u "PTT")
     = Return [r] /\
     r_content r = [] /\
     (forall title, r_content r <> title_prefix title) /\
     m_chunk_index (r_metadata r) = 0 /\
     m_total_chunks (r_metadata r) = 1) /\
  to_jsonl_records (ext := test_externals) 0
    (VDict [(u "article_title", VInt 7)]) (u "PTT")
  = Raise TypeError.
Proof.
  split; [|split].
  - eassert (Hrun : to_jsonl_records (ext := test_externals) 3
                      (VDict [(u "article_title", VStr (u "[情報] 測試"));
                              (u "content", VStr (repeat (ch "b") 1700))])
                      (u "PTT")
                    = Return [_; _]) by (vm_compute; reflexivity).
    destruct (proj1 (to_jsonl_records_chunk_indices (ext := test_externals))
                _ _ _ _ Hrun) as (_ & Hidx & Htot).
    eexists _, _. split; [exact Hrun|]. split; [exact Hidx|exact Htot].
  - apply (proj2 (to_jsonl_records_chunk_indices (ext := test_externals))).
    + reflexivity.
    + reflexivity.
    + right. eexists. reflexivity.
  - apply (proj2 (to_jsonl_records_chunk_indices (ext := test_externals))).
    + reflexivity.
    + reflexivity.
    + reflexivity.
    + discriminate.
Defined.

(** [C9], as it fails: a field of the wrong type makes the builder raise.
    With the number 5 as the body, [" | ".join] is given a part that is not
    a string. *)
Lemma to_jsonl_records_malformed_counterexample :
  to_jsonl_records (ext := test_externals) 1
    (VDict [(u "content", VInt 5)]) (u "PTT")
  = Raise TypeError.
Proof. vm_compute. reflexivity. Qed.

Lemma to_jsonl_records_absent_fields_witness :
  to_jsonl_records (ext := test_externals) 1
    (VDict [(u "id", VStr (u "M.1"))]) (u "PTT") <> Raise TypeError /\
  exists content,
    clean_article_with_comments (ext := test_externals)
      (VDict [(u "id", VStr (u "M.1"))]) = Return content.
Proof.
  destruct (to_jsonl_records_absent_fields (ext := test_externals)
              [(u "id", VStr (u "M.1"))] (u "PTT")) as [Habsent Htyped].
  destruct (Htyped (Habsent eq_refl eq_refl eq_refl))
    as (Hraise & Hret & _).
  split; [apply Hraise|].
  destruct (Hret ltac:(vm_compute; reflexivity)) as (content & Hc & _).
  exists content. exact Hc.
Defined.

Lemma to_jsonl_records_dedupe_key_witness :
  exists recs1 recs2,
    to_jsonl_records (ext := test_externals) 2
      (VDict [(u "content", VStr (u "hello")); (u "author", VStr (u "x"));
              (u "article_title", VStr (u "A"))]) (u "PTT")
    = Return recs1 /\
    to_jsonl_records (ext := test_externals) 2
      (VDict [(u "content", VStr (u "hello")); (u "author", VStr (u "y"));
              (u "article_title", VStr (u "B"))]) (u "PTT")
    = Return recs2 /\
    forall r1 r2, In r1 recs1 -> In r2 recs2 ->
      m_dedupe_key (r_metadata r1) = m_dedupe_key (r_metadata r2).
Proof.
  eexists _, _. split; [reflexivity|]. split; [reflexivity|].
  apply (proj2 (to_jsonl_records_dedupe_key (ext := test_externals))
           2%nat 2%nat
           (VDict [(u "content", VStr (u "hello")); (u "author", VStr (u "x"));
                   (u "article_title", VStr (u "A"))])
           (VDict [(u "content", VStr (u "hello")); (u "author", VStr (u "y"));
                   (u "article_title", VStr (u "B"))])
           (u "PTT") (u "PTT") _ _ (u "hello") (u "hello"));
    reflexivity.
Defined.

(** ** The driver *)



Section Driver.

Context {ext : Externals}.

Lemma write_records_return (recs : list record) :
  forall st st' x,
    write_records st recs = (st', Return x) ->
    forallb encodable (map output_line recs) = true /\
    st' = mkState (count_articles st)
            (count_lines st + Z.of_nat (length recs))
            (out st ++ map output_line recs).
Proof.
  induction recs as [|rec recs IH]; intros st st' x; simpl.
  - intros [= <- _]. split; [reflexivity|].
    destruct st; simpl. rewrite Z.add_0_r, app_nil_r. reflexivity.
  - unfold write_record, encodable.
    destruct (existsb is_surrogate (output_line rec)); [discriminate|].
    intros H. apply IH in H as [Henc ->]. simpl. split; [exact Henc|].
    rewrite <- app_assoc. simpl. f_equal. lia.
Qed.


Lemma convert_article_return (fuel : nat) (source : pystr)
    (st st' : driver_state) (a : value) (x : unit) :
  convert_article fuel source st a = (st', Return x) ->
  title_testable a = true /\
  ((excluded a = true /\ st' = st)
   \/ (excluded a = false /\
       exists recs,
         to_jsonl_records fuel a source = Return recs /\
         forallb encodable (map output_line recs) = true /\
         st' = mkState (count_articles st + 1)
                 (count_lines st + Z.of_nat (length recs))
                 (out st ++ map output_line recs))).
Proof.
  unfold convert_article, excluded, title_testable.
  destruct a as [| | | | | |d]; try discriminate.
  destruct (py_contains exclusion_marker _) as [[|]|e|]; try discriminate.
  - intros [= <-]. auto.
  - destruct (to_jsonl_records fuel (VDict d) source) as [recs|e|];
      try discriminate.
    intros Hw. apply write_records_return in Hw as [Henc ->].
    split; [reflexivity|]. right. split; [reflexivity|].
    exists recs. auto.
Qed.


Lemma convert_articles_return (fuel : nat) (source : pystr)
    (articles : list value) :
  forall st st' x,
    convert_articles fuel source st articles = (st', Return x) ->
    forallb title_testable articles = true /\
    exists recss,
      Forall2 (fun a recs => to_jsonl_records fuel a source = Return recs)
        (filter (fun a => negb (excluded a)) articles) recss /\
      forallb encodable (map output_line (concat recss)) = true /\
      st' = advanced st (filter (fun a => negb (excluded a)) articles) recss.
Proof.
  induction articles as [|a articles IH]; intros st st' x.
  - intros [= <-]. split; [reflexivity|]. exists []. split; [constructor|].
    split; [reflexivity|]. unfold advanced. destruct st; simpl.
    rewrite !Z.add_0_r, app_nil_r. reflexivity.
  - cbn [convert_articles forallb filter].
    destruct (convert_article fuel source st a) as [st1 [x1|e|]] eqn:Ea;
      try discriminate.
    apply convert_article_return in Ea
      as [Ht [[Hex ->]|(Hex & recs & Hrec & Henc1 & ->)]];
      rewrite Ht, Hex; cbn [negb andb];
      intros H; apply IH in H as (Hts & recss & Hall & Henc & ->);
      (split; [exact Hts|]).
    + exists recss. auto.
    + exists (recs :: recss). split; [constructor; assumption|].
      cbn [concat]. rewrite map_app, forallb_app, Henc1, Henc.
      split; [reflexivity|].
      unfold advanced.
      cbn [length concat count_articles count_lines out].
      rewrite length_app, map_app, <- !app_assoc. f_equal; lia.
Qed.









End Driver.



(** * Further properties *)

(** ** The chunker: when it returns and how many chunks it cuts *)

Lemma simple_chunk_text_fits (text : pystr) (max_chars overlap : Z)
    (fuel : nat) :
  0 < max_chars -> len (strip text) <= max_chars -> strip text <> [] ->
  simple_chunk_text (S fuel) text max_chars overlap = Some [strip text].
Proof.
  intros Hm Hfit Hne. rewrite simple_chunk_text_stripped by assumption.
  simpl. assert (Hl : 0 < len (strip text)).
  { pose proof (len_nonneg (strip text)).
    destruct (Z.eq_dec (len (strip text)) 0) as [E|E]; [|lia].
    apply len_nil_iff in E. contradiction. }
  destruct (Z.ltb_spec 0 (len (strip text))) as [_|H]; [|lia].
  unfold window_end. rewrite Z.min_r by lia. rewrite Z.eqb_refl.
  rewrite slice_to_end by lia. reflexivity.
Qed.

(** The chunker returns exactly when [max_chars <= 0], or the stripped
    text has at most [max_chars] characters, or [overlap < max_chars]; in
    every other case its loop does not end. *)
Theorem simple_chunk_text_returns_iff (text : pystr)
    (max_chars overlap : Z) :
  (exists fuel chunks,
     simple_chunk_text fuel text max_chars overlap = Some chunks)
  <-> (max_chars <= 0 \/ len (strip text) <= max_chars
       \/ overlap < max_chars).
Proof.
  split.
  - intros (fuel & chunks & Hrun).
    destruct (Z.le_gt_cases max_chars 0) as [Hm|Hm]; [auto|].
    destruct (Z.le_gt_cases (len (strip text)) max_chars) as [Hl|Hl];
      [auto|].
    destruct (Z.lt_ge_cases overlap max_chars) as [Ho|Ho]; [auto|].
    rewrite simple_chunk_text_diverges in Hrun by lia. discriminate.
  - intros H.
    destruct (strip text) as [|c r] eqn:E.
    { exists 0%nat, []. unfold simple_chunk_text. rewrite E. reflexivity. }
    destruct (Z.le_gt_cases max_chars 0) as [Hm|Hm].
    { exists 0%nat, [c :: r]. unfold simple_chunk_text. rewrite E.
      destruct (Z.leb_spec max_chars 0); [reflexivity|lia]. }
    destruct (Z.le_gt_cases (len (c :: r)) max_chars) as [Hl|Hl].
    { exists 1%nat, [strip text]. apply simple_chunk_text_fits; try lia.
      - rewrite E. exact Hl.
      - rewrite E. discriminate. }
    destruct (simple_chunk_text_enough_fuel text max_chars overlap)
      as [chunks Hc]; try lia.
    exists (S (length (strip text))), chunks. apply Hc. lia.
Qed.

Lemma simple_chunk_text_returns_iff_witness :
  exists fuel chunks, simple_chunk_text fuel (u "ab") 3 5 = Some chunks.
Proof.
  apply (proj2 (simple_chunk_text_returns_iff (u "ab") 3 5)).
  right. left. vm_compute. discriminate.
Defined.

Lemma windows_length (text : pystr) (max_chars overlap start : Z)
    (ws : list pystr) :
  windows text max_chars overlap start ws ->
  0 <= start < len text -> 0 <= overlap < max_chars ->
  Z.of_nat (length ws) = windows_needed (len text - start) max_chars overlap.
Proof.
  unfold windows_needed.
  induction 1 as [s Hge|s Hlt Hend|s ws Hlt Hend Hw IH]; intros Hs Ho.
  - lia.
  - simpl length. rewrite Z.max_l by lia.
    rewrite Z.div_small by lia. lia.
  - assert (Hn : next_start overlap (s + max_chars)
                 = s + (max_chars - overlap)) by (unfold next_start; lia).
    rewrite Hn in IH. simpl length.
    rewrite Nat2Z.inj_succ, IH by lia.
    set (d := max_chars - overlap) in *.
    set (a := len text - s - max_chars).
    assert (Hd : 0 < d) by (subst d; lia).
    assert (Ha : 0 < a) by (subst a; lia).
    replace (len text - (s + d) - max_chars) with (a - d) by (subst a; lia).
    replace (len text - s - max_chars) with a by reflexivity.
    rewrite (Z.max_r 0 a) by lia.
    destruct (Z.le_gt_cases d a) as [Hda|Hda].
    + rewrite Z.max_r by lia.
      replace (a + d - 1) with (a - d + d - 1 + 1 * d) by lia.
      rewrite Z.div_add by lia. lia.
    + rewrite Z.max_l by lia.
      rewrite (Z.div_small (0 + d - 1)) by lia.
      replace (a + d - 1) with (a - 1 + 1 * d) by lia.
      rewrite Z.div_add, Z.div_small by lia. lia.
Qed.

(** For [0 <= overlap < max_chars] the number of chunks of a text whose
    stripped form has [n >= 1] characters is
    [1 + ceil (max 0 (n - max_chars) / (max_chars - overlap))]; it is 1
    exactly when the stripped text fits into [max_chars] characters, and
    then the chunk is the stripped text. *)
Theorem simple_chunk_text_count (fuel : nat) (text : pystr)
    (max_chars overlap : Z) (chunks : list pystr) :
  0 <= overlap < max_chars -> strip text <> [] ->
  simple_chunk_text fuel text max_chars overlap = Some chunks ->
  Z.of_nat (length chunks)
  = windows_needed (len (strip text)) max_chars overlap /\
  (length chunks = 1%nat <-> len (strip text) <= max_chars) /\
  (len (strip text) <= max_chars -> chunks = [strip text]).
Proof.
  intros Ho Hne Hrun.
  assert (Hl : 0 < len (strip text)).
  { pose proof (len_nonneg (strip text)).
    destruct (Z.eq_dec (len (strip text)) 0) as [E|E]; [|lia].
    apply len_nil_iff in E. contradiction. }
  assert (Hm : 0 < max_chars) by lia.
  pose proof (chunker_run_windows _ _ _ _ _ Hm Hrun) as Hw.
  pose proof (windows_length _ _ _ _ _ Hw (conj (Z.le_refl 0) Hl) Ho) as Hn.
  rewrite Z.sub_0_r in Hn. split; [exact Hn|]. split.
  - unfold windows_needed in Hn. split.
    + intros H1. rewrite H1 in Hn.
      destruct (Z.le_gt_cases (len (strip text)) max_chars) as [H|H];
        [exact H|exfalso].
      rewrite Z.max_r in Hn by lia.
      assert (1 <= (len (strip text) - max_chars + (max_chars - overlap) - 1)
                   / (max_chars - overlap)).
      { apply Z.div_le_lower_bound; lia. }
      lia.
    + intros H. rewrite Z.max_l, Z.div_small in Hn by lia. lia.
  - intros Hfit. destruct fuel as [|fuel].
    + rewrite simple_chunk_text_stripped in Hrun by (assumption || lia).
      discriminate.
    + rewrite simple_chunk_text_fits in Hrun by (assumption || lia).
      congruence.
Qed.

Lemma simple_chunk_text_count_witness :
  Z.of_nat (length [repeat (ch "a") 1600; repeat (ch "a") 400])
  = windows_needed (len (strip (repeat (ch "a") 1800))) 1600 200.
Proof.
  refine (proj1 (simple_chunk_text_count 2 (repeat (ch "a") 1800) 1600 200
                   [repeat (ch "a") 1600; repeat (ch "a") 400] _ _ _)).
  - lia.
  - vm_compute. discriminate.
  - vm_compute. reflexivity.
Defined.

(** ** The prefixed chunker at the edge of its budget *)

(** When the prefix alone is as long as [max_chars] or longer, the whole
    stripped text comes back as a single chunk behind the prefix, and that
    chunk is longer than [max_chars]. *)
Theorem chunk_with_title_prefix_over_budget (fuel : nat)
    (text title : pystr) (max_chars overlap : Z) :
  title <> [] -> max_chars <= len (title_prefix title) ->
  strip text <> [] ->
  simple_chunk_text fuel text max_chars overlap <> None ->
  chunk_with_title_prefix fuel text title max_chars overlap
  = Some [title_prefix title ++ strip text] /\
  max_chars < len (title_prefix title ++ strip text).
Proof.
  intros Ht Hm Hne Hrun. split.
  - unfold chunk_with_title_prefix.
    destruct (simple_chunk_text fuel text max_chars overlap);
      [|contradiction].
    destruct title as [|c r] eqn:E; [contradiction|]. rewrite <- E in *.
    unfold simple_chunk_text.
    destruct (strip text) as [|x xs]; [contradiction|].
    destruct (Z.leb_spec (max_chars - len (title_prefix title)) 0);
      [reflexivity|lia].
  - rewrite len_app.
    assert (0 < len (strip text)); [|lia].
    pose proof (len_nonneg (strip text)).
    destruct (Z.eq_dec (len (strip text)) 0) as [E|E]; [|lia].
    apply len_nil_iff in E. contradiction.
Qed.

Lemma chunk_with_title_prefix_over_budget_witness :
  chunk_with_title_prefix 2 (u "abc") (u "T") 8 1
  = Some [title_prefix (u "T") ++ strip (u "abc")] /\
  8 < len (title_prefix (u "T") ++ strip (u "abc")).
Proof.
  apply (chunk_with_title_prefix_over_budget 2 (u "abc") (u "T") 8 1);
    vm_compute; discriminate.
Defined.

Section BuilderLoops.

Context {ext : Externals}.

(** An article whose title has 1393 to 1592 characters leaves the chunker
    a limit of 1 to 200 characters, not above the overlap of 200: when the
    stripped content is longer than that limit the builder does not
    return, whatever the fuel. *)
Theorem to_jsonl_records_long_title_loops (d : list (pystr * value))
    (source title content : pystr) :
  dict_get d "article_title" (VStr []) = VStr title ->
  clean_article_with_comments (VDict d) = Return content ->
  1393 <= len title < 1593 ->
  1593 - len title < len (strip content) ->
  forall fuel, to_jsonl_records fuel (VDict d) source = OutOfFuel.
Proof.
  intros Ht Hc Hlen Hcontent fuel. unfold to_jsonl_records.
  rewrite Hc, Ht. simpl bind.
  assert (Hne : title <> []).
  { intros ->. unfold len in Hlen. simpl in Hlen. lia. }
  assert (Htags : extract_title_tags (VStr title)
                  = Return (title_tags title)).
  { unfold extract_title_tags. destruct title; [contradiction|reflexivity]. }
  rewrite Htags. simpl bind.
  pose proof (len_title_prefix title) as Hp.
  rewrite chunk_with_title_prefix_diverges; [reflexivity|assumption|lia..].
Qed.

End BuilderLoops.

Lemma to_jsonl_records_long_title_loops_witness :
  to_jsonl_records (ext := test_externals) 5
    (VDict [(u "article_title", VStr (repeat (ch "a") 1393));
            (u "content", VStr (repeat (ch "b") 201))]) (u "PTT")
  = OutOfFuel.
Proof.
  apply (to_jsonl_records_long_title_loops (ext := test_externals)
           [(u "article_title", VStr (repeat (ch "a") 1393));
            (u "content", VStr (repeat (ch "b") 201))]
           (u "PTT") (repeat (ch "a") 1393) (repeat (ch "b") 201)).
  - reflexivity.
  - vm_compute. reflexivity.
  - vm_compute. split; [discriminate|reflexivity].
  - vm_compute. reflexivity.
Defined.

(** ** Replies and the assembled content *)

Lemma join_nil_iff (sep : pystr) (parts : list pystr) :
  Forall (fun p => p <> []) parts -> (join sep parts = [] <-> parts = []).
Proof.
  intros Hall. split; [|intros ->; reflexivity].
  destruct parts as [|p rest]; [reflexivity|].
  inversion Hall as [|? ? Hp _]; subst. simpl.
  destruct rest; intros H; [contradiction|].
  apply app_eq_nil in H as [H _]. contradiction.
Qed.

Section Assembly.

Context {ext : Externals}.

Lemma push_lines_mappings (l : list value) :
  forallb is_dict l = true ->
  push_lines l
  = Return (map (fun m => u "推文: " ++ format_value (push_content_of m))
              (filter (fun m => truthy (push_content_of m)) l)).
Proof.
  induction l as [|msg l IH]; simpl; [reflexivity|].
  intros H. apply andb_true_iff in H as [Hm Hl].
  destruct msg; try discriminate. rewrite (IH Hl).
  unfold push_line. cbn [push_content_of].
  destruct (truthy (dict_get items "push_content" (VStr []))); reflexivity.
Qed.

Lemma push_lines_not_mappings (l : list value) :
  forallb is_dict l = false -> push_lines l = Raise AttributeError.
Proof.
  induction l as [|msg l IH]; simpl; [discriminate|].
  intros H. apply andb_false_iff in H as [Hm|Hl].
  - destruct msg; try discriminate; reflexivity.
  - rewrite (IH Hl). destruct msg; try reflexivity.
    unfold push_line. destruct (truthy _); reflexivity.
Qed.

(** The replies of a list of mappings come out as one line per reply that
    has text, the label before the text, in the order of the replies and
    joined by newlines; replies without text leave no line, and the result
    is empty exactly when no reply has text. *)
Theorem extract_push_content_lines (l : list value) :
  forallb is_dict l = true ->
  let lines :=
    map (fun m => u "推文: " ++ format_value (push_content_of m))
      (filter (fun m => truthy (push_content_of m)) l) in
  extract_push_content (VList l) = Return (join [newline] lines) /\
  (join [newline] lines = []
   <-> Forall (fun m => truthy (push_content_of m) = false) l).
Proof.
  intros Hl lines. split.
  - unfold extract_push_content. destruct l as [|msg l']; [reflexivity|].
    cbn [truthy negb]. rewrite (push_lines_mappings _ Hl). reflexivity.
  - rewrite join_nil_iff.
    + subst lines. split.
      * intros H. apply map_eq_nil in H. apply Forall_forall. intros m Hin.
        destruct (truthy (push_content_of m)) eqn:E; [|reflexivity].
        assert (Hf : In m (filter (fun m => truthy (push_content_of m)) l))
          by (apply filter_In; auto).
        rewrite H in Hf. contradiction.
      * intros H. rewrite Forall_forall in H.
        destruct (filter (fun m => truthy (push_content_of m)) l)
          as [|m rest] eqn:E; [reflexivity|].
        assert (Hin : In m (m :: rest)) by (left; reflexivity).
        rewrite <- E in Hin. apply filter_In in Hin as [Hin Ht].
        rewrite (H m Hin) in Ht. discriminate.
    + subst lines. apply Forall_map, Forall_forall. intros m _. discriminate.
Qed.

Lemma extract_push_content_classified (messages : value) :
  match extract_push_content messages with
  | Return _ => is_messages_or_falsy messages = true
  | Raise e =>
    is_messages_or_falsy messages = false /\ e = messages_error messages
  | OutOfFuel => False
  end.
Proof.
  unfold extract_push_content.
  destruct (truthy messages) eqn:Ht; cbn [negb].
  - destruct messages as [|b|n|bits|s|l|d];
      try (unfold is_messages_or_falsy; rewrite Ht; split; reflexivity).
    cbn [is_messages_or_falsy messages_error].
    destruct (forallb is_dict l) eqn:E.
    + rewrite (push_lines_mappings _ E). reflexivity.
    + rewrite (push_lines_not_mappings _ E). split; reflexivity.
  - destruct messages as [|b|n|bits|s|l|d];
      try (unfold is_messages_or_falsy; rewrite Ht; reflexivity).
    destruct l; [reflexivity|discriminate].
Qed.

(** Replies that are falsy, or a list of mappings, are read without an
    error; any other replies raise: [AttributeError] when they are a list
    with an element that is no mapping, a string or a mapping, [TypeError]
    when they are a number or [True]. *)
Theorem extract_push_content_outcome (messages : value) :
  match extract_push_content messages with
  | Return _ => is_messages_or_falsy messages = true
  | Raise e =>
    is_messages_or_falsy messages = false /\ e = messages_error messages
  | OutOfFuel => False
  end.
Proof. apply extract_push_content_classified. Qed.

(** The assembled content of an article whose body is a string or falsy:
    the body, the replies, or both with [" | "] between them; a body that
    is not a string but falsy counts as no body. *)
Theorem clean_article_with_comments_assembly (d : list (pystr * value))
    (push_content : pystr) :
  is_str_or_falsy (dict_get d "content" (VStr [])) = true ->
  extract_push_content (dict_get d "messages" (VList []))
  = Return push_content ->
  clean_article_with_comments (VDict d)
  = Return (match body_text d, push_content with
            | [], _ => push_content
            | body, [] => body
            | body, _ => body ++ u " | " ++ push_content
            end).
Proof.
  intros Hc Hp. unfold clean_article_with_comments, body_text.
  rewrite Hp. simpl bind.
  destruct (dict_get d "content" (VStr [])) as [|b|n|bits|s|l|d'];
    try (unfold is_str_or_falsy in Hc; apply negb_true_iff in Hc;
         rewrite Hc; destruct push_content; reflexivity).
  destruct s as [|c s]; destruct push_content; reflexivity.
Qed.

End Assembly.

Lemma extract_push_content_lines_witness :
  extract_push_content (ext := test_externals)
    (VList [VDict [(u "push_content", VStr (u "好"))]; VDict [];
            VDict [(u "push_content", VStr (u "讚"))]])
  = Return (u "推文: 好" ++ [newline] ++ u "推文: 讚").
Proof.
  exact (proj1 (extract_push_content_lines (ext := test_externals)
                  [VDict [(u "push_content", VStr (u "好"))]; VDict [];
                   VDict [(u "push_content", VStr (u "讚"))]] eq_refl)).
Defined.

Lemma clean_article_with_comments_assembly_witness :
  clean_article_with_comments (ext := test_externals)
    (VDict [(u "content", VStr (u "主文"));
            (u "messages", VList [VDict [(u "push_content", VStr (u "好"))]])])
  = Return (u "主文 | 推文: 好").
Proof.
  exact (clean_article_with_comments_assembly (ext := test_externals)
           [(u "content", VStr (u "主文"));
            (u "messages", VList [VDict [(u "push_content", VStr (u "好"))]])]
           (u "推文: 好") eq_refl eq_refl).
Defined.

(** ** The builder: what it raises and what its records share *)

Section BuilderMore.

Context {ext : Externals}.

Lemma to_jsonl_records_nonempty (fuel : nat) (article : value)
    (source : pystr) (recs : list record) :
  to_jsonl_records fuel article source = Return recs -> recs <> [].
Proof.
  intros Hrun.
  destruct (to_jsonl_records_inv _ _ _ _ Hrun)
    as (d & content & tags & chunks & aid & created & _ & _ & _ & _ & _
        & _ & ->).
  destruct chunks as [|c [|c' cs]]; discriminate.
Qed.

Lemma clean_article_bad_messages (d : list (pystr * value)) :
  is_messages_or_falsy (dict_get d "messages" (VList [])) = false ->
  clean_article_with_comments (VDict d)
  = Raise (messages_error (dict_get d "messages" (VList []))).
Proof.
  intros H. unfold clean_article_with_comments.
  pose proof (extract_push_content_classified
                (dict_get d "messages" (VList []))) as Hp.
  destruct (extract_push_content (dict_get d "messages" (VList [])))
    as [p|e|]; [congruence| |contradiction].
  destruct Hp as [_ ->]. reflexivity.
Qed.

Lemma clean_article_bad_content (d : list (pystr * value)) :
  is_messages_or_falsy (dict_get d "messages" (VList [])) = true ->
  is_str_or_falsy (dict_get d "content" (VStr [])) = false ->
  clean_article_with_comments (VDict d) = Raise TypeError.
Proof.
  intros Hm Hc. unfold clean_article_with_comments.
  destruct (extract_push_content_ok _ Hm) as [p ->]. simpl bind.
  destruct (dict_get d "content" (VStr [])) as [|b|n|bits|s|l|d'];
    try discriminate;
    unfold is_str_or_falsy in Hc; apply negb_false_iff in Hc; rewrite Hc;
    reflexivity.
Qed.

Lemma extract_title_tags_bad (title : value) :
  is_str_or_falsy title = false -> extract_title_tags title = Raise TypeError.
Proof.
  intros H. unfold extract_title_tags.
  destruct title; try discriminate;
    unfold is_str_or_falsy in H; apply negb_false_iff in H; rewrite H;
    reflexivity.
Qed.

(** The builder raises exactly on the articles [builder_error] names, and
    what it raises there does not depend on the fuel: [AttributeError] on
    an article that is no mapping and on replies that are walked through
    but hold no mappings, [TypeError] on replies that cannot be walked
    through and on a truthy body or title that is no string; on every
    other article it raises nothing. *)
Theorem to_jsonl_records_raises (article : value) (source : pystr) :
  match builder_error article with
  | Some e => forall fuel, to_jsonl_records fuel article source = Raise e
  | None => forall fuel e, to_jsonl_records fuel article source <> Raise e
  end.
Proof.
  unfold builder_error.
  destruct article as [| | | | | |d]; try (intros fuel; reflexivity).
  destruct (is_messages_or_falsy (dict_get d "messages" (VList [])))
    eqn:Hm; cbn [negb].
  2: { intros fuel. unfold to_jsonl_records.
       rewrite (clean_article_bad_messages d Hm). reflexivity. }
  destruct (is_str_or_falsy (dict_get d "content" (VStr []))) eqn:Hc;
    cbn [negb].
  2: { intros fuel. unfold to_jsonl_records.
       rewrite (clean_article_bad_content d Hm Hc). reflexivity. }
  destruct (clean_article_ok d Hc Hm) as [content Hcontent].
  destruct (is_str_or_falsy (dict_get d "article_title" (VStr [])))
    eqn:Ht; cbn [negb].
  - destruct (extract_title_tags_typed _ Ht) as [tags Htags].
    intros fuel e. unfold to_jsonl_records.
    rewrite Hcontent. simpl bind. rewrite Htags. simpl bind.
    destruct (chunk_with_title_prefix fuel content _ 1600 200);
      simpl; discriminate.
  - intros fuel. unfold to_jsonl_records.
    rewrite Hcontent. simpl bind.
    rewrite (extract_title_tags_bad _ Ht). reflexivity.
Qed.

(** The records of one article agree in everything but content, id and
    chunk index, and carry the source they were built for. *)
Theorem to_jsonl_records_shared_metadata (fuel : nat) (article : value)
    (source : pystr) (recs : list record) :
  to_jsonl_records fuel article source = Return recs ->
  forall r1 r2, In r1 recs -> In r2 recs ->
    article_level (r_metadata r1) = article_level (r_metadata r2) /\
    m_source (r_metadata r1) = source.
Proof.
  intros Hrun r1 r2 H1 H2.
  destruct (to_jsonl_records_inv _ _ _ _ Hrun)
    as (d & content & tags & chunks & aid & created & _ & _ & _ & _ & _
        & _ & ->).
  apply in_map_iff in H1 as (ic1 & <- & _).
  apply in_map_iff in H2 as (ic2 & <- & _).
  split; reflexivity.
Qed.

End BuilderMore.

Lemma to_jsonl_records_raises_witness :
  to_jsonl_records (ext := test_externals) 0
    (VDict [(u "messages", VList [VInt 1])]) (u "PTT")
  = Raise AttributeError /\
  to_jsonl_records (ext := test_externals) 0
    (VDict [(u "article_title", VInt 7)]) (u "PTT")
  = Raise TypeError.
Proof.
  split.
  - exact (to_jsonl_records_raises (ext := test_externals)
             (VDict [(u "messages", VList [VInt 1])]) (u "PTT") 0%nat).
  - exact (to_jsonl_records_raises (ext := test_externals)
             (VDict [(u "article_title", VInt 7)]) (u "PTT") 0%nat).
Defined.

Lemma to_jsonl_records_shared_metadata_witness :
  exists r1 r2,
    to_jsonl_records (ext := test_externals) 3
      (VDict [(u "content", VStr (repeat (ch "b") 1700))]) (u "PTT")
    = Return [r1; r2] /\
    article_level (r_metadata r1) = article_level (r_metadata r2) /\
    m_source (r_metadata r1) = u "PTT".
Proof.
  eexists _, _. split; [vm_compute; reflexivity|].
  eapply (to_jsonl_records_shared_metadata (ext := test_externals) 3
            (VDict [(u "content", VStr (repeat (ch "b") 1700))]) (u "PTT")).
  - vm_compute. reflexivity.
  - left. reflexivity.
  - right. left. reflexivity.
Defined.

(** ** The builder: ids, contents and fallbacks *)

Lemma digits_value_snoc (s : pystr) (c : char) :
  digits_value (s ++ [c])
  = 10 * digits_value s + (Z.of_N c - Z.of_N (ch "0")).
Proof. unfold digits_value. rewrite fold_left_app. reflexivity. Qed.

Lemma decimal_digits_value (fuel : nat) :
  forall n, 0 <= n < Z.of_nat fuel ->
    digits_value (decimal_digits fuel n) = n.
Proof.
  induction fuel as [|fuel IH]; intros n Hn; [lia|].
  cbn [decimal_digits]. rewrite digits_value_snoc.
  pose proof (Z.mod_pos_bound n 10 ltac:(lia)) as Hmod.
  rewrite digit_char_value by lia.
  destruct (Z.ltb_spec n 10) as [Hlt|Hge].
  - simpl. rewrite Z.mod_small by lia. reflexivity.
  - rewrite IH.
    + pose proof (Z.div_mod n 10 ltac:(lia)). lia.
    + split; [apply Z.div_pos; lia|].
      assert (n / 10 < n) by (apply Z.div_lt; lia). lia.
Qed.

Lemma decimal_digits_range (fuel : nat) :
  forall n, 0 <= n ->
    Forall (fun c => (48 <= c <= 57)%N) (decimal_digits fuel n).
Proof.
  induction fuel as [|fuel IH]; intros n Hn; [constructor|].
  cbn [decimal_digits]. apply Forall_app. split.
  - destruct (n <? 10); [constructor|]. apply IH. apply Z.div_pos; lia.
  - constructor; [|constructor]. apply digit_char_range.
    pose proof (Z.mod_pos_bound n 10 ltac:(lia)). lia.
Qed.

Lemma str_of_index_value (idx : nat) :
  digits_value (str_of_index idx) = Z.of_nat idx.
Proof. unfold str_of_index. apply decimal_digits_value. lia. Qed.

Lemma str_of_index_digits (idx : nat) :
  Forall (fun c => (48 <= c <= 57)%N) (str_of_index idx)
  /\ str_of_index idx <> [].
Proof.
  unfold str_of_index. split; [apply decimal_digits_range; lia|].
  cbn [decimal_digits]. intros H. apply app_eq_nil in H as [_ H].
  discriminate.
Qed.

Lemma lstrip_by_app (p : char -> bool) (a b : pystr) :
  (exists c r, b = c :: r /\ p c = false) ->
  lstrip_by p (a ++ b) = lstrip_by p a ++ b.
Proof.
  intros (c & r & -> & Hc). induction a as [|x a IH]; simpl.
  - rewrite Hc. reflexivity.
  - destruct (p x); [exact IH|reflexivity].
Qed.

Lemma strip_by_kept_tail (p : char -> bool) (a b : pystr) :
  b <> [] -> Forall (fun c => p c = false) b ->
  strip_by p (a ++ b) = lstrip_by p a ++ b.
Proof.
  intros Hne Hall. unfold strip_by, rstrip_by.
  assert (Hr : lstrip_by p (rev (a ++ b)) = rev (a ++ b)).
  { rewrite rev_app_distr.
    destruct (rev b) as [|c r] eqn:E.
    - apply (f_equal (@rev char)) in E. rewrite rev_involutive in E.
      contradiction.
    - simpl. assert (Hc : p c = false).
      { rewrite Forall_forall in Hall. apply Hall. apply in_rev.
        rewrite E. left. reflexivity. }
      rewrite Hc. reflexivity. }
  rewrite Hr, rev_involutive. apply lstrip_by_app.
  destruct b as [|c r]; [contradiction|].
  inversion Hall; subst. eauto.
Qed.

Lemma NoDup_map_injective {A B : Type} (f : A -> B) (l : list A) :
  (forall x y, In x l -> In y l -> f x = f y -> x = y) ->
  NoDup l -> NoDup (map f l).
Proof.
  intros Hinj Hnd. induction Hnd as [|x l Hx Hnd IH]; simpl; constructor.
  - intros Hin. apply in_map_iff in Hin as (y & Hy & Hin).
    apply Hx. rewrite (Hinj x y); auto; [left|right]; auto.
  - apply IH. intros a b Ha Hb. apply Hinj; right; assumption.
Qed.

Lemma enumerate_snd {A : Type} (l : list A) :
  map snd (enumerate l) = l.
Proof.
  unfold enumerate. generalize 0%nat.
  induction l as [|x l IH]; intros n; simpl; [reflexivity|].
  rewrite IH. reflexivity.
Qed.

Lemma simple_chunk_text_reassemble_any (fuel : nat) (text : pystr)
    (max_chars overlap : Z) (chunks : list pystr) :
  0 <= overlap ->
  simple_chunk_text fuel text max_chars overlap = Some chunks ->
  reassemble overlap chunks = strip text.
Proof.
  intros Ho Hrun.
  destruct (Z.le_gt_cases max_chars 0) as [Hm|Hm].
  - unfold simple_chunk_text in Hrun.
    destruct (strip text) as [|c r]; [injection Hrun as <-; reflexivity|].
    destruct (Z.leb_spec max_chars 0); [|lia].
    injection Hrun as <-. unfold reassemble. simpl concat.
    apply app_nil_r.
  - apply (simple_chunk_text_reassemble fuel text max_chars); assumption.
Qed.

Section BuilderIds.

Context {ext : Externals}.

(** The ids of the records of one article are pairwise distinct. *)
Theorem to_jsonl_records_ids_distinct (fuel : nat) (article : value)
    (source : pystr) (recs : list record) :
  to_jsonl_records fuel article source = Return recs ->
  NoDup (map (fun r => m_id (r_metadata r)) recs).
Proof.
  intros Hrun.
  destruct (to_jsonl_records_inv _ _ _ _ Hrun)
    as (d & content & tags & chunks & aid & created & _ & _ & _ & _ & _
        & _ & ->).
  set (prefix := fun tail : pystr =>
         source ++ u "_"
         ++ format_value (dict_get d "board" (dict_get d "board_name" (VStr [])))
         ++ u "_" ++ format_value aid ++ u "_" ++ tail).
  set (padded := match chunks with [] => [[]] | _ => chunks end).
  match goal with
  | |- NoDup ?l =>
    replace l
      with (map (fun i => strip_chars (u "_") (prefix (str_of_index i)))
              (seq 0 (length padded)))
  end.
  2: { rewrite map_map, <- enumerate_fst, map_map. apply map_ext.
       intros ic. reflexivity. }
  apply NoDup_map_injective; [|apply seq_NoDup].
  intros i j _ _ Heq.
  assert (Hstrip : forall k,
            strip_chars (u "_") (prefix (str_of_index k))
            = lstrip_by (fun c => existsb (char_eqb c) (u "_")) (prefix [])
              ++ str_of_index k).
  { intros k. destruct (str_of_index_digits k) as [Hdig Hne].
    unfold strip_chars.
    replace (prefix (str_of_index k)) with (prefix [] ++ str_of_index k)
      by (subst prefix; cbv beta; rewrite !app_nil_r, <- !app_assoc;
          reflexivity).
    apply strip_by_kept_tail; [exact Hne|].
    revert Hdig. apply Forall_impl. intros c Hc.
    change (u "_") with [95%N]. simpl. unfold char_eqb.
    destruct (N.eqb_spec c 95); [lia|reflexivity]. }
  rewrite !Hstrip in Heq. apply app_inv_head in Heq.
  apply (f_equal digits_value) in Heq.
  rewrite !str_of_index_value in Heq. lia.
Qed.

(** Nothing of the stripped content is lost: every record content starts
    with the prefix of the article, and the contents without the prefix,
    put together without the 200 characters each shares with the one
    before, are the stripped assembled content. *)
Theorem to_jsonl_records_contents (fuel : nat) (d : list (pystr * value))
    (source : pystr) (recs : list record) (content : pystr) :
  to_jsonl_records fuel (VDict d) source = Return recs ->
  clean_article_with_comments (VDict d) = Return content ->
  let prefix := content_prefix (title_text d) in
  (strip content <> [] ->
   Forall (fun r => firstn (length prefix) (r_content r) = prefix) recs) /\
  reassemble 200 (map (fun r => skipn (length prefix) (r_content r)) recs)
  = strip content.
Proof.
  intros Hrun Hc prefix.
  destruct (to_jsonl_records_inv _ _ _ _ Hrun)
    as (d' & content' & tags & chunks & aid & created & Hd & Hc' & _ & Hk
        & _ & _ & ->).
  injection Hd as <-. rewrite Hc in Hc'. injection Hc' as <-.
  fold (title_text d) in Hk.
  assert (Hraw : exists raw,
            chunks = map (app prefix) raw /\
            reassemble 200 raw = strip content).
  { unfold chunk_with_title_prefix in Hk. subst prefix.
    destruct (simple_chunk_text fuel content 1600 200) as [cs0|] eqn:E0;
      [|discriminate].
    destruct (title_text d) as [|c t] eqn:Et.
    - injection Hk as <-. exists cs0. split.
      + simpl. symmetry. apply map_id.
      + apply (simple_chunk_text_reassemble_any fuel content 1600);
          [lia|exact E0].
    - cbn [content_prefix].
      destruct (simple_chunk_text fuel content
                  (1600 - len (title_prefix (c :: t))) 200)
        as [adj|] eqn:Ea; [|discriminate].
      injection Hk as Hk. exists adj. split; [symmetry; exact Hk|].
      apply (simple_chunk_text_reassemble_any fuel content
               (1600 - len (title_prefix (c :: t))) 200 adj);
        [lia|exact Ea]. }
  destruct Hraw as (raw & -> & Hraw).
  set (padded := match map (app prefix) raw with
                 | [] => [[]]
                 | _ => map (app prefix) raw
                 end).
  assert (Hcontents : forall g : list char -> list char,
            map (fun r => g (r_content r))
              (map (fun ic =>
                      make_record source aid (dict_get d "url" (VStr []))
                        (dict_get d "board" (dict_get d "board_name" (VStr [])))
                        (dict_get d "author" (VStr [])) created
                        (dict_get d "article_title" (VStr [])) tags
                        (truthy (dict_get d "has_media" (VBool false)))
                        (u "sha256:" ++ sha256_hexdigest content)
                        (match map (app prefix) raw with
                         | [] => 1
                         | _ => Z.of_nat (length (map (app prefix) raw))
                         end)
                        (fst ic) (snd ic))
                 (enumerate padded))
            = map g padded).
  { intros g. rewrite map_map.
    rewrite <- (enumerate_snd padded) at 2. rewrite map_map.
    apply map_ext. intros ic. reflexivity. }
  assert (Hpad : raw <> [] -> padded = map (app prefix) raw).
  { intros H. subst padded. destruct raw; [contradiction|reflexivity]. }
  assert (Hpad0 : raw = [] -> padded = [[]]).
  { intros ->. reflexivity. }
  split.
  - intros Hne.
    assert (Hnr : raw <> []).
    { intros ->. simpl in Hraw. rewrite <- Hraw in Hne. contradiction. }
    assert (Hall : Forall (fun c => firstn (length prefix) c = prefix) padded).
    { rewrite (Hpad Hnr). apply Forall_map, Forall_forall. intros c _.
      rewrite firstn_app, firstn_all, Nat.sub_diag. simpl.
      apply app_nil_r. }
    apply Forall_forall. intros r Hin.
    assert (Hin' : In (firstn (length prefix) (r_content r))
                     (map (firstn (length prefix)) padded)).
    { rewrite <- (Hcontents (firstn (length prefix))).
      apply (in_map (fun r => firstn (length prefix) (r_content r))).
      exact Hin. }
    apply in_map_iff in Hin' as (c & Hc1 & Hc2).
    rewrite Forall_forall in Hall. rewrite <- Hc1. apply Hall. exact Hc2.
  - transitivity (reassemble 200 (map (skipn (length prefix)) padded));
      [f_equal; exact (Hcontents (skipn (length prefix)))|].
    destruct (list_eq_dec (list_eq_dec N.eq_dec) raw []) as [E|E].
    + rewrite (Hpad0 E). rewrite E in Hraw. simpl in Hraw.
      rewrite <- Hraw. simpl. destruct (length prefix); reflexivity.
    + rewrite (Hpad E), map_map.
      rewrite (map_ext (fun c => skipn (length prefix) (prefix ++ c))
                 (fun c => c)).
      * rewrite map_id. exact Hraw.
      * intros c. rewrite skipn_app, skipn_all, Nat.sub_diag. reflexivity.
Qed.

(** Where the fallbacks of the builder look: the board is the value under
    [board] whenever that key is present, whatever it holds, and the value
    under [board_name] only when [board] is absent; the date and the
    article id are the first truthy value among their keys, so an id of 0
    or of the empty string is passed over; and the id of a record is made
    of source, board, article id and chunk index. *)
Theorem to_jsonl_records_fallbacks (fuel : nat) (d : list (pystr * value))
    (source : pystr) (recs : list record) :
  to_jsonl_records fuel (VDict d) source = Return recs ->
  forall r, In r recs ->
    let md := r_metadata r in
    let get := fun key => dict_get d key VNone in
    m_board md
    = match lookup d (u "board") with
      | Some v => v
      | None => dict_get d "board_name" (VStr [])
      end /\
    m_created_at md
    = normalize_datetime
        (first_truthy [get "date"%string; get "created_at"%string]
           (get "time"%string)) /\
    m_id md
    = strip_chars (u "_")
        (source ++ u "_" ++ format_value (m_board md) ++ u "_"
         ++ format_value
              (first_truthy [get "id"%string; get "aid"%string;
                             get "article_id"%string; get "_id"%string]
                 (VStr []))
         ++ u "_" ++ str_of_index (Z.to_nat (m_chunk_index md))).
Proof.
  intros Hrun r Hin md get. subst md.
  destruct (to_jsonl_records_inv _ _ _ _ Hrun)
    as (d' & content & tags & chunks & aid & created & Hd & _ & _ & _
        & Haid & Hcreated & ->).
  injection Hd as <-.
  apply in_map_iff in Hin as (ic & <- & _).
  cbn [make_record r_metadata m_board m_created_at m_id m_chunk_index].
  rewrite Nat2Z.id. split; [|split].
  - unfold dict_get at 1. destruct (lookup d (u "board")); reflexivity.
  - rewrite Hcreated. f_equal. unfold first_truthy, py_or. subst get.
    simpl. destruct (truthy (dict_get d "date" VNone)); [reflexivity|].
    destruct (truthy (dict_get d "created_at" VNone)); reflexivity.
  - rewrite Haid. do 5 f_equal. unfold first_truthy, py_or. subst get.
    simpl. destruct (truthy (dict_get d "id" VNone)); [reflexivity|].
    destruct (truthy (dict_get d "aid" VNone)); [reflexivity|].
    destruct (truthy (dict_get d "article_id" VNone)); [reflexivity|].
    destruct (truthy (dict_get d "_id" VNone)); reflexivity.
Qed.

End BuilderIds.

Lemma to_jsonl_records_ids_distinct_witness :
  exists recs,
    to_jsonl_records (ext := test_externals) 3
      (VDict [(u "content", VStr (repeat (ch "b") 1700))]) (u "PTT")
    = Return recs /\
    NoDup (map (fun r => m_id (r_metadata r)) recs).
Proof.
  eexists. split; [vm_compute; reflexivity|].
  apply (to_jsonl_records_ids_distinct (ext := test_externals) 3
           (VDict [(u "content", VStr (repeat (ch "b") 1700))]) (u "PTT")).
  vm_compute. reflexivity.
Defined.

Lemma to_jsonl_records_contents_witness :
  exists recs,
    to_jsonl_records (ext := test_externals) 3
      (VDict [(u "content", VStr (repeat (ch "b") 1700));
              (u "article_title", VStr (u "T"))]) (u "PTT")
    = Return recs /\
    reassemble 200
      (map (fun r => skipn (length (content_prefix (u "T"))) (r_content r))
         recs)
    = strip (repeat (ch "b") 1700).
Proof.
  eexists. split; [vm_compute; reflexivity|].
  apply (to_jsonl_records_contents (ext := test_externals) 3
           [(u "content", VStr (repeat (ch "b") 1700));
            (u "article_title", VStr (u "T"))] (u "PTT")).
  - vm_compute. reflexivity.
  - vm_compute. reflexivity.
Defined.

Lemma to_jsonl_records_fallbacks_witness :
  exists r,
    to_jsonl_records (ext := test_externals) 0
      (VDict [(u "board", VStr []); (u "board_name", VStr (u "CFantasy"));
              (u "id", VInt 0); (u "aid", VStr (u "M.1"))]) (u "PTT")
    = Return [r] /\
    m_board (r_metadata r) = VStr [] /\
    m_id (r_metadata r) = u "PTT__M.1_0".
Proof.
  eexists. split; [vm_compute; reflexivity|].
  destruct (to_jsonl_records_fallbacks (ext := test_externals) 0
              [(u "board", VStr []); (u "board_name", VStr (u "CFantasy"));
               (u "id", VInt 0); (u "aid", VStr (u "M.1"))] (u "PTT") _
              eq_refl _ (or_introl eq_refl)) as (Hb & _ & Hid).
  split; [exact Hb|].
  etransitivity; [exact Hid|]. vm_compute. reflexivity.
Defined.

(** ** Stripping and the tags of a title *)

Lemma lstrip_by_suffix (p : char -> bool) (s : pystr) :
  exists a, s = a ++ lstrip_by p s /\ Forall (fun c => p c = true) a.
Proof.
  induction s as [|c s IH]; simpl.
  - exists []. auto.
  - destruct (p c) eqn:Hc.
    + destruct IH as (a & Hs & Ha). exists (c :: a). split.
      * simpl. f_equal. exact Hs.
      * constructor; assumption.
    + exists []. auto.
Qed.

Lemma lstrip_by_head (p : char -> bool) (s : pystr) :
  match lstrip_by p s with
  | c :: _ => p c = false
  | [] => True
  end.
Proof.
  induction s as [|c s IH]; simpl; [exact I|].
  destruct (p c) eqn:Hc; [exact IH|exact Hc].
Qed.

Lemma lstrip_by_fixed (p : char -> bool) (s : pystr) :
  match s with c :: _ => p c = false | [] => True end ->
  lstrip_by p s = s.
Proof. destruct s as [|c s]; simpl; [reflexivity|]. intros ->. reflexivity. Qed.

Lemma strip_by_parts (p : char -> bool) (s : pystr) :
  exists a b, s = a ++ strip_by p s ++ b.
Proof.
  unfold strip_by, rstrip_by.
  destruct (lstrip_by_suffix p (rev s)) as (b & Hb & _).
  destruct (lstrip_by_suffix p (rev (lstrip_by p (rev s)))) as (a & Ha & _).
  exists a, (rev b).
  apply (f_equal (@rev char)) in Hb. rewrite rev_involutive in Hb.
  rewrite Hb at 1. rewrite rev_app_distr. rewrite Ha at 1.
  rewrite <- app_assoc. reflexivity.
Qed.

Lemma strip_by_idempotent (p : char -> bool) (s : pystr) :
  strip_by p (strip_by p s) = strip_by p s.
Proof.
  unfold strip_by at 1. unfold rstrip_by.
  set (x := strip_by p s).
  assert (Hhead : match x with c :: _ => p c = false | [] => True end).
  { subst x. unfold strip_by. apply lstrip_by_head. }
  assert (Hlast : match rev x with c :: _ => p c = false | [] => True end).
  { subst x. unfold strip_by, rstrip_by.
    set (z := lstrip_by p (rev s)).
    pose proof (lstrip_by_head p (rev s)) as Hz. fold z in Hz.
    destruct (lstrip_by_suffix p (rev z)) as (a & Ha & _).
    apply (f_equal (@rev char)) in Ha.
    rewrite rev_involutive, rev_app_distr in Ha.
    destruct (rev (lstrip_by p (rev z))) as [|c r]; [exact I|].
    rewrite Ha in Hz. exact Hz. }
  rewrite (lstrip_by_fixed p (rev x) Hlast), rev_involutive.
  apply lstrip_by_fixed. exact Hhead.
Qed.

Lemma bracketed_in_title (title : pystr) (gs : list pystr) :
  bracketed title gs ->
  forall g, In g gs ->
    exists before after, title = before ++ ch "[" :: g ++ ch "]" :: after.
Proof.
  induction 1 as [s Hnone|before g0 after gs Hne Hnl Hcl Hleft Hrest IH];
    intros g Hin; [contradiction|].
  destruct Hin as [<-|Hin]; [eauto|].
  destruct (IH g Hin) as (b & a & ->).
  exists (before ++ ch "[" :: g0 ++ ch "]" :: b), a.
  rewrite <- !app_assoc. simpl. rewrite <- !app_assoc. reflexivity.
Qed.

Lemma bracketed_groups (title : pystr) (gs : list pystr) :
  bracketed title gs -> Forall (fun g => ~ In newline g) gs.
Proof. induction 1; constructor; assumption. Qed.

Lemma findall_brackets_count (s : pystr) :
  forall skip,
    (length (findall_brackets skip s) <= count_occ N.eq_dec s (ch "["))%nat.
Proof.
  induction s as [|c r IH]; intros skip; simpl; [lia|].
  destruct skip as [|k].
  - destruct (char_eqb c (ch "[")) eqn:Hc.
    + apply N.eqb_eq in Hc. subst c.
      destruct (N.eq_dec (ch "[") (ch "[")) as [_|H]; [|contradiction].
      destruct (lazy_group r) as [[g rest]|].
      * simpl. apply le_n_S, IH.
      * apply Nat.le_le_succ_r, IH.
    + destruct (N.eq_dec c (ch "[")); [apply Nat.le_le_succ_r|]; apply IH.
  - destruct (N.eq_dec c (ch "[")); [apply Nat.le_le_succ_r|]; apply IH.
Qed.

(** Every tag of a title is not empty, has no whitespace at its ends and
    no newline inside, and stands in the title between an opening bracket
    and, after whitespace at most, a closing one; there are at most as
    many tags as the title has opening brackets. *)
Theorem title_tags_invariants (title : pystr) :
  Forall (fun t =>
            t <> [] /\ strip t = t /\ ~ In newline t /\
            exists before after, title = before ++ t ++ after)
    (title_tags title) /\
  (length (title_tags title) <= count_occ N.eq_dec title (ch "["))%nat.
Proof.
  rewrite title_tags_findall.
  pose proof (findall_brackets_bracketed (length title) title (le_n _))
    as Hb.
  split.
  - apply Forall_map, Forall_forall. intros g Hin.
    apply filter_In in Hin as [Hin Hne].
    split; [destruct (strip g); [discriminate|discriminate]|].
    split; [apply strip_by_idempotent|].
    destruct (strip_by_parts is_space g) as (a & b & Hg).
    fold (strip g) in Hg.
    pose proof (bracketed_groups _ _ Hb) as Hnl.
    rewrite Forall_forall in Hnl. specialize (Hnl g Hin).
    destruct (bracketed_in_title _ _ Hb g Hin) as (before & after & Ht).
    clear Hin Hne Hb. set (t := strip g) in *. clearbody t. subst g.
    split.
    + intros H. apply Hnl.
      apply in_or_app. right. apply in_or_app. left. exact H.
    + exists (before ++ ch "[" :: a), (b ++ ch "]" :: after).
      rewrite Ht, <- ?app_assoc. simpl. rewrite <- ?app_assoc.
      reflexivity.
  - rewrite length_map.
    etransitivity; [apply filter_length_le|]. apply findall_brackets_count.
Qed.

(** ** The bytes that are hashed *)

#[local] Ltac Zify.zify_post_hook ::= Z.to_euclidean_division_equations.

Lemma utf8_decode_encode_char (c : char) (rest : list N) :
  is_scalar c = true ->
  utf8_decode (utf8_encode_char c ++ rest) = c :: utf8_decode rest.
Proof.
  unfold is_scalar, utf8_encode_char, is_surrogate.
  intros H. apply andb_true_iff in H as [Hmax Hsur].
  apply N.ltb_lt in Hmax. apply negb_true_iff in Hsur.
  destruct (N.ltb_spec c 0x80) as [H1|H1].
  { simpl. destruct (N.ltb_spec c 0x80); [reflexivity|lia]. }
  destruct (N.ltb_spec c 0x800) as [H2|H2].
  { cbn [app utf8_decode].
    destruct (N.ltb_spec (0xC0 + c / 0x40) 0x80) as [H3|_]; [lia|].
    destruct (N.ltb_spec (0xC0 + c / 0x40) 0xE0) as [_|H3]; [|lia].
    f_equal. lia. }
  rewrite Hsur.
  destruct (N.ltb_spec c 0x10000) as [H3|H3].
  { cbn [app utf8_decode].
    destruct (N.ltb_spec (0xE0 + c / 0x1000) 0x80) as [H4|_]; [lia|].
    destruct (N.ltb_spec (0xE0 + c / 0x1000) 0xE0) as [H4|_]; [lia|].
    destruct (N.ltb_spec (0xE0 + c / 0x1000) 0xF0) as [_|H4]; [|lia].
    f_equal. lia. }
  cbn [app utf8_decode].
  destruct (N.ltb_spec (0xF0 + c / 0x40000) 0x80) as [H4|_]; [lia|].
  destruct (N.ltb_spec (0xF0 + c / 0x40000) 0xE0) as [H4|_]; [lia|].
  destruct (N.ltb_spec (0xF0 + c / 0x40000) 0xF0) as [H4|_]; [lia|].
  f_equal. lia.
Qed.

#[local] Ltac Zify.zify_post_hook ::= idtac.

Lemma utf8_decode_encode (s : pystr) :
  forallb is_scalar s = true -> utf8_decode (utf8_encode s) = s.
Proof.
  induction s as [|c s IH]; simpl; [reflexivity|].
  intros H. apply andb_true_iff in H as [Hc Hs].
  rewrite utf8_decode_encode_char by assumption. rewrite IH by assumption.
  reflexivity.
Qed.

Lemma utf8_encode_char_surrogate (c : char) :
  is_surrogate c = true -> utf8_encode_char c = [].
Proof.
  intros H. unfold utf8_encode_char. rewrite H.
  unfold is_surrogate in H. apply andb_true_iff in H as [H1 H2].
  apply N.leb_le in H1.
  destruct (N.ltb_spec c 0x80); [lia|].
  destruct (N.ltb_spec c 0x800); [lia|reflexivity].
Qed.

Section Digest.

Context {ext : Externals}.

(** What is hashed for the dedupe key determines the content, up to lone
    surrogates: contents of Unicode scalar values with the same UTF-8
    bytes are equal, while lone surrogates leave no bytes, so that contents
    which differ only in lone surrogates get the same digest. *)
Theorem sha256_hexdigest_input :
  (forall s1 s2,
     forallb is_scalar s1 = true -> forallb is_scalar s2 = true ->
     utf8_encode s1 = utf8_encode s2 -> s1 = s2) /\
  (forall s,
     utf8_encode s = utf8_encode (filter (fun c => negb (is_surrogate c)) s)
     /\ sha256_hexdigest s
        = sha256_hexdigest (filter (fun c => negb (is_surrogate c)) s)).
Proof.
  split.
  - intros s1 s2 H1 H2 Heq.
    rewrite <- (utf8_decode_encode s1 H1), <- (utf8_decode_encode s2 H2).
    rewrite Heq. reflexivity.
  - intros s.
    assert (E : utf8_encode s
                = utf8_encode (filter (fun c => negb (is_surrogate c)) s)).
    { induction s as [|c s IH]; [reflexivity|]. simpl.
      destruct (is_surrogate c) eqn:Hc; simpl.
      - rewrite utf8_encode_char_surrogate by assumption. exact IH.
      - rewrite IH. reflexivity. }
    split; [exact E|]. unfold sha256_hexdigest. rewrite E. reflexivity.
Qed.

End Digest.

Lemma sha256_hexdigest_input_witness :
  u "情報" = [0x60C5; 0x5831]%N.
Proof.
  apply (proj1 (sha256_hexdigest_input (ext := test_externals))).
  - reflexivity.
  - reflexivity.
  - vm_compute. reflexivity.
Defined.

(** ** Dates: the shape of the result and the padded forms *)

Lemma in_alt (m1 m2 : matcher) (s : pystr) (x : Z * pystr) :
  In x ((m1 <|> m2) s) -> In x (m1 s) \/ In x (m2 s).
Proof. unfold alt. apply in_app_or. Qed.

Lemma one_rest (p : char -> option Z) (s : pystr) (v : Z) (r : pystr) :
  In (v, r) (one p s) -> r = skipn 1 s.
Proof.
  unfold one. destruct s as [|c s']; [contradiction|].
  destruct (p c); [|contradiction]. intros [[= _ <-]|[]]. reflexivity.
Qed.

Lemma two_rest (p q : char -> option Z) (s : pystr) (v : Z) (r : pystr) :
  In (v, r) (two p q s) -> r = skipn 2 s.
Proof.
  unfold two. destruct s as [|a [|b s']]; try contradiction.
  destruct (p a); [|contradiction]. destruct (q b); [|contradiction].
  intros [[= _ <-]|[]]. reflexivity.
Qed.

Lemma re_Y_rest (s : pystr) (v : Z) (r : pystr) :
  In (v, r) (re_Y s) -> r = skipn 4 s.
Proof.
  unfold re_Y. destruct s as [|a [|b [|c [|d s']]]]; try contradiction.
  destruct (any_digit a), (any_digit b), (any_digit c), (any_digit d);
    try contradiction.
  intros [[= _ <-]|[]]. reflexivity.
Qed.

Lemma re_m_rest (s : pystr) (v : Z) (r : pystr) :
  In (v, r) (re_m s) -> r = skipn 1 s \/ r = skipn 2 s.
Proof.
  unfold re_m. intros H.
  apply in_alt in H as [H|H]; [right; apply (two_rest _ _ _ _ _ H)|].
  apply in_alt in H as [H|H]; [right; apply (two_rest _ _ _ _ _ H)|].
  left. apply (one_rest _ _ _ _ H).
Qed.

Lemma re_d_rest (s : pystr) (v : Z) (r : pystr) :
  In (v, r) (re_d s) -> r = skipn 1 s \/ r = skipn 2 s.
Proof.
  unfold re_d. intros H.
  apply in_alt in H as [H|H]; [right; apply (two_rest _ _ _ _ _ H)|].
  apply in_alt in H as [H|H]; [right; apply (two_rest _ _ _ _ _ H)|].
  apply in_alt in H as [H|H]; [right; apply (two_rest _ _ _ _ _ H)|].
  apply in_alt in H as [H|H]; [left; apply (one_rest _ _ _ _ H)|].
  destruct s as [|c s']; [contradiction|].
  destruct (char_eqb c (ch " ")); [|contradiction].
  right. apply one_rest in H. rewrite H. destruct s'; reflexivity.
Qed.

Lemma dir_rest (c : char) (m : matcher) (f f' : fields) (s r : pystr) :
  directive_re c = m ->
  In (f', r) (match_directive (Dir c) f s) -> exists v, In (v, r) (m s).
Proof.
  intros <- H. cbn [match_directive] in H.
  apply in_map_iff in H as ([v r'] & [= _ <-] & H). eauto.
Qed.

Lemma lit_rest (c : char) (f f' : fields) (s r : pystr) :
  In (f', r) (match_directive (Lit c) f s) -> s = c :: r.
Proof.
  cbn [match_directive]. destruct s as [|x s']; [contradiction|].
  unfold char_eqb. destruct (N.eqb_spec c x) as [->|_]; [|contradiction].
  intros [[= _ <-]|[]]. reflexivity.
Qed.

Lemma re_spaces_first (s r : pystr) :
  In r (re_spaces s) -> exists x s', s = x :: s' /\ is_space x = true.
Proof.
  destruct s as [|x s']; [contradiction|]. simpl.
  destruct (is_space x) eqn:E; [|contradiction].
  intros _. exists x, s'. split; [reflexivity|exact E].
Qed.

Lemma spaces_rest (f f' : fields) (s r : pystr) :
  In (f', r) (match_directive Spaces f s) ->
  exists x s', s = x :: s' /\ is_space x = true.
Proof.
  cbn [match_directive]. intros H.
  apply in_map_iff in H as (r' & _ & H). apply (re_spaces_first _ _ H).
Qed.

Lemma name_prefix_digit (c : char) (r name : pystr) :
  is_ascii_digit c = true ->
  match name with n :: _ => (97 <= n)%N | [] => True end ->
  name <> [] ->
  name_prefix name (c :: r) = None.
Proof.
  intros Hc Hn Hne. destruct name as [|n name']; [contradiction|].
  simpl. unfold is_ascii_digit in Hc. apply andb_true_iff in Hc as [H1 H2].
  apply N.leb_le in H1, H2.
  unfold ascii_lower. change (ch "A") with 65%N. change (ch "Z") with 90%N.
  destruct (N.leb_spec 65 c); simpl; [|].
  - destruct (N.leb_spec c 90); simpl; try lia.
  - unfold char_eqb. destruct (N.eqb_spec n c); [lia|reflexivity].
Qed.

Lemma re_names_digit (names : list pystr) (c : char) (r : pystr) :
  is_ascii_digit c = true ->
  Forall (fun name => match name with n :: _ => (97 <= n)%N | [] => True end)
    names ->
  forall i, re_names i names (c :: r) = [].
Proof.
  intros Hc Hall. induction Hall as [|name names Hn _ IH]; intros i;
    [reflexivity|].
  cbn [re_names]. rewrite IH.
  destruct name as [|n name']; [reflexivity|].
  pose proof (name_prefix_digit c r (n :: name') Hc Hn ltac:(discriminate))
    as E.
  unfold pystr, char in *. rewrite E. reflexivity.
Qed.

Lemma strptime_unmatched (s format : pystr) :
  (forall f r,
     In (f, r) (match_format (parse_format false format) default_fields s) ->
     r <> []) ->
  strptime s format = None.
Proof.
  intros H. unfold strptime.
  destruct (match_format _ default_fields s) as [|[f r] rest];
    [reflexivity|].
  destruct r as [|c r']; [|reflexivity].
  exfalso. apply (H f []); [left; reflexivity|reflexivity].
Qed.

Lemma digit_not_space (c : char) :
  is_ascii_digit c = true -> is_space c = false.
Proof.
  unfold is_ascii_digit, is_space. intros H.
  apply andb_true_iff in H as [H1 H2]. apply N.leb_le in H1, H2.
  repeat match goal with
         | |- context [(?a <=? ?b)%N] => destruct (N.leb_spec a b); try lia
         | |- context [(?a =? ?b)%N] => destruct (N.eqb_spec a b); try lia
         end; reflexivity.
Qed.

Ltac mf_step H :=
  apply in_flat_map in H as ([? ?] & ? & H); cbn [fst snd] in H.

Ltac digit_clash :=
  match goal with
  | Hd : is_ascii_digit ?c = true, He : ?c :: _ = ?k :: _ |- _ =>
    injection He as -> _; vm_compute in Hd; discriminate Hd
  | Hd : is_ascii_digit ?c = true, He : ?k :: _ = ?c :: _ |- _ =>
    injection He as <- _; vm_compute in Hd; discriminate Hd
  end.

Lemma iso_shaped_unparsed (s : pystr) :
  iso_shaped s = true ->
  Forall (fun fmt => strptime s fmt = None) candidates.
Proof.
  intros H.
  do 19 (destruct s as [|? s]; [discriminate H|]).
  destruct s; [|discriminate H].
  cbn [iso_shaped forallb] in H.
  repeat match goal with
         | E : (_ && _)%bool = true |- _ =>
           apply andb_true_iff in E as [? ?]
         end.
  repeat match goal with
         | E : char_eqb _ _ = true |- _ => apply N.eqb_eq in E; subst
         end.
  change (ch "-") with 45%N in *. change (ch "T") with 84%N in *.
  change (ch ":") with 58%N in *.
  unfold candidates. cbn [map].
  repeat constructor; apply strptime_unmatched; intros f r Hin.
  - change (parse_format false (u "%Y/%m/%d %H:%M"))
      with [Dir 89%N; Lit 47%N; Dir 109%N; Lit 47%N; Dir 100%N; Spaces;
            Dir 72%N; Lit 58%N; Dir 77%N] in Hin.
    cbn [match_format] in Hin. mf_step Hin.
    match goal with
    | H1 : In _ (match_directive (Dir _) _ _) |- _ =>
      apply (dir_rest _ re_Y) in H1 as [v H1]; [|reflexivity];
      apply re_Y_rest in H1; cbn [skipn] in H1; subst
    end.
    mf_step Hin.
    match goal with
    | H1 : In _ (match_directive (Lit _) _ _) |- _ =>
      apply lit_rest in H1; discriminate H1
    end.
  - change (parse_format false (u "%Y-%m-%d %H:%M"))
      with [Dir 89%N; Lit 45%N; Dir 109%N; Lit 45%N; Dir 100%N; Spaces;
            Dir 72%N; Lit 58%N; Dir 77%N] in Hin.
    cbn [match_format] in Hin. mf_step Hin.
    match goal with
    | H1 : In _ (match_directive (Dir _) _ _) |- _ =>
      apply (dir_rest _ re_Y) in H1 as [v H1]; [|reflexivity];
      apply re_Y_rest in H1; cbn [skipn] in H1; subst
    end.
    mf_step Hin.
    match goal with
    | H1 : In _ (match_directive (Lit _) _ _) |- _ =>
      apply lit_rest in H1; injection H1 as <-
    end.
    mf_step Hin.
    match goal with
    | H1 : In _ (match_directive (Dir _) _ _) |- _ =>
      apply (dir_rest _ re_m) in H1 as [v' H1]; [|reflexivity];
      apply re_m_rest in H1 as [H1|H1]; cbn [skipn] in H1; subst
    end.
    + mf_step Hin.
      match goal with
      | H1 : In _ (match_directive (Lit _) _ _) |- _ =>
        apply lit_rest in H1; digit_clash
      end.
    + mf_step Hin.
      match goal with
      | H1 : In _ (match_directive (Lit _) _ _) |- _ =>
        apply lit_rest in H1; injection H1 as <-
      end.
      mf_step Hin.
      match goal with
      | H1 : In _ (match_directive (Dir _) _ _) |- _ =>
        apply (dir_rest _ re_d) in H1 as [v'' H1]; [|reflexivity];
        apply re_d_rest in H1 as [H1|H1]; cbn [skipn] in H1; subst
      end;
      mf_step Hin;
      match goal with
      | H1 : In _ (match_directive Spaces _ _) |- _ =>
        apply spaces_rest in H1 as (x & s' & [= <- _] & Hx)
      end.
      * match goal with
        | Hd : is_ascii_digit ?c = true |- _ =>
          rewrite (digit_not_space c Hd) in Hx; discriminate Hx
        end.
      * vm_compute in Hx. discriminate Hx.
  - change (parse_format false (u "%Y/%m/%d"))
      with [Dir 89%N; Lit 47%N; Dir 109%N; Lit 47%N; Dir 100%N] in Hin.
    cbn [match_format] in Hin. mf_step Hin.
    match goal with
    | H1 : In _ (match_directive (Dir _) _ _) |- _ =>
      apply (dir_rest _ re_Y) in H1 as [v H1]; [|reflexivity];
      apply re_Y_rest in H1; cbn [skipn] in H1; subst
    end.
    mf_step Hin.
    match goal with
    | H1 : In _ (match_directive (Lit _) _ _) |- _ =>
      apply lit_rest in H1; discriminate H1
    end.
  - change (parse_format false (u "%Y-%m-%d"))
      with [Dir 89%N; Lit 45%N; Dir 109%N; Lit 45%N; Dir 100%N] in Hin.
    cbn [match_format] in Hin. mf_step Hin.
    match goal with
    | H1 : In _ (match_directive (Dir _) _ _) |- _ =>
      apply (dir_rest _ re_Y) in H1 as [v H1]; [|reflexivity];
      apply re_Y_rest in H1; cbn [skipn] in H1; subst
    end.
    mf_step Hin.
    match goal with
    | H1 : In _ (match_directive (Lit _) _ _) |- _ =>
      apply lit_rest in H1; injection H1 as <-
    end.
    mf_step Hin.
    match goal with
    | H1 : In _ (match_directive (Dir _) _ _) |- _ =>
      apply (dir_rest _ re_m) in H1 as [v' H1]; [|reflexivity];
      apply re_m_rest in H1 as [H1|H1]; cbn [skipn] in H1; subst
    end.
    + mf_step Hin.
      match goal with
      | H1 : In _ (match_directive (Lit _) _ _) |- _ =>
        apply lit_rest in H1; digit_clash
      end.
    + mf_step Hin.
      match goal with
      | H1 : In _ (match_directive (Lit _) _ _) |- _ =>
        apply lit_rest in H1; injection H1 as <-
      end.
      mf_step Hin.
      match goal with
      | H1 : In _ (match_directive (Dir _) _ _) |- _ =>
        apply (dir_rest _ re_d) in H1 as [v'' H1]; [|reflexivity];
        apply re_d_rest in H1 as [H1|H1]; cbn [skipn] in H1; subst
      end;
      destruct Hin as [[= _ <-]|[]]; discriminate.
  - change (parse_format false (u "%a %b %d %H:%M:%S %Y"))
      with [Dir 97%N; Spaces; Dir 98%N; Spaces; Dir 100%N; Spaces;
            Dir 72%N; Lit 58%N; Dir 77%N; Lit 58%N; Dir 83%N; Spaces;
            Dir 89%N] in Hin.
    cbn [match_format] in Hin. mf_step Hin.
    match goal with
    | H1 : In _ (match_directive (Dir _) _ _) |- _ =>
      apply (dir_rest _ (re_names 0 a_weekday)) in H1 as [v H1];
        [|reflexivity];
      rewrite re_names_digit in H1; [contradiction|assumption|]
    end.
    vm_compute. repeat constructor; discriminate.
Qed.

Lemma try_formats_result (s : pystr) (fmts : list pystr) :
  try_formats s fmts = s \/ exists f, try_formats s fmts = isoformat f.
Proof.
  induction fmts as [|fmt fmts IH]; simpl; [left; reflexivity|].
  destruct (strptime s fmt) as [f|]; [right; eauto|exact IH].
Qed.

Section DateStability.
Context {ext : Externals}.

(** A date given as text comes back unchanged or in the shape of
    [isoformat], YYYY-MM-DDTHH:MM:SS; and what comes back is left as it is
    when it is normalised again, since none of the five formats reads a
    text of that shape. *)
Theorem normalize_datetime_stable (s : pystr) :
  let r := normalize_datetime (VStr s) in
  (r = s \/ iso_shaped r = true) /\ normalize_datetime (VStr r) = r.
Proof.
  cbv zeta.
  assert (E : forall t, normalize_datetime (VStr t)
                        = match t with [] => [] | _ => try_formats t candidates end).
  { intros t. unfold normalize_datetime. destruct t; reflexivity. }
  destruct s as [|c s']; [rewrite !E; auto|].
  rewrite (E (c :: s')).
  destruct (try_formats_result (c :: s') candidates) as [H|[f H]];
    rewrite H.
  - split; [left; reflexivity|]. rewrite E. exact H.
  - pose proof (isoformat_shaped f) as Hs.
    split; [right; exact Hs|]. rewrite E.
    destruct (isoformat f) as [|x t] eqn:Ef; [reflexivity|].
    apply try_formats_none, iso_shaped_unparsed. exact Hs.
Qed.
End DateStability.

Lemma any_digit_digit_char (k : Z) :
  0 <= k <= 9 -> any_digit (digit_char k) = Some k.
Proof.
  intros Hk. unfold any_digit, decimal_zeros. cbn [find].
  pose proof (digit_char_range k Hk) as [H1 H2].
  destruct (N.leb_spec 48 (digit_char k)) as [_|H]; [|lia].
  destruct (N.ltb_spec (digit_char k) (48 + 10)) as [_|H]; [|lia].
  cbn [andb]. f_equal. unfold digit_char. change (ch "0") with 48%N. lia.
Qed.

#[local] Ltac Zify.zify_post_hook ::= Z.to_euclidean_division_equations.

Lemma hd_re_Y (y : Z) (rest : pystr) :
  0 <= y <= 9999 ->
  hd_error (re_Y (zero_padded 4 y ++ rest)) = Some (y, rest).
Proof.
  intros Hy. cbn [zero_padded app]. unfold re_Y.
  rewrite !any_digit_digit_char by lia. cbn [hd_error]. do 2 f_equal. lia.
Qed.

#[local] Ltac Zify.zify_post_hook ::= idtac.

Ltac enumerate_case k :=
  destruct k as [|k]; [first [vm_compute; reflexivity | exfalso; lia]|].

Lemma hd_re_m (m : Z) (rest : pystr) :
  1 <= m <= 12 ->
  hd_error (re_m (zero_padded 2 m ++ rest)) = Some (m, rest).
Proof.
  intros Hm. rewrite <- (Z2Nat.id m) in * by lia.
  generalize dependent (Z.to_nat m). intros k Hk. do 13 (enumerate_case k); lia.
Qed.

Lemma hd_re_d (d : Z) (rest : pystr) :
  1 <= d <= 31 ->
  hd_error (re_d (zero_padded 2 d ++ rest)) = Some (d, rest).
Proof.
  intros Hd. rewrite <- (Z2Nat.id d) in * by lia.
  generalize dependent (Z.to_nat d). intros k Hk. do 32 (enumerate_case k); lia.
Qed.

Lemma hd_re_H (h : Z) (rest : pystr) :
  0 <= h <= 23 ->
  hd_error (re_H (zero_padded 2 h ++ rest)) = Some (h, rest).
Proof.
  intros Hh. rewrite <- (Z2Nat.id h) in * by lia.
  generalize dependent (Z.to_nat h). intros k Hk. do 24 (enumerate_case k); lia.
Qed.

Lemma hd_re_M (mi : Z) (rest : pystr) :
  0 <= mi <= 59 ->
  hd_error (re_M (zero_padded 2 mi ++ rest)) = Some (mi, rest).
Proof.
  intros Hm. rewrite <- (Z2Nat.id mi) in * by lia.
  generalize dependent (Z.to_nat mi). intros k Hk. do 60 (enumerate_case k); lia.
Qed.

Lemma match_format_head (d : directive) (ds : list directive) (f f1 : fields)
    (s r1 : pystr) (x : fields * pystr) :
  hd_error (match_directive d f s) = Some (f1, r1) ->
  hd_error (match_format ds f1 r1) = Some x ->
  hd_error (match_format (d :: ds) f s) = Some x.
Proof.
  intros H1 H2. cbn [match_format].
  destruct (match_directive d f s) as [|[f' r'] l]; [discriminate H1|].
  injection H1 as -> ->. cbn [flat_map fst snd].
  destruct (match_format ds f1 r1) as [|x' l']; [discriminate H2|].
  exact H2.
Qed.

Lemma hd_dir (c : char) (m : matcher) (f : fields) (s r : pystr) (v : Z) :
  directive_re c = m -> hd_error (m s) = Some (v, r) ->
  hd_error (match_directive (Dir c) f s) = Some (set_field c f v, r).
Proof.
  intros <- H. cbn [match_directive].
  destruct (directive_re c s) as [|[v' r'] l]; [discriminate H|].
  injection H as -> ->. reflexivity.
Qed.

Lemma hd_lit (c : char) (f : fields) (r : pystr) :
  hd_error (match_directive (Lit c) f (c :: r)) = Some (f, r).
Proof.
  cbn [match_directive]. unfold char_eqb. rewrite N.eqb_refl. reflexivity.
Qed.

Lemma hd_spaces_padded (f : fields) (n : Z) (rest : pystr) :
  hd_error (match_directive Spaces f (u " " ++ zero_padded 2 n ++ rest))
  = Some (f, zero_padded 2 n ++ rest).
Proof.
  change (u " ") with [32%N]. cbn [match_directive app zero_padded re_spaces].
  change (is_space 32%N) with true. cbv iota.
  rewrite (digit_not_space _ (is_ascii_digit_digit_char (n / 10))).
  reflexivity.
Qed.

Lemma strptime_head (s format : pystr) (f : fields) :
  hd_error (match_format (parse_format false format) default_fields s)
  = Some (f, []) ->
  valid_datetime f = true -> strptime s format = Some f.
Proof.
  intros H Hv. unfold strptime.
  destruct (match_format _ default_fields s) as [|[f' r'] l];
    [discriminate H|].
  injection H as -> ->. rewrite Hv. reflexivity.
Qed.

Lemma days_in_month_le (y m : Z) : days_in_month y m <= 31.
Proof.
  unfold days_in_month.
  repeat match goal with |- context [if ?b then _ else _] => destruct b end;
    lia.
Qed.

Lemma valid_datetime_ranges (y m d h mi sec : Z) :
  valid_datetime (mkFields y m d h mi sec) = true ->
  1 <= y <= 9999 /\ 1 <= m <= 12 /\ 1 <= d <= 31 /\ 0 <= h <= 23
  /\ 0 <= mi <= 59.
Proof.
  unfold valid_datetime. cbn [year month day hour minute second]. intros H.
  repeat match goal with
         | E : (_ && _)%bool = true |- _ =>
           apply andb_true_iff in E as [? ?]
         end.
  repeat match goal with
         | E : (_ <=? _) = true |- _ => apply Z.leb_le in E
         end.
  pose proof (days_in_month_le y m). lia.
Qed.

Lemma match_date_head (sep : char) (y m d : Z) (rest : pystr)
    (ds : list directive) (x : fields * pystr) :
  1 <= y <= 9999 -> 1 <= m <= 12 -> 1 <= d <= 31 ->
  hd_error (match_format ds (mkFields y m d 0 0 0) rest) = Some x ->
  hd_error (match_format (date_directives sep ++ ds) default_fields
              (date_text sep y m d ++ rest)) = Some x.
Proof.
  intros Hy Hm Hd Hx. unfold date_directives, date_text.
  rewrite <- ?app_assoc. cbn [app].
  eapply match_format_head;
    [apply (hd_dir _ re_Y); [reflexivity|apply hd_re_Y; lia]|].
  eapply match_format_head; [apply hd_lit|].
  eapply match_format_head;
    [apply (hd_dir _ re_m); [reflexivity|apply hd_re_m; lia]|].
  eapply match_format_head; [apply hd_lit|].
  eapply match_format_head;
    [apply (hd_dir _ re_d); [reflexivity|apply hd_re_d; lia]|].
  exact Hx.
Qed.

Lemma strptime_date (sep : char) (y m d : Z) (format : pystr) :
  parse_format false format = date_directives sep ->
  valid_datetime (mkFields y m d 0 0 0) = true ->
  strptime (date_text sep y m d) format = Some (mkFields y m d 0 0 0).
Proof.
  intros Hp Hv. destruct (valid_datetime_ranges _ _ _ _ _ _ Hv)
    as (Hy & Hm & Hd & _).
  apply strptime_head; [|exact Hv]. rewrite Hp.
  rewrite <- (app_nil_r (date_directives sep)).
  rewrite <- (app_nil_r (date_text sep y m d)).
  apply match_date_head; try lia. reflexivity.
Qed.

Lemma strptime_date_time (sep : char) (y m d h mi : Z) (format : pystr) :
  parse_format false format = date_time_directives sep ->
  valid_datetime (mkFields y m d h mi 0) = true ->
  strptime (date_time_text sep y m d h mi) format
  = Some (mkFields y m d h mi 0).
Proof.
  intros Hp Hv. destruct (valid_datetime_ranges _ _ _ _ _ _ Hv)
    as (Hy & Hm & Hd & Hh & Hmi).
  apply strptime_head; [|exact Hv]. rewrite Hp.
  unfold date_time_directives, date_time_text.
  apply match_date_head; try lia.
  eapply match_format_head; [apply hd_spaces_padded|].
  eapply match_format_head;
    [apply (hd_dir _ re_H); [reflexivity|apply hd_re_H; lia]|].
  eapply match_format_head; [apply hd_lit|].
  eapply match_format_head;
    [apply (hd_dir _ re_M); [reflexivity|];
     rewrite <- (app_nil_r (zero_padded 2 mi)); apply hd_re_M; lia|].
  reflexivity.
Qed.

Lemma strptime_wrong_separator (sep sep' : char) (y : Z) (rest : pystr)
    (ds : list directive) (format : pystr) :
  parse_format false format = Dir (ch "Y") :: Lit sep' :: ds ->
  sep <> sep' ->
  strptime (zero_padded 4 y ++ sep :: rest) format = None.
Proof.
  intros Hp Hne. apply strptime_unmatched. intros f r Hin.
  rewrite Hp in Hin. cbn [match_format] in Hin. mf_step Hin.
  match goal with
  | H1 : In _ (match_directive (Dir _) _ _) |- _ =>
    apply (dir_rest _ re_Y) in H1 as [v H1]; [|reflexivity];
    apply re_Y_rest in H1; cbn [zero_padded app skipn] in H1; subst
  end.
  mf_step Hin.
  match goal with
  | H1 : In _ (match_directive (Lit _) _ _) |- _ =>
    apply lit_rest in H1; injection H1 as -> _; contradiction
  end.
Qed.

Lemma strptime_no_time (sep : char) (y m d : Z) (format : pystr) :
  is_ascii_digit sep = false ->
  parse_format false format = date_time_directives sep ->
  strptime (date_text sep y m d) format = None.
Proof.
  intros Hsep Hp. apply strptime_unmatched. intros f r Hin.
  rewrite Hp in Hin. unfold date_time_directives, date_directives in Hin.
  unfold date_text in Hin. cbn [zero_padded app match_format] in Hin.
  mf_step Hin.
  match goal with
  | H1 : In _ (match_directive (Dir _) _ _) |- _ =>
    apply (dir_rest _ re_Y) in H1 as [v H1]; [|reflexivity];
    apply re_Y_rest in H1; cbn [skipn] in H1; subst
  end.
  mf_step Hin.
  match goal with
  | H1 : In _ (match_directive (Lit _) _ _) |- _ =>
    apply lit_rest in H1; injection H1 as <-
  end.
  mf_step Hin.
  match goal with
  | H1 : In _ (match_directive (Dir _) _ _) |- _ =>
    apply (dir_rest _ re_m) in H1 as [v' H1]; [|reflexivity];
    apply re_m_rest in H1 as [H1|H1]; cbn [skipn] in H1; subst
  end.
  - mf_step Hin.
    match goal with
    | H1 : In _ (match_directive (Lit _) _ _) |- _ =>
      apply lit_rest in H1; injection H1 as E _
    end.
    rewrite <- E, is_ascii_digit_digit_char in Hsep. discriminate Hsep.
  - mf_step Hin.
    match goal with
    | H1 : In _ (match_directive (Lit _) _ _) |- _ =>
      apply lit_rest in H1; injection H1 as <-
    end.
    mf_step Hin.
    match goal with
    | H1 : In _ (match_directive (Dir _) _ _) |- _ =>
      apply (dir_rest _ re_d) in H1 as [v'' H1]; [|reflexivity];
      apply re_d_rest in H1 as [H1|H1]; cbn [skipn] in H1; subst
    end;
    mf_step Hin;
    match goal with
    | H1 : In _ (match_directive Spaces _ _) |- _ =>
      apply spaces_rest in H1 as (x & s' & E & Hx)
    end.
    + injection E as <- _.
      rewrite (digit_not_space _ (is_ascii_digit_digit_char d)) in Hx.
      discriminate Hx.
    + discriminate E.
Qed.

Section DatePadded.
Context {ext : Externals}.

Lemma normalize_padded_time (sep : char) (y m d h mi : Z) :
  sep = ch "/" \/ sep = ch "-" ->
  valid_datetime (mkFields y m d h mi 0) = true ->
  normalize_datetime (VStr (date_time_text sep y m d h mi))
  = isoformat (mkFields y m d h mi 0).
Proof.
  intros Hsep Hv.
  assert (E : normalize_datetime (VStr (date_time_text sep y m d h mi))
              = try_formats (date_time_text sep y m d h mi) candidates).
  { unfold date_time_text, date_text. cbn [zero_padded app]. reflexivity. }
  rewrite E. unfold candidates. cbn [map try_formats].
  destruct Hsep as [-> | ->].
  - rewrite (strptime_date_time (ch "/") y m d h mi (u "%Y/%m/%d %H:%M")
               eq_refl Hv).
    reflexivity.
  - assert (E1 : strptime (date_time_text (ch "-") y m d h mi)
                   (u "%Y/%m/%d %H:%M") = None).
    { unfold date_time_text, date_text. rewrite <- ?app_assoc. cbn [app].
      eapply strptime_wrong_separator; [reflexivity|discriminate]. }
    rewrite E1.
    rewrite (strptime_date_time (ch "-") y m d h mi (u "%Y-%m-%d %H:%M")
               eq_refl Hv).
    reflexivity.
Qed.

Lemma normalize_padded_date (sep : char) (y m d : Z) :
  sep = ch "/" \/ sep = ch "-" ->
  valid_datetime (mkFields y m d 0 0 0) = true ->
  normalize_datetime (VStr (date_text sep y m d))
  = isoformat (mkFields y m d 0 0 0).
Proof.
  intros Hsep Hv.
  assert (E : normalize_datetime (VStr (date_text sep y m d))
              = try_formats (date_text sep y m d) candidates).
  { unfold date_text. cbn [zero_padded app]. reflexivity. }
  rewrite E. unfold candidates. cbn [map try_formats].
  assert (W : forall s s' format ds,
             parse_format false format = Dir (ch "Y") :: Lit s' :: ds ->
             s <> s' -> strptime (date_text s y m d) format = None).
  { intros s s' format ds Hp Hne. unfold date_text. cbn [app].
    eapply strptime_wrong_separator; eassumption. }
  destruct Hsep as [-> | ->].
  - rewrite (strptime_no_time (ch "/") y m d (u "%Y/%m/%d %H:%M") eq_refl
               eq_refl).
    rewrite (W (ch "/") (ch "-") (u "%Y-%m-%d %H:%M") _ eq_refl)
      by discriminate.
    rewrite (strptime_date (ch "/") y m d (u "%Y/%m/%d") eq_refl Hv). reflexivity.
  - rewrite (W (ch "-") (ch "/") (u "%Y/%m/%d %H:%M") _ eq_refl)
      by discriminate.
    rewrite (strptime_no_time (ch "-") y m d (u "%Y-%m-%d %H:%M") eq_refl
               eq_refl).
    rewrite (W (ch "-") (ch "/") (u "%Y/%m/%d") _ eq_refl) by discriminate.
    rewrite (strptime_date (ch "-") y m d (u "%Y-%m-%d") eq_refl Hv). reflexivity.
Qed.
(** A date that exists, written with zero padding as YYYY/MM/DD HH:MM or
    YYYY-MM-DD HH:MM, is normalised to that date and time with seconds 00;
    written as YYYY/MM/DD or YYYY-MM-DD, to that date at midnight. *)
Theorem normalize_datetime_padded (sep : char) (y m d h mi : Z) :
  sep = ch "/" \/ sep = ch "-" ->
  valid_datetime (mkFields y m d h mi 0) = true ->
  normalize_datetime (VStr (date_time_text sep y m d h mi))
  = isoformat (mkFields y m d h mi 0) /\
  normalize_datetime (VStr (date_text sep y m d))
  = isoformat (mkFields y m d 0 0 0).
Proof.
  intros Hsep Hv. split; [apply normalize_padded_time; assumption|].
  apply normalize_padded_date; [assumption|].
  unfold valid_datetime in *. cbn [year month day hour minute second] in *.
  repeat match goal with
         | E : (_ && _)%bool = true |- _ =>
           apply andb_true_iff in E as [? ?]
         end.
  repeat (apply andb_true_iff; split); try assumption; reflexivity.
Qed.

End DatePadded.

Lemma normalize_datetime_padded_witness :
  normalize_datetime (ext := test_externals) (VStr (u "2024/01/05 09:03"))
  = u "2024-01-05T09:03:00" /\
  normalize_datetime (ext := test_externals) (VStr (u "2024/01/05"))
  = u "2024-01-05T00:00:00".
Proof.
  exact (normalize_datetime_padded (ext := test_externals) (ch "/")
           2024 1 5 9 3 (or_introl eq_refl) eq_refl).
Defined.

(** ** The driver: lines per article, and what a failure leaves *)

Lemma Forall2_In_l {A B : Type} (P : A -> B -> Prop) (l : list A)
    (l' : list B) (a : A) :
  Forall2 P l l' -> In a l -> exists b, In b l' /\ P a b.
Proof.
  induction 1 as [|x y l l' Hxy _ IH]; [contradiction|].
  intros [<-|Hin]; [exists y; split; [left; reflexivity|exact Hxy]|].
  destruct (IH Hin) as (b & Hb & Hab). exists b. split; [right|]; assumption.
Qed.

Section DriverMore.
Context {ext : Externals}.

Lemma kept_records_cover (fuel : nat) (source : pystr) (kept : list value)
    (recss : list (list record)) :
  Forall2 (fun a recs => to_jsonl_records fuel a source = Return recs)
    kept recss ->
  (length kept <= length (concat recss))%nat
  /\ (kept = [] <-> concat recss = []).
Proof.
  induction 1 as [|a recs kept recss Ha _ [IH1 IH2]].
  - split; [reflexivity|tauto].
  - apply to_jsonl_records_nonempty in Ha. cbn [concat length].
    rewrite length_app. destruct recs as [|r recs]; [contradiction|].
    cbn [length app]. split; [lia|]. split; discriminate.
Qed.

Lemma write_records_stops (recs : list record) :
  forall st st' res,
    write_records st recs = (st', res) ->
    (forall x, res <> Return x) ->
    exists part rec rest,
      recs = part ++ rec :: rest /\
      forallb encodable (map output_line part) = true /\
      encodable (output_line rec) = false /\
      res = Raise UnicodeEncodeError /\
      out st' = out st ++ map output_line part.
Proof.
  induction recs as [|rec recs IH]; intros st st' res; cbn [write_records].
  - intros [= <- <-] H. destruct (H tt eq_refl).
  - unfold write_record.
    destruct (existsb is_surrogate (output_line rec)) eqn:E.
    + intros [= <- <-] _. exists [], rec, recs.
      unfold encodable. rewrite E. cbn [map app].
      rewrite app_nil_r. auto.
    + intros Hw Hres.
      destruct (IH _ _ _ Hw Hres)
        as (part & rec' & rest & -> & Henc & Hbad & -> & Hout).
      exists (rec :: part), rec', rest. cbn [map forallb app].
      unfold encodable at 1. rewrite E, Henc. cbn [out] in Hout.
      rewrite Hout, <- app_assoc. auto.
Qed.

Lemma convert_article_stops (fuel : nat) (source : pystr)
    (st st' : driver_state) (a : value) (e : exn) :
  convert_article fuel source st a = (st', Raise e) ->
  exists part,
    stops fuel source a part e /\
    forallb encodable (map output_line part) = true /\
    out st' = out st ++ map output_line part.
Proof.
  unfold convert_article. intros Hrun.
  destruct a as [| | | | | |d];
    try (injection Hrun as <- <-; exists []; cbn [map]; rewrite app_nil_r;
         split; [apply stops_no_mapping; reflexivity|auto]).
  destruct (py_contains exclusion_marker
              (dict_get d "article_title" (VStr []))) as [[|]|e'|] eqn:Ec.
  - discriminate Hrun.
  - assert (Ht : title_testable (VDict d) = true).
    { unfold title_testable. rewrite Ec. reflexivity. }
    assert (Hx : excluded (VDict d) = false).
    { unfold excluded. rewrite Ec. reflexivity. }
    destruct (to_jsonl_records fuel (VDict d) source) as [recs|e'|] eqn:Er.
    + destruct (write_records_stops _ _ _ _ Hrun ltac:(discriminate))
        as (part & rec & rest & -> & Henc & Hbad & [= ->] & Hout).
      exists part. split; [|auto].
      apply (stops_write _ _ _ part rec rest); assumption.
    + injection Hrun as <- <-. exists []. cbn [map out]. rewrite app_nil_r.
      split; [apply stops_builder_raises; assumption|auto].
    + discriminate Hrun.
  - injection Hrun as <- <-. exists []. cbn [map]. rewrite app_nil_r.
    assert (e' = TypeError) as ->.
    { unfold py_contains in Ec.
      destruct (dict_get d "article_title" (VStr [])); congruence. }
    split; [|auto]. apply stops_title; [reflexivity|].
    unfold title_testable. rewrite Ec. reflexivity.
  - discriminate Hrun.
Qed.

Lemma convert_articles_stops (fuel : nat) (source : pystr)
    (articles : list value) :
  forall st st' e,
    convert_articles fuel source st articles = (st', Raise e) ->
    exists before a after recss part,
      articles = before ++ a :: after /\
      forallb title_testable before = true /\
      Forall2 (fun a recs => to_jsonl_records fuel a source = Return recs)
        (filter (fun a => negb (excluded a)) before) recss /\
      stops fuel source a part e /\
      forallb encodable (map output_line (concat recss ++ part)) = true /\
      out st' = out st ++ map output_line (concat recss ++ part).
Proof.
  induction articles as [|a articles IH]; intros st st' e;
    cbn [convert_articles]; [discriminate|].
  destruct (convert_article fuel source st a) as [st1 [x|e1|]] eqn:Ea.
  - intros Hrun.
    destruct (IH _ _ _ Hrun)
      as (before & b & after & recss & part & -> & Hts & Hall & Hstop
          & Henc & Hout).
    apply convert_article_return in Ea
      as [Ht [[Hex ->]|(Hex & recs & Hrec & Henc1 & ->)]].
    + exists (a :: before), b, after, recss, part.
      cbn [forallb filter]. rewrite Ht, Hex, Hts. cbn [negb andb].
      auto 10.
    + exists (a :: before), b, after, (recs :: recss), part.
      cbn [forallb filter concat]. rewrite Ht, Hex, Hts. cbn [negb andb].
      rewrite <- app_assoc, map_app, forallb_app, Henc1, Henc.
      cbn [out] in Hout. rewrite Hout, <- app_assoc.
      repeat split; try reflexivity; try assumption.
      constructor; assumption.
  - intros [= <- <-].
    destruct (convert_article_stops _ _ _ _ _ _ Ea)
      as (part & Hstop & Henc & Hout).
    exists [], a, articles, [], part. cbn [app filter concat forallb].
    repeat split; try assumption; try constructor.
  - discriminate.
Qed.

(** When the driver returns, every article that was not passed over has
    at least one line: the first number returned is at most the second,
    nothing is written exactly when no article was converted, and no line
    holds a lone surrogate. *)
Theorem convert_to_jsonl_lines_cover_articles (fuel : nat) (data : value)
    (source : pystr) (lines : list pystr) (n_articles n_lines : Z) :
  convert_to_jsonl fuel data source
  = (lines, Return (n_articles, n_lines)) ->
  0 <= n_articles <= n_lines /\
  (n_articles = 0 <-> lines = []) /\
  forallb encodable lines = true.
Proof.
  unfold convert_to_jsonl.
  destruct (v <- py_getitem_articles data ;; py_iter v)
    as [articles|e|]; try discriminate.
  destruct (convert_articles fuel source (mkState 0 0 []) articles)
    as [st [x|e|]] eqn:Ec; try discriminate.
  apply convert_articles_return in Ec as (_ & recss & Hall & Henc & ->).
  cbn. intros [= <- <- <-].
  destruct (kept_records_cover _ _ _ _ Hall) as [Hle Hiff].
  split; [lia|]. split; [|exact Henc]. split.
  - intros H.
    assert (Hk : filter (fun a => negb (excluded a)) articles = []).
    { apply length_zero_iff_nil. lia. }
    apply Hiff in Hk. rewrite Hk. reflexivity.
  - intros H. apply map_eq_nil in H. apply Hiff in H. rewrite H.
    reflexivity.
Qed.

(** When the driver raises, the output file, which the [with] block has
    closed by then, holds the lines of the articles before the one the
    driver stopped at, in full, and the lines of that article that were
    written before it stopped; every line written can be encoded.  What
    made it raise is an article that is no mapping, a title that cannot be
    searched, the builder, or a line that cannot be encoded. *)
Theorem convert_to_jsonl_partial_output (fuel : nat) (data : value)
    (source : pystr) (articles : list value) (lines : list pystr)
    (e : exn) :
  (v <- py_getitem_articles data ;; py_iter v) = Return articles ->
  convert_to_jsonl fuel data source = (lines, Raise e) ->
  exists before a after recss part,
    articles = before ++ a :: after /\
    forallb title_testable before = true /\
    Forall2 (fun a recs => to_jsonl_records fuel a source = Return recs)
      (filter (fun a => negb (excluded a)) before) recss /\
    stops fuel source a part e /\
    lines = map output_line (concat recss ++ part) /\
    forallb encodable lines = true.
Proof.
  intros Hit. unfold convert_to_jsonl. rewrite Hit.
  destruct (convert_articles fuel source (mkState 0 0 []) articles)
    as [st [x|e'|]] eqn:Ec; try discriminate.
  intros [= <- <-].
  destruct (convert_articles_stops _ _ _ _ _ _ Ec)
    as (before & a & after & recss & part & -> & Hts & Hall & Hstop & Henc
        & Hout).
  cbn [out app] in Hout.
  exists before, a, after, recss, part.
  rewrite Hout. repeat split; assumption.
Qed.

(** An article that is not passed over and whose title leaves the chunker
    a limit not above the overlap, with a content longer than that limit,
    keeps the driver from returning, whatever the fuel and wherever the
    article stands in the document. *)
Theorem convert_to_jsonl_long_title_never_returns (data : value)
    (source : pystr) (articles : list value) (d : list (pystr * value))
    (title content : pystr) :
  (v <- py_getitem_articles data ;; py_iter v) = Return articles ->
  In (VDict d) articles ->
  excluded (VDict d) = false ->
  dict_get d "article_title" (VStr []) = VStr title ->
  clean_article_with_comments (VDict d) = Return content ->
  1393 <= len title < 1593 ->
  1593 - len title < len (strip content) ->
  forall fuel, returns (snd (convert_to_jsonl fuel data source)) = false.
Proof.
  intros Hit Hin Hex Ht Hc Hlen Hcontent fuel.
  assert (Hloop : to_jsonl_records fuel (VDict d) source = OutOfFuel).
  { unfold to_jsonl_records. rewrite Hc, Ht. simpl bind.
    assert (Hne : title <> []).
    { intros ->. unfold len in Hlen. simpl in Hlen. lia. }
    assert (Htags : extract_title_tags (VStr title)
                    = Return (title_tags title)).
    { unfold extract_title_tags.
      destruct title; [contradiction|reflexivity]. }
    rewrite Htags. simpl bind.
    pose proof (len_title_prefix title) as Hp.
    rewrite chunk_with_title_prefix_diverges;
      [reflexivity|assumption|lia..]. }
  unfold convert_to_jsonl. rewrite Hit.
  destruct (convert_articles fuel source (mkState 0 0 []) articles)
    as [st [x|e|]] eqn:Ec; [|reflexivity..].
  apply convert_articles_return in Ec as (_ & recss & Hall & _ & _).
  assert (Hk : In (VDict d) (filter (fun a => negb (excluded a)) articles)).
  { apply filter_In. split; [exact Hin|]. rewrite Hex. reflexivity. }
  destruct (Forall2_In_l _ _ _ _ Hall Hk) as (recs & _ & Hrecs).
  congruence.
Qed.

(** On a document without a list of articles the outcome is settled by the
    shape of the document, and nothing is written: [TypeError] when the
    document is no mapping or holds something that cannot be walked
    through, [KeyError] when it has no articles, [AttributeError] when the
    articles are a text or a mapping that is not empty, and two zeros when
    they are empty. *)
Theorem convert_to_jsonl_document_shape (data : value)
    (res : outcome (Z * Z)) :
  document_outcome data = Some res ->
  forall fuel source, convert_to_jsonl fuel data source = ([], res).
Proof.
  unfold document_outcome, convert_to_jsonl, py_getitem_articles.
  intros H fuel source.
  destruct data as [| | | | | |d]; try (injection H as <-; reflexivity).
  destruct (lookup d (u "articles")) as [[| | | |s|l|d']|];
    try (injection H as <-; reflexivity).
  - destruct s; injection H as <-; reflexivity.
  - destruct l; [injection H as <-; reflexivity|discriminate H].
  - destruct d'; injection H as <-; reflexivity.
Qed.

End DriverMore.

Lemma convert_to_jsonl_lines_cover_articles_witness :
  0 <= 1 <= 1 /\
  (1 = 0 <-> [u "標題: [情報] 乙 | kept" ++ [newline]] = []) /\
  forallb encodable [u "標題: [情報] 乙 | kept" ++ [newline]] = true.
Proof.
  apply (convert_to_jsonl_lines_cover_articles (ext := test_externals) 2
           (VDict [(u "articles",
                    VList [VDict [(u "article_title", VStr (u "[原創] 甲"));
                                  (u "content", VStr (u "skipped"))];
                           VDict [(u "article_title", VStr (u "[情報] 乙"));
                                  (u "content", VStr (u "kept"))]])])
           (u "PTT")).
  vm_compute. reflexivity.
Defined.

Lemma convert_to_jsonl_partial_output_witness :
  exists before a after recss part,
    [VDict [(u "content", VStr (u "kept"))]; VInt 1; VDict []]
    = before ++ a :: after /\
    forallb title_testable before = true /\
    Forall2 (fun a recs =>
               to_jsonl_records (ext := test_externals) 2 a (u "PTT")
               = Return recs)
      (filter (fun a => negb (excluded a)) before) recss /\
    stops (ext := test_externals) 2 (u "PTT") a part AttributeError /\
    [u "kept" ++ [newline]] = map (output_line (ext := test_externals))
                                (concat recss ++ part) /\
    forallb encodable [u "kept" ++ [newline]] = true.
Proof.
  apply (convert_to_jsonl_partial_output (ext := test_externals) 2
           (VDict [(u "articles",
                    VList [VDict [(u "content", VStr (u "kept"))]; VInt 1;
                           VDict []])])
           (u "PTT")).
  - reflexivity.
  - vm_compute. reflexivity.
Defined.

Lemma convert_to_jsonl_long_title_never_returns_witness :
  returns
    (snd (convert_to_jsonl (ext := test_externals) 5
            (VDict [(u "articles",
                     VList [VDict [(u "article_title",
                                    VStr (repeat (ch "a") 1393));
                                   (u "content",
                                    VStr (repeat (ch "b") 201))]])])
            (u "PTT")))
  = false.
Proof.
  apply (convert_to_jsonl_long_title_never_returns (ext := test_externals)
           (VDict [(u "articles",
                    VList [VDict [(u "article_title",
                                   VStr (repeat (ch "a") 1393));
                                  (u "content",
                                   VStr (repeat (ch "b") 201))]])])
           (u "PTT")
           [VDict [(u "article_title", VStr (repeat (ch "a") 1393));
                   (u "content", VStr (repeat (ch "b") 201))]]
           [(u "article_title", VStr (repeat (ch "a") 1393));
            (u "content", VStr (repeat (ch "b") 201))]
           (repeat (ch "a") 1393) (repeat (ch "b") 201)).
  - reflexivity.
  - left. reflexivity.
  - vm_compute. reflexivity.
  - reflexivity.
  - vm_compute. reflexivity.
  - vm_compute. split; [discriminate|reflexivity].
  - vm_compute. reflexivity.
Defined.

Lemma convert_to_jsonl_document_shape_witness :
  convert_to_jsonl (ext := test_externals) 0 (VList []) (u "PTT")
  = ([], Raise TypeError) /\
  convert_to_jsonl (ext := test_externals) 0
    (VDict [(u "articles", VStr (u "ab"))]) (u "PTT")
  = ([], Raise AttributeError).
Proof.
  split.
  - exact (convert_to_jsonl_document_shape (ext := test_externals)
             (VList []) (Raise TypeError) eq_refl 0%nat (u "PTT")).
  - exact (convert_to_jsonl_document_shape (ext := test_externals)
             (VDict [(u "articles", VStr (u "ab"))]) (Raise AttributeError)
             eq_refl 0%nat (u "PTT")).
Defined.
